(** * Point-of-sale ledger (ERPlora sales module): model and verified properties

    The development embeds [models.py] (Sale, SaleItem, ParkedTicket,
    CashRegister, CashMovement) and the [complete_sale] view of [views.py].
    Python values are modelled as the code has them: [decimal.Decimal] as a
    coefficient and an exponent with the arithmetic of the default context
    (28 significant digits, ROUND_HALF_EVEN), [float] as binary64 values,
    [str] as strings of bytes, database tables as lists of rows in insertion
    order and the inventory's product table as a finite map.  Exceptions are
    [None] results.

    Part I holds the definitions, Part II the lemmas and theorems. *)

From Stdlib Require Import ZArith Lia Bool List String Ascii.
From Stdlib Require Import QArith Qround Qabs Qpower Qfield.
From stdpp Require Import gmap.
Import ListNotations.
Close Scope Q_scope.

(* ====================================================================== *)
(** * Part I: definitions *)
(* ====================================================================== *)

(** ** Python's [decimal] module *)

Module PyDecimal.
Local Open Scope Z_scope.

(** A finite [decimal.Decimal]: the value is [coefficient * 10 ^ exponent].
    The sign is carried by the coefficient (the negative zero of the decimal
    module is identified with zero) and the exponent is unbounded (the
    context limits Emin = -999999 and Emax = 999999 are not represented). *)
Record Decimal : Set := mkDecimal { coefficient : Z; exponent : Z }.

(** The default context: [Context(prec=28, rounding=ROUND_HALF_EVEN)]. *)
Definition prec : Z := 28.

(** [len(self._int)]: the number of decimal digits of the coefficient. *)
Fixpoint ndigits_aux (fuel : nat) (n : Z) : Z :=
  match fuel with
  | O => 1
  | S f => if n <? 10 then 1 else 1 + ndigits_aux f (n / 10)
  end.

Definition ndigits (n : Z) : Z :=
  ndigits_aux (Z.to_nat (Z.log2 (Z.abs n) + 1)) (Z.abs n).

(** [ROUND_HALF_EVEN] of the quotient [n / d] of a magnitude [n] by [d > 0]. *)
Definition round_half_even (n d : Z) : Z :=
  let q := n / d in
  let r := n mod d in
  if 2 * r <? d then q
  else if d <? 2 * r then q + 1
  else if Z.even q then q else q + 1.

(** [Decimal._fix]: round to the context's precision. *)
Definition _fix (a : Decimal) : Decimal :=
  let c := coefficient a in
  let n := ndigits c in
  if n <=? prec then a
  else
    let k := n - prec in
    let c' := round_half_even (Z.abs c) (10 ^ k) in
    if c' =? 10 ^ prec
    then mkDecimal (Z.sgn c * (c' / 10)) (exponent a + k + 1)
    else mkDecimal (Z.sgn c * c') (exponent a + k).

Definition dneg (a : Decimal) : Decimal :=
  mkDecimal (- coefficient a) (exponent a).

(** [Decimal.__add__]: the exact sum at the smaller exponent, then [_fix]. *)
Definition dadd (a b : Decimal) : Decimal :=
  let e := Z.min (exponent a) (exponent b) in
  _fix (mkDecimal (coefficient a * 10 ^ (exponent a - e)
                   + coefficient b * 10 ^ (exponent b - e)) e).

Definition dsub (a b : Decimal) : Decimal := dadd a (dneg b).

(** [Decimal.__mul__]. *)
Definition dmul (a b : Decimal) : Decimal :=
  _fix (mkDecimal (coefficient a * coefficient b) (exponent a + exponent b)).

(** The loop of [__truediv__] that brings an exact quotient as close to the
    ideal exponent as its trailing zeros allow. *)
Fixpoint strip_zeros (fuel : nat) (coeff exp ideal_exp : Z) : Z * Z :=
  match fuel with
  | O => (coeff, exp)
  | S f =>
      if (exp <? ideal_exp) && (coeff mod 10 =? 0)
      then strip_zeros f (coeff / 10) (exp + 1) ideal_exp
      else (coeff, exp)
  end.

(** [Decimal.__truediv__]; [None] is the exception raised on a zero divisor. *)
Definition ddiv (a b : Decimal) : option Decimal :=
  if coefficient b =? 0 then None
  else if coefficient a =? 0
  then Some (_fix (mkDecimal 0 (exponent a - exponent b)))
  else
    let sign := Z.sgn (coefficient a) * Z.sgn (coefficient b) in
    let op1 := Z.abs (coefficient a) in
    let op2 := Z.abs (coefficient b) in
    let shift := ndigits op2 - ndigits op1 + prec + 1 in
    let exp := exponent a - exponent b - shift in
    let n := if 0 <=? shift then op1 * 10 ^ shift else op1 in
    let d := if 0 <=? shift then op2 else op2 * 10 ^ (- shift) in
    let coeff := n / d in
    let remainder := n mod d in
    if remainder =? 0
    then
      let ideal_exp := exponent a - exponent b in
      let '(coeff', exp') :=
        strip_zeros (Z.to_nat (ideal_exp - exp)) coeff exp ideal_exp in
      Some (_fix (mkDecimal (sign * coeff') exp'))
    else
      let coeff' := if coeff mod 5 =? 0 then coeff + 1 else coeff in
      Some (_fix (mkDecimal (sign * coeff') exp)).

(** [Decimal._rescale(exp, ROUND_HALF_EVEN)]. *)
Definition _rescale (a : Decimal) (exp : Z) : Decimal :=
  if exp <=? exponent a
  then mkDecimal (coefficient a * 10 ^ (exponent a - exp)) exp
  else mkDecimal (Z.sgn (coefficient a)
                  * round_half_even (Z.abs (coefficient a))
                                    (10 ^ (exp - exponent a))) exp.

(** [Decimal.quantize(exp)]; [None] is [InvalidOperation] (the result would
    have more digits than the precision). *)
Definition quantize (a exp : Decimal) : option Decimal :=
  let e := exponent exp in
  if coefficient a =? 0 then Some (mkDecimal 0 e)
  else if prec <? ndigits (coefficient a) + exponent a - e then None
  else
    let ans := _rescale a e in
    if prec <? ndigits (coefficient ans) then None else Some ans.

(** Comparison of values ([__eq__], [__gt__]). *)
Definition dcompare (a b : Decimal) : comparison :=
  let e := Z.min (exponent a) (exponent b) in
  (coefficient a * 10 ^ (exponent a - e)
   ?= coefficient b * 10 ^ (exponent b - e)).

Definition deqb (a b : Decimal) : bool :=
  match dcompare a b with Eq => true | _ => false end.

Definition dgtb (a b : Decimal) : bool :=
  match dcompare a b with Gt => true | _ => false end.

(** [bool(d)]: a Decimal is falsy exactly when it is zero. *)
Definition dtruthy (a : Decimal) : bool := negb (coefficient a =? 0).

End PyDecimal.
Import PyDecimal.

(** ** Magnitude bounds used in the proofs *)

Module Bounds.
Local Open Scope Z_scope.

(** [mag_le a m]: the magnitude of [a] is at most [10 ^ m] (a negative
    power of ten is [0] in [Z], which forces a zero coefficient). *)
Definition mag_le (a : Decimal) (m : Z) : Prop :=
  Z.abs (coefficient a) <= 10 ^ (m - exponent a).

(** A divisor of magnitude at least one. *)
Definition ge_one (b : Decimal) : Prop :=
  coefficient b <> 0 /\ 10 ^ (- exponent b) <= Z.abs (coefficient b).

End Bounds.
Import Bounds.

(** ** Python's [float] *)

Module PyFloat.
Local Open Scope Z_scope.

(** A Python [float] (IEEE 754 binary64): [Finite m e] is [m * 2 ^ e]. *)
Inductive float : Set :=
| Finite (m e : Z)
| Inf (negative : bool)
| NaN.

(** Round the rational [n / d] ([d > 0]) to the nearest binary64, ties to
    even: 53 significant bits, exponent at least -1074, overflow to an
    infinity from [2 ^ 1024]. *)
Definition round_nearest (n d : Z) : float :=
  if n =? 0 then Finite 0 0
  else
    let a := Z.abs n in
    let t := Z.log2 a - Z.log2 d in
    let lg :=
      if (if 0 <=? t then d * 2 ^ t <=? a else d <=? a * 2 ^ (- t))
      then t else t - 1 in
    let e := Z.max (lg - 52) (-1074) in
    let m :=
      if 0 <=? e then round_half_even a (d * 2 ^ e)
      else round_half_even (a * 2 ^ (- e)) d in
    if 1024 <=? Z.log2 m + e then Inf (n <? 0)
    else Finite (Z.sgn n * m) e.

(** [float(d)] for a Decimal: the correctly rounded conversion. *)
Definition float_of_Decimal (a : Decimal) : float :=
  if 0 <=? exponent a
  then round_nearest (coefficient a * 10 ^ exponent a) 1
  else round_nearest (coefficient a) (10 ^ (- exponent a)).

(** [x + y] on floats. *)
Definition fadd (x y : float) : float :=
  match x, y with
  | NaN, _ | _, NaN => NaN
  | Inf s1, Inf s2 => if Bool.eqb s1 s2 then Inf s1 else NaN
  | Inf s, Finite _ _ | Finite _ _, Inf s => Inf s
  | Finite m1 e1, Finite m2 e2 =>
      let e := Z.min e1 e2 in
      let n := m1 * 2 ^ (e1 - e) + m2 * 2 ^ (e2 - e) in
      if 0 <=? e then round_nearest (n * 2 ^ e) 1
      else round_nearest n (2 ^ (- e))
  end.

(** [sum(xs)] of floats: left to right from the int [0]. *)
Definition fsum (xs : list float) : float := fold_left fadd xs (Finite 0 0).

(** [x == d] for a float [x] and a Decimal [d]: the values are compared
    exactly. *)
Definition float_eq_Decimal (x : float) (a : Decimal) : bool :=
  match x with
  | Finite m e =>
      let e2 := Z.min e 0 in
      let e10 := Z.min (exponent a) 0 in
      m * 2 ^ (e - e2) * 10 ^ (- e10)
      =? coefficient a * 10 ^ (exponent a - e10) * 2 ^ (- e2)
  | _ => false
  end.

(** [x == y] on floats. *)
Definition feqb (x y : float) : bool :=
  match x, y with
  | Finite m1 e1, Finite m2 e2 =>
      let e := Z.min e1 e2 in
      m1 * 2 ^ (e1 - e) =? m2 * 2 ^ (e2 - e)
  | Inf s1, Inf s2 => Bool.eqb s1 s2
  | _, _ => false
  end.

End PyFloat.
Import PyFloat.

(** ** Python's [str], [int] and string formatting *)

Module PyStr.
Local Open Scope string_scope.
Local Open Scope Z_scope.

Definition digit_char (d : Z) : ascii := ascii_of_nat (48 + Z.to_nat d).

Fixpoint str_digits (fuel : nat) (n : Z) (acc : string) : string :=
  match fuel with
  | O => acc
  | S f =>
      let acc' := String (digit_char (n mod 10)) acc in
      if n <? 10 then acc' else str_digits f (n / 10) acc'
  end.

(** [str(n)] for an int [n >= 0]. *)
Definition str_nat (n : Z) : string :=
  str_digits (Z.to_nat (Z.log2 n + 1)) n "".

(** [str(n)] for an int. *)
Definition str_int (n : Z) : string :=
  if n <? 0 then "-" ++ str_nat (- n) else str_nat n.

Fixpoint zeros (k : nat) : string :=
  match k with O => "" | S k' => String "0" (zeros k') end.

(** [f'{n:04d}']: sign-aware zero padding to a minimum width of 4. *)
Definition format_04d (n : Z) : string :=
  let s := str_nat (Z.abs n) in
  if n <? 0 then "-" ++ zeros (3 - String.length s) ++ s
  else zeros (4 - String.length s) ++ s.

(** [s.split(sep)[-1]]: the part of [s] after its last [sep]. *)
Fixpoint split_last (sep : ascii) (s : string) : string :=
  match s with
  | EmptyString => EmptyString
  | String c s' =>
      if existsb (Ascii.eqb sep) (list_ascii_of_string s') then split_last sep s'
      else if Ascii.eqb c sep then s' else s
  end.

Definition is_digit (c : ascii) : bool :=
  let n := nat_of_ascii c in (48 <=? n)%nat && (n <=? 57)%nat.

Definition is_space (c : ascii) : bool :=
  let n := nat_of_ascii c in
  ((9 <=? n)%nat && (n <=? 13)%nat) || ((28 <=? n)%nat && (n <=? 32)%nat).

Fixpoint lstrip (s : string) : string :=
  match s with
  | String c s' => if is_space c then lstrip s' else s
  | EmptyString => EmptyString
  end.

Fixpoint rstrip (s : string) : string :=
  match s with
  | EmptyString => EmptyString
  | String c s' =>
      match rstrip s' with
      | EmptyString => if is_space c then EmptyString else String c EmptyString
      | r => String c r
      end
  end.

(** Digits of an int literal: groups of digits separated by single
    underscores.  [after_digit] tells whether the previous character was a
    digit (an underscore is only allowed there, and not at the end). *)
Fixpoint int_digits (s : string) (acc : Z) (after_digit : bool) : option Z :=
  match s with
  | EmptyString => if after_digit then Some acc else None
  | String c s' =>
      if is_digit c
      then int_digits s' (10 * acc + (Z.of_nat (nat_of_ascii c) - 48)) true
      else if Ascii.eqb c "_" && after_digit
      then match s' with
           | String c' _ => if is_digit c' then int_digits s' acc false else None
           | EmptyString => None
           end
      else None
  end.

(** [int(s)] for a str; [None] is [ValueError]. *)
Definition int_of_str (s : string) : option Z :=
  match rstrip (lstrip s) with
  | String "-" s' => option_map Z.opp (int_digits s' 0 false)
  | String "+" s' => int_digits s' 0 false
  | s' => int_digits s' 0 false
  end.

(** [max] of a list of strings in the order of [String.compare] (code
    points), [None] on the empty list: [order_by('-field').first()]. *)
Fixpoint greatest (l : list string) : option string :=
  match l with
  | [] => None
  | x :: l' =>
      match greatest l' with
      | None => Some x
      | Some y => if String.ltb x y then Some y else Some x
      end
  end.

(** [Decimal.__str__]: the scientific string of the decimal module. *)
Definition str_Decimal (a : Decimal) : string :=
  let c := coefficient a in
  let sign := if c <? 0 then "-" else "" in
  let _int := str_nat (Z.abs c) in
  let len := Z.of_nat (String.length _int) in
  let leftdigits := exponent a + len in
  let dotplace :=
    if (exponent a <=? 0) && (-6 <? leftdigits) then leftdigits else 1 in
  let intpart :=
    if dotplace <=? 0 then "0"
    else if len <=? dotplace then _int ++ zeros (Z.to_nat (dotplace - len))
    else substring 0 (Z.to_nat dotplace) _int in
  let fracpart :=
    if dotplace <=? 0 then "." ++ zeros (Z.to_nat (- dotplace)) ++ _int
    else if len <=? dotplace then ""
    else "." ++ substring (Z.to_nat dotplace) (Z.to_nat (len - dotplace)) _int in
  let exp :=
    if leftdigits =? dotplace then ""
    else "E" ++ (if 0 <=? leftdigits - dotplace then "+" else "")
             ++ str_int (leftdigits - dotplace) in
  sign ++ intpart ++ fracpart ++ exp.

End PyStr.
Import PyStr.

(** ** Django: the clock and the object-relational mapper *)

Module Timezone.
Local Open Scope string_scope.
Local Open Scope Z_scope.

(** The value of [timezone.now()]: its calendar date and its position on
    the time line in seconds. *)
Record datetime : Set :=
  { year : Z; month : Z; day : Z; timestamp : Z }.

(** A strftime field of fixed minimum width, zero padded. *)
Definition pad (width : nat) (n : Z) : string :=
  let s := str_nat n in zeros (width - String.length s) ++ s.

(** [now.strftime('%Y%m%d')]. *)
Definition strftime_Ymd (now : datetime) : string :=
  pad 4 (year now) ++ pad 2 (month now) ++ pad 2 (day now).

(** [now + timedelta(hours=24)]. *)
Definition plus_24_hours (now : datetime) : Z := timestamp now + 24 * 3600.

End Timezone.

Module Orm.
Section Table.
Context {row : Type}.
Variable pk : row -> option Z.
Variable set_pk : Z -> row -> row.

Definition pks (objects : list row) : list Z := omap pk objects.

(** The key that an INSERT assigns: one above the keys of the table.  (The
    sequence of the database also never gives the key of a deleted row
    again, which the rows alone do not record: the key is that of a table
    whose last row has not been deleted.) *)
Definition fresh_pk (objects : list row) : Z :=
  (1 + fold_right Z.max 0 (pks objects))%Z.

Definition has_pk (k : Z) (r : row) : bool :=
  match pk r with Some k' => (k =? k')%Z | None => false end.

(** [Model.save()]: UPDATE the row that has the object's key, INSERT the
    object otherwise (at the end of the table, with a fresh key when it
    has none). *)
Definition Model_save (objects : list row) (self : row) : row * list row :=
  match pk self with
  | Some k =>
      if existsb (has_pk k) objects
      then (self, map (fun r => if has_pk k r then self else r) objects)
      else (self, objects ++ [self])
  | None =>
      let self' := set_pk (fresh_pk objects) self in
      (self', objects ++ [self'])
  end.

(** A column declared [unique=True]: the write is refused (IntegrityError,
    [None]) when another row holds the same value. *)
Definition Model_save_unique (column : row -> string)
    (objects : list row) (self : row) : option (row * list row) :=
  let other r :=
    match pk self with Some k => negb (has_pk k r) | None => true end in
  if existsb (fun r => other r && String.eqb (column r) (column self)) objects
  then None
  else Some (Model_save objects self).

(** [obj.delete()]. *)
Definition Model_delete (objects : list row) (self : row) : list row :=
  match pk self with
  | Some k => List.filter (fun r => negb (has_pk k r)) objects
  | None => objects
  end.
End Table.
End Orm.

(** ** models.py *)

(** [Decimal('100')], [Decimal('1')], [Decimal('0.01')], [Decimal('0.00')]. *)
Definition Decimal_100 : Decimal := mkDecimal 100 0.
Definition Decimal_1 : Decimal := mkDecimal 1 0.
Definition Decimal_0_01 : Decimal := mkDecimal 1 (-2).
Definition Decimal_0_00 : Decimal := mkDecimal 0 (-2).

Module SaleItem.

Record t : Set := mk
  { id : option Z;
    sale : Z;
    product_id : Z;
    product_name : string;
    product_sku : string;
    is_service : bool;
    quantity : Decimal;
    unit_price : Decimal;
    discount_percent : Decimal;
    tax_rate : Decimal;
    tax_class_name : string;
    net_amount : Decimal;
    tax_amount : Decimal;
    line_total : Decimal }.

Definition set_id (k : Z) (self : t) : t :=
  mk (Some k) (sale self) (product_id self) (product_name self)
     (product_sku self) (is_service self) (quantity self) (unit_price self)
     (discount_percent self) (tax_rate self) (tax_class_name self)
     (net_amount self) (tax_amount self) (line_total self).

Definition set_amounts (net tax total : Decimal) (self : t) : t :=
  mk (id self) (sale self) (product_id self) (product_name self)
     (product_sku self) (is_service self) (quantity self) (unit_price self)
     (discount_percent self) (tax_rate self) (tax_class_name self)
     net tax total.

(** [SaleItem.save]: the line amounts, then the write.  [tax_included] is
    [StoreConfig.get_solo().tax_included], read at the call. *)
Definition save (tax_included : bool) (objects : list t) (self : t)
  : option (t * list t) :=
  percent ← ddiv (discount_percent self) Decimal_100;
  let discount_amount := dmul (unit_price self) percent in
  let discounted_price := dsub (unit_price self) discount_amount in
  if tax_included then
    rate ← ddiv (tax_rate self) Decimal_100;
    let tax_divisor := dadd Decimal_1 rate in
    net_unit ← ddiv discounted_price tax_divisor;
    net ← quantize (dmul net_unit (quantity self)) Decimal_0_01;
    total ← quantize (dmul discounted_price (quantity self)) Decimal_0_01;
    tax ← quantize (dsub total net) Decimal_0_01;
    Some (Orm.Model_save id set_id objects (set_amounts net tax total self))
  else
    net ← quantize (dmul discounted_price (quantity self)) Decimal_0_01;
    rate ← ddiv (tax_rate self) Decimal_100;
    tax ← quantize (dmul net rate) Decimal_0_01;
    total ← quantize (dadd net tax) Decimal_0_01;
    Some (Orm.Model_save id set_id objects (set_amounts net tax total self)).

End SaleItem.

Module Sale.
Local Open Scope string_scope.

Definition PAYMENT_CASH : string := "cash".
Definition PAYMENT_CARD : string := "card".
Definition PAYMENT_TRANSFER : string := "transfer".
Definition PAYMENT_MIXED : string := "mixed".

Definition STATUS_PENDING : string := "pending".
Definition STATUS_CANCELLED : string := "cancelled".

(** One entry of the [tax_breakdown] JSON object. *)
Record breakdown_entry : Set := { base : float; tax : float }.

Record t : Set := mk
  { id : option Z;
    sale_number : string;
    status : string;
    subtotal : Decimal;
    tax_amount : Decimal;
    tax_breakdown : list (string * breakdown_entry);
    discount_amount : Decimal;
    total : Decimal;
    payment_method : string;
    amount_paid : Decimal;
    change_given : Decimal;
    customer_name : string;
    cash_register : option Z;
    user : option Z;
    created_at : option Z;
    updated_at : option Z }.

(** [Sale(...)] with the field defaults; [created_at] and [updated_at] are
    [None] until the object is saved. *)
Definition new (status payment_method : string) (amount_paid : Decimal)
    (customer_name : string) (user : option Z) : t :=
  mk None "" status Decimal_0_00 Decimal_0_00 [] Decimal_0_00 Decimal_0_00
     payment_method amount_paid Decimal_0_00 customer_name None user
     None None.

Definition set_id (k : Z) (self : t) : t :=
  mk (Some k) (sale_number self) (status self) (subtotal self)
     (tax_amount self) (tax_breakdown self) (discount_amount self)
     (total self) (payment_method self) (amount_paid self)
     (change_given self) (customer_name self) (cash_register self)
     (user self) (created_at self) (updated_at self).

Definition set_sale_number (number : string) (self : t) : t :=
  mk (id self) number (status self) (subtotal self)
     (tax_amount self) (tax_breakdown self) (discount_amount self)
     (total self) (payment_method self) (amount_paid self)
     (change_given self) (customer_name self) (cash_register self)
     (user self) (created_at self) (updated_at self).

Definition set_created_at (time : Z) (self : t) : t :=
  mk (id self) (sale_number self) (status self) (subtotal self)
     (tax_amount self) (tax_breakdown self) (discount_amount self)
     (total self) (payment_method self) (amount_paid self)
     (change_given self) (customer_name self) (cash_register self)
     (user self) (Some time) (updated_at self).

Definition set_updated_at (time : Z) (self : t) : t :=
  mk (id self) (sale_number self) (status self) (subtotal self)
     (tax_amount self) (tax_breakdown self) (discount_amount self)
     (total self) (payment_method self) (amount_paid self)
     (change_given self) (customer_name self) (cash_register self)
     (user self) (created_at self) (Some time).

Definition set_totals (subtotal tax_amount : Decimal)
    (tax_breakdown : list (string * breakdown_entry))
    (total change_given : Decimal) (self : t) : t :=
  mk (id self) (sale_number self) (status self) subtotal tax_amount
     tax_breakdown (discount_amount self) total (payment_method self)
     (amount_paid self) change_given (customer_name self)
     (cash_register self) (user self) (created_at self) (updated_at self).

(** The first half of [Sale.save]: an object without a number gets the one
    after the greatest [SALE-<today>...] number of the table
    ([filter(sale_number__startswith=...).order_by('-sale_number').first()]);
    [None] is the ValueError of [int]. *)
Definition assign_number (today : string) (objects : list t) (self : t)
  : option t :=
  if String.eqb (sale_number self) "" then
    let last_sale :=
      greatest (List.filter (String.prefix ("SALE-" ++ today))
                            (map sale_number objects)) in
    new_num ←
      match last_sale with
      | Some number =>
          last_num ← int_of_str (split_last "-" number);
          Some (last_num + 1)%Z
      | None => Some 1%Z
      end;
    Some (set_sale_number ("SALE-" ++ today ++ "-" ++ format_04d new_num) self)
  else Some self.

(** The timestamps that [Model.save()] sets: [updated_at] is [auto_now],
    set by every write, and [created_at] is [auto_now_add], set when the
    row is inserted (no row of the table has the key of the object). *)
Definition stamp (now : Timezone.datetime) (objects : list t) (self : t)
  : t :=
  let add :=
    match id self with
    | Some k => negb (existsb (Orm.has_pk id k) objects)
    | None => true
    end in
  set_updated_at (Timezone.timestamp now)
    (if add then set_created_at (Timezone.timestamp now) self else self).

(** The write of [Model.save()]; [sale_number] is declared
    [unique=True]. *)
Definition write (now : Timezone.datetime) (objects : list t) (self : t)
  : option (t * list t) :=
  Orm.Model_save_unique id set_id sale_number objects (stamp now objects self).

(** [Sale.save]. *)
Definition save (now : Timezone.datetime) (objects : list t) (self : t)
  : option (t * list t) :=
  self' ← assign_number (Timezone.strftime_Ymd now) objects self;
  write now objects self'.

(** The state of the loop of [calculate_totals]; the breakdown is the
    [defaultdict], in insertion order. *)
Record running_totals : Set :=
  { total_net : Decimal;
    total_tax : Decimal;
    total_gross : Decimal;
    by_rate : list (string * (Decimal * Decimal)) }.

(** [tax_breakdown[rate_key]['base'] += net; ...['tax'] += tax_amount] on
    a [defaultdict] whose missing entries start at [Decimal('0.00')]. *)
Fixpoint add_to_rate (rate_key : string) (net tax_amount : Decimal)
    (breakdown : list (string * (Decimal * Decimal)))
  : list (string * (Decimal * Decimal)) :=
  match breakdown with
  | [] => [(rate_key, (dadd Decimal_0_00 net, dadd Decimal_0_00 tax_amount))]
  | (k, (b, x)) :: rest =>
      if String.eqb k rate_key
      then (k, (dadd b net, dadd x tax_amount)) :: rest
      else (k, (b, x)) :: add_to_rate rate_key net tax_amount rest
  end.

Definition add_item (acc : running_totals) (item : SaleItem.t)
  : running_totals :=
  {| total_net := dadd (total_net acc) (SaleItem.net_amount item);
     total_tax := dadd (total_tax acc) (SaleItem.tax_amount item);
     total_gross := dadd (total_gross acc) (SaleItem.line_total item);
     by_rate := add_to_rate (str_Decimal (SaleItem.tax_rate item))
                            (SaleItem.net_amount item)
                            (SaleItem.tax_amount item) (by_rate acc) |}.

Definition sum_items (items : list SaleItem.t) : running_totals :=
  fold_left add_item items
    {| total_net := Decimal_0_00; total_tax := Decimal_0_00;
       total_gross := Decimal_0_00; by_rate := [] |}.

(** [self.items.all()]: the lines of the sale, by ascending id. *)
Definition items (self : t) (sale_items : list SaleItem.t)
  : list SaleItem.t :=
  List.filter
    (fun item => match id self with
                 | Some k => (SaleItem.sale item =? k)%Z
                 | None => false
                 end) sale_items.

(** The fields that [calculate_totals] sets before it saves. *)
Definition with_totals (self : t) (sale_items : list SaleItem.t) : t :=
  let acc := sum_items (items self sale_items) in
  let total := dsub (total_gross acc) (discount_amount self) in
  let change_given :=
    if dgtb (amount_paid self) total
    then dsub (amount_paid self) total else Decimal_0_00 in
  set_totals (total_net acc) (total_tax acc)
    (map (fun '(k, (b, x)) =>
            (k, {| base := float_of_Decimal b; tax := float_of_Decimal x |}))
         (by_rate acc))
    total change_given self.

(** [Sale.calculate_totals]. *)
Definition calculate_totals (now : Timezone.datetime)
    (sale_items : list SaleItem.t) (objects : list t) (self : t)
  : option (t * list t) :=
  save now objects (with_totals self sale_items).

End Sale.

Module ParkedTicket.
Local Open Scope string_scope.

Record t : Set := mk
  { id : option Z;
    ticket_number : string;
    employee_name : string;
    notes : string;
    created_at : Z;
    expires_at : option Z }.

Definition set_id (k : Z) (self : t) : t :=
  mk (Some k) (ticket_number self) (employee_name self) (notes self)
     (created_at self) (expires_at self).

Definition set_ticket_number (number : string) (self : t) : t :=
  mk (id self) number (employee_name self) (notes self)
     (created_at self) (expires_at self).

Definition set_expires_at (at_ : Z) (self : t) : t :=
  mk (id self) (ticket_number self) (employee_name self) (notes self)
     (created_at self) (Some at_).

(** The first half of [ParkedTicket.save]. *)
Definition assign_number (today : string) (objects : list t) (self : t)
  : option t :=
  if String.eqb (ticket_number self) "" then
    let last_ticket :=
      greatest (List.filter (String.prefix ("PARK-" ++ today))
                            (map ticket_number objects)) in
    new_num ←
      match last_ticket with
      | Some number =>
          last_num ← int_of_str (split_last "-" number);
          Some (last_num + 1)%Z
      | None => Some 1%Z
      end;
    Some (set_ticket_number
            ("PARK-" ++ today ++ "-" ++ format_04d new_num) self)
  else Some self.

(** [ParkedTicket.save]; [ticket_number] is declared [unique=True]. *)
Definition save (now : Timezone.datetime) (objects : list t) (self : t)
  : option (t * list t) :=
  self1 ← assign_number (Timezone.strftime_Ymd now) objects self;
  let self2 :=
    match expires_at self1 with
    | None => set_expires_at (Timezone.plus_24_hours now) self1
    | Some _ => self1
    end in
  Orm.Model_save_unique id set_id ticket_number objects self2.

End ParkedTicket.

Module CashMovement.
Local Open Scope string_scope.

Definition TYPE_IN : string := "in".
Definition TYPE_OUT : string := "out".

Record t : Set := mk
  { id : option Z;
    cash_register : Z;
    type : string;
    amount : Decimal;
    reason : string;
    employee_name : string }.

End CashMovement.

Module CashRegister.
Local Open Scope string_scope.

Definition STATUS_OPEN : string := "open".
Definition STATUS_CLOSED : string := "closed".

Record t : Set := mk
  { id : option Z;
    employee_name : string;
    status : string;
    initial_amount : Decimal;
    final_amount : option Decimal;
    expected_amount : option Decimal;
    difference : option Decimal;
    opening_notes : string;
    closing_notes : string;
    opened_at : Z;
    closed_at : option Z }.

Definition set_id (k : Z) (self : t) : t :=
  mk (Some k) (employee_name self) (status self) (initial_amount self)
     (final_amount self) (expected_amount self) (difference self)
     (opening_notes self) (closing_notes self) (opened_at self)
     (closed_at self).

(** [aggregate(total=models.Sum(column))['total']]: [None] over no row. *)
Definition Sum (column : list Decimal) : option Decimal :=
  match column with
  | [] => None
  | x :: rest => Some (fold_left dadd rest x)
  end.

(** [value or Decimal('0.00')]. *)
Definition or_zero (value : option Decimal) : Decimal :=
  match value with
  | Some x => if dtruthy x then x else Decimal_0_00
  | None => Decimal_0_00
  end.

(** [self.movements.filter(type=...)]: the amounts of the movements of this
    register that have the given type. *)
Definition movements (self : t) (cash_movements : list CashMovement.t)
    (type : string) : list Decimal :=
  map CashMovement.amount
    (List.filter
       (fun m => match id self with
                 | Some k => (CashMovement.cash_register m =? k)%Z
                            && String.eqb (CashMovement.type m) type
                 | None => false
                 end) cash_movements).

(** [self.sales.filter(payment_method=...)]: the totals of the sales of
    this register that have the given payment method. *)
Definition sales (self : t) (all_sales : list Sale.t)
    (payment_method : string) : list Decimal :=
  map Sale.total
    (List.filter
       (fun s => match id self, Sale.cash_register s with
                 | Some k, Some k' =>
                     (k' =? k)%Z
                     && String.eqb (Sale.payment_method s) payment_method
                 | _, _ => false
                 end) all_sales).

Definition set_expected_amount (value : Decimal) (self : t) : t :=
  mk (id self) (employee_name self) (status self) (initial_amount self)
     (final_amount self) (Some value) (difference self)
     (opening_notes self) (closing_notes self) (opened_at self)
     (closed_at self).

(** [CashRegister.calculate_expected_amount]: the object with its
    [expected_amount] set, and the value returned. *)
Definition calculate_expected_amount (cash_movements : list CashMovement.t)
    (all_sales : list Sale.t) (self : t) : t * Decimal :=
  let movements_in :=
    or_zero (Sum (movements self cash_movements CashMovement.TYPE_IN)) in
  let movements_out :=
    or_zero (Sum (movements self cash_movements CashMovement.TYPE_OUT)) in
  let cash_sales := or_zero (Sum (sales self all_sales Sale.PAYMENT_CASH)) in
  let expected :=
    dsub (dadd (dadd (initial_amount self) cash_sales) movements_in)
         movements_out in
  (set_expected_amount expected self, expected).

(** [CashRegister.close_register(final_amount, closing_notes)] at the time
    [now]: the object after the call and the table after its [save()]. *)
Definition close_register (now : Timezone.datetime)
    (cash_movements : list CashMovement.t) (all_sales : list Sale.t)
    (objects : list t) (self : t) (final_amount' : Decimal)
    (closing_notes' : string) : t * list t :=
  let self1 :=
    mk (id self) (employee_name self) STATUS_CLOSED (initial_amount self)
       (Some final_amount') (expected_amount self) (difference self)
       (opening_notes self) closing_notes' (opened_at self)
       (Some (Timezone.timestamp now)) in
  let self2 := fst (calculate_expected_amount cash_movements all_sales self1) in
  let self3 :=
    match expected_amount self2 with
    | Some expected =>
        mk (id self2) (employee_name self2) (status self2)
           (initial_amount self2) (final_amount self2) (expected_amount self2)
           (Some (dsub final_amount' expected))
           (opening_notes self2) (closing_notes self2) (opened_at self2)
           (closed_at self2)
    | None => self2
    end in
  Orm.Model_save id set_id objects self3.

End CashRegister.

(** ** The inventory plugin *)

Module Product.

(** Modelled from the spec: the product of the inventory plugin
    ([inventory.models.Product], outside this repository), as far as the
    sale reads and writes it; the catalog collaborator supplies the tax
    rate, the tax class label, the service flag and the current stock. *)
Record t : Set := mk
  { name : string;
    sku : string;
    stock : Z;
    is_service : bool;
    tax_rate : Decimal;
    tax_class_name : string }.


End Product.

(** ** views.py *)

Module Views.
Local Open Scope string_scope.

(** A number of the request's JSON body after [json.loads]: an [int], or a
    [float] given by the Decimal that its [repr] denotes (the shortest
    decimal string that reads back as the float; it truncates to the same
    integer as the float itself). *)
Inductive json_number : Set :=
| JInt (n : Z)
| JFloat (repr : Decimal).



(** One entry of [data['items']]. *)
Record item_data : Set :=
  { product_id : Z;
    quantity : json_number;
    price : json_number;
    discount : option json_number }.

(** The body of the request and the logged-in user. *)
Record request : Set :=
  { items : list item_data;
    payment_method : option string;
    amount_paid : option json_number;
    customer_name : option string;
    user : option Z }.

(** The tables that [complete_sale] reads and writes. *)
Record database : Type :=
  { sales : list Sale.t;
    sale_items : list SaleItem.t;
    products : gmap Z Product.t }.



(** The JSON response: the sale on success, an error message otherwise. *)
Inductive response : Set :=
| Success (sale : Sale.t)
| Failure.


End Views.

(** ** The contracts of the specification *)

Module Spec.
Local Open Scope string_scope.
Local Open Scope Z_scope.

(** A value that a [DecimalField(max_digits, decimal_places)] holds without
    rounding: no more decimal places and no more digits than declared. *)
Definition DecimalField (max_digits decimal_places : Z) (a : Decimal) : Prop :=
  - decimal_places <= exponent a /\
  Z.abs (coefficient a) * 10 ^ (exponent a + decimal_places) < 10 ^ max_digits.

(** The value as the column returns it: at exponent [-2]. *)
Definition stored (max_digits : Z) (a : Decimal) : Prop :=
  exponent a = -2 /\ Z.abs (coefficient a) < 10 ^ max_digits.

(** The value in hundredths, for a Decimal with at most two places. *)
Definition cents (a : Decimal) : Z := coefficient a * 10 ^ (exponent a + 2).


(** The integer nearest to [y]; of two integers that are equally near, the
    even one (the rounding of the platform's decimal arithmetic). *)
Definition nearest (y : Q) : Z :=
  let f := Qfloor y in
  match (y - inject_Z f ?= 1 # 2)%Q with
  | Lt => f
  | Gt => f + 1
  | Eq => if Z.even f then f else f + 1
  end.




(** The document number ["{prefix}-{dateKey}-{seq:04d}"]. *)
Definition document_number (prefix dateKey : string) (seq : Z) : string :=
  (prefix ++ "-" ++ dateKey ++ "-" ++ format_04d seq)%string.

(** [last] is the lexicographically greatest of the [existing] numbers that
    start with [stem], or [None] when there is none. *)
Definition greatest_with_prefix (stem : string) (existing : list string)
    (last : option string) : Prop :=
  match last with
  | None => forall n, In n existing -> String.prefix stem n = false
  | Some m =>
      In m existing /\ String.prefix stem m = true /\
      forall n, In n existing -> String.prefix stem n = true ->
                String.leb n m = true
  end.

(** The sequence value of the contract [nextNumber]: 1 when no number
    exists, one plus the parsed suffix of the last one otherwise. *)
Definition next_seq (last : option string) : option Z :=
  match last with
  | None => Some 1
  | Some m => option_map Z.succ (int_of_str (split_last "-" m))
  end.

(** A calendar date of the [datetime] module. *)
Definition valid_date (d : Timezone.datetime) : Prop :=
  1 <= Timezone.year d <= 9999 /\ 1 <= Timezone.month d <= 12 /\
  1 <= Timezone.day d <= 31.

Definition same_day (d d' : Timezone.datetime) : Prop :=
  Timezone.year d = Timezone.year d' /\ Timezone.month d = Timezone.month d' /\
  Timezone.day d = Timezone.day d'.

(** The numbers of a day in a table are those that the numbering issued:
    [{prefix}-{dateKey}-{seq:04d}] with [1 <= seq <= bound]. *)
Definition issued_numbers (prefix today : string) (bound : Z)
    (existing : list string) : Prop :=
  forall n, In n existing ->
    String.prefix (prefix ++ "-" ++ today)%string n = true ->
    exists seq, 1 <= seq <= bound /\ n = document_number prefix today seq.

(** The expected cash of a register as the reconciliation contract words
    it, in hundredths: the opening float, plus the [in] movements, minus
    the [out] movements, plus the totals of the sales attributed to the
    register that are cash-paid and satisfy [counted]. *)
Definition sum_cents (column : list Decimal) : Z :=
  fold_right Z.add 0 (map coefficient column).

Definition attributed_cash_sales (counted : Sale.t -> bool)
    (self : CashRegister.t) (all_sales : list Sale.t) : list Decimal :=
  map Sale.total
    (List.filter
       (fun s => match CashRegister.id self, Sale.cash_register s with
                 | Some k, Some k' =>
                     (k' =? k) && String.eqb (Sale.payment_method s) "cash"
                     && counted s
                 | _, _ => false
                 end) all_sales).

Definition expected_cents (counted : Sale.t -> bool)
    (cash_movements : list CashMovement.t) (all_sales : list Sale.t)
    (self : CashRegister.t) : Z :=
  coefficient (CashRegister.initial_amount self)
  + sum_cents (CashRegister.movements self cash_movements "in")
  - sum_cents (CashRegister.movements self cash_movements "out")
  + sum_cents (attributed_cash_sales counted self all_sales).

Definition is_completed (s : Sale.t) : bool :=
  String.eqb (Sale.status s) "completed".

(** [sum(...)] over Decimals: left to right from the int [0]. *)
Definition dsum (column : list Decimal) : Decimal :=
  fold_left dadd column (mkDecimal 0 0).

End Spec.

(** ** Invocations of the numbering: one after the other, interleaved,
       and mixed with deletions *)

Module Numbering.
Local Open Scope string_scope.

(** The object that [Sale.objects.create()] saves. *)
Definition new_sale : Sale.t :=
  Sale.new Sale.STATUS_PENDING Sale.PAYMENT_CASH Decimal_0_00 "" None.

(** [n] calls of [Sale.objects.create()], each one completed before the
    next starts: the numbers issued, in order, and the table reached. *)
Fixpoint create_sales (now : Timezone.datetime) (n : nat)
    (objects : list Sale.t) : option (list string * list Sale.t) :=
  match n with
  | O => Some ([], objects)
  | S n' =>
      '(sale, objects') ← Sale.save now objects new_sale;
      '(numbers, final) ← create_sales now n' objects';
      Some (Sale.sale_number sale :: numbers, final)
  end.

(** The sequence values [first, first + 1, ...], [n] of them. *)
Fixpoint sequence (first : Z) (n : nat) : list Z :=
  match n with
  | O => []
  | S n' => first :: sequence (first + 1)%Z n'
  end.

(** A caller of [Sale.save] between its two accesses to the table: it has
    not yet run the query ([Ready]), it holds the number computed from the
    query's answer ([Selected]), its INSERT succeeded ([Returned]) or an
    exception ended it ([Raised]). *)
Inductive caller : Set :=
| Ready (self : Sale.t)
| Selected (self : Sale.t)
| Returned (self : Sale.t)
| Raised.

Record state : Set :=
  { objects : list Sale.t;
    callers : list caller }.

(** Caller [i] performs its next access to the table; each access is
    atomic. *)
Definition step (now : Timezone.datetime) (s : state) (i : nat) : state :=
  match callers s !! i with
  | Some (Ready self) =>
      let after :=
        match Sale.assign_number (Timezone.strftime_Ymd now) (objects s) self
        with
        | Some self' => Selected self'
        | None => Raised
        end in
      {| objects := objects s; callers := <[i := after]> (callers s) |}
  | Some (Selected self) =>
      match Sale.write now (objects s) self with
      | Some (self', objects') =>
          {| objects := objects'; callers := <[i := Returned self']> (callers s) |}
      | None =>
          {| objects := objects s; callers := <[i := Raised]> (callers s) |}
      end
  | _ => s
  end.

(** The interleaving given by a schedule: the callers in the order of
    their accesses. *)
Definition run (now : Timezone.datetime) (schedule : list nat) (s : state)
  : state :=
  fold_left (step now) schedule s.

(** [n] concurrent calls of [Sale.objects.create()]. *)
Definition concurrent_creates (n : nat) (objects : list Sale.t) : state :=
  {| objects := objects; callers := repeat (Ready new_sale) n |}.

(** The number that each caller got, [None] for a caller without one. *)
Definition returned_numbers (s : state) : list (option string) :=
  map (fun c => match c with
                | Returned self => Some (Sale.sale_number self)
                | _ => None
                end) (callers s).

(** The outcome that the numbering contract asks of [n] concurrent
    invocations: every caller got a number, and the numbers are
    [0001 .. n] of the day in some order. *)
Definition distinct_gap_free (today : string) (s : state) : Prop :=
  exists numbers,
    returned_numbers s = map Some numbers /\
    Permutation numbers
      (map (Spec.document_number "SALE" today)
           (sequence 1 (length (callers s)))).





End Numbering.

(** ** The contracts that the code is compared with *)

Module Contract.
Local Open Scope string_scope.
Local Open Scope Z_scope.
Import Spec.

(** The numbers of a table all belong to other days than [now]. *)
Definition other_days (prefix : string) (now : Timezone.datetime)
    (existing : list string) : Prop :=
  forall n, In n existing ->
    exists other suffix,
      valid_date other /\ ~ same_day now other /\
      n = (prefix ++ "-" ++ Timezone.strftime_Ymd other ++ suffix)%string.

(** A line as the table returns it: amounts in hundredths within
    [max_digits=10]. *)
Definition stored_item (item : SaleItem.t) : Prop :=
  stored 10 (SaleItem.net_amount item) /\
  stored 10 (SaleItem.tax_amount item) /\
  stored 10 (SaleItem.line_total item).

(** Reconciliation as worded: only completed cash-paid sales count. *)
Definition expected_counts_completed_only
    (cash_movements : list CashMovement.t) (all_sales : list Sale.t)
    (self : CashRegister.t) : Prop :=
  deqb (snd (CashRegister.calculate_expected_amount cash_movements all_sales self))
       (mkDecimal (expected_cents is_completed cash_movements all_sales self) (-2))
  = true.


(** The breakdown as worded: the stored entries sum to the totals, compared
    as Python compares a float with a Decimal (exactly) or, more loosely,
    with the total converted to a float. *)
Definition sums_to (entries : list float) (total : Decimal) : bool :=
  float_eq_Decimal (fsum entries) total
  || feqb (fsum entries) (float_of_Decimal total).

Definition breakdown_sums (sale : Sale.t) : Prop :=
  sums_to (map (fun e => Sale.base (snd e)) (Sale.tax_breakdown sale))
          (Sale.subtotal sale) = true /\
  sums_to (map (fun e => Sale.tax (snd e)) (Sale.tax_breakdown sale))
          (Sale.tax_amount sale) = true.

Definition breakdown_reconstructs (now : Timezone.datetime)
    (sale_items : list SaleItem.t) (objects : list Sale.t) (self : Sale.t)
  : Prop :=
  forall self' objects',
    Sale.calculate_totals now sale_items objects self = Some (self', objects') ->
    breakdown_sums self'.

(** The room below the precision of the decimal context: [10 ^ 16] amounts
    of ten digits add up without rounding. *)
Definition many : Z := 10 ^ 16.

(** The aggregates by rate before their conversion to floats: all in
    hundredths. *)
Definition in_cents (a : Decimal) : Prop := exponent a = -2.

Definition bases (entries : list (string * (Decimal * Decimal)))
  : list Decimal := map (fun e => fst (snd e)) entries.

Definition taxes (entries : list (string * (Decimal * Decimal)))
  : list Decimal := map (fun e => snd (snd e)) entries.

(** The sum of the magnitudes of a column, in hundredths. *)
Definition abs_cents (column : list Decimal) : Z :=
  fold_right Z.add 0 (map (fun a => Z.abs (coefficient a)) column).





End Contract.

(** ** Vocabulary of the proofs and sample data *)

Section Vocabulary.
Import Spec Contract Numbering.
Local Open Scope string_scope.
Local Open Scope list_scope.
Local Open Scope Z_scope.

(** [c in s]. *)
Definition has_char (c : ascii) (s : string) : bool :=
  existsb (Ascii.eqb c) (list_ascii_of_string s).

(** [range(n)]. *)
Definition range (n : Z) : list Z := map Z.of_nat (seq 0 (Z.to_nat n)).

(** A number that [{:04d}] has formatted is read back by [int] and holds
    no hyphen. *)
Definition check_format (k : Z) : bool :=
  match int_of_str (format_04d k) with Some z => z =? k | None => false end
  && negb (has_char "-" (format_04d k)).

(** The formatted number sorts below the next one. *)
Definition check_next (k : Z) : bool :=
  String.ltb (format_04d k) (format_04d (k + 1)).

(** A field of [strftime] is read back by [int] and has its width. *)
Definition check_pad (width : nat) (k : Z) : bool :=
  match int_of_str (Timezone.pad width k) with Some z => z =? k | None => false end
  && (String.length (Timezone.pad width k) =? width)%nat.

(** The row that [Sale.save] inserts for an object that is given
    [number]. *)
Definition saved_sale (now : Timezone.datetime) (objects : list Sale.t)
    (number : string) (self : Sale.t) : Sale.t :=
  Sale.set_id (Orm.fresh_pk Sale.id objects)
    (Sale.set_updated_at (Timezone.timestamp now)
       (Sale.set_created_at (Timezone.timestamp now)
          (Sale.set_sale_number number self))).

(** What every interleaving keeps: a caller that has not written holds an
    object without a key, a caller that has written holds a number of the
    table, and two callers that have written hold different numbers. *)
Definition consistent (s : state) : Prop :=
  (forall i self, callers s !! i = Some (Ready self) \/
                  callers s !! i = Some (Selected self) ->
                  Sale.id self = None) /\
  (forall i self, callers s !! i = Some (Returned self) ->
                  In (Sale.sale_number self) (map Sale.sale_number (objects s))) /\
  (forall i j a b, i <> j ->
                   callers s !! i = Some (Returned a) ->
                   callers s !! j = Some (Returned b) ->
                   Sale.sale_number a <> Sale.sale_number b).


(** The state of the loop after [k] lines whose amounts sum to [a], [t]
    and [g] hundredths. *)
Definition loop_state (acc : Sale.running_totals) (a t g k : Z) : Prop :=
  Sale.total_net acc = mkDecimal a (-2) /\
  Sale.total_tax acc = mkDecimal t (-2) /\
  Sale.total_gross acc = mkDecimal g (-2) /\
  Z.abs a <= k * 10 ^ 10 /\ Z.abs t <= k * 10 ^ 10 /\ Z.abs g <= k * 10 ^ 10 /\
  Forall in_cents (bases (Sale.by_rate acc)) /\
  Forall in_cents (taxes (Sale.by_rate acc)) /\
  sum_cents (bases (Sale.by_rate acc)) = a /\
  sum_cents (taxes (Sale.by_rate acc)) = t /\
  abs_cents (bases (Sale.by_rate acc)) <= k * 10 ^ 10 /\
  abs_cents (taxes (Sale.by_rate acc)) <= k * 10 ^ 10.

(** [Sale.save] writes the amounts of the object as they are. *)
Definition same_amounts (x y : Sale.t) : Prop :=
  Sale.subtotal y = Sale.subtotal x /\
  Sale.tax_amount y = Sale.tax_amount x /\
  Sale.tax_breakdown y = Sale.tax_breakdown x /\
  Sale.total y = Sale.total x /\
  Sale.change_given y = Sale.change_given x.

(** Sample data: a line of a sale, its amounts given in hundredths. *)
Definition sample_line (price quantity discount rate : Z) : SaleItem.t :=
  SaleItem.mk None 1 7 "pen" "P1" false (mkDecimal quantity (-2))
    (mkDecimal price (-2)) (mkDecimal discount (-2)) (mkDecimal rate (-2))
    "General" Decimal_0_00 Decimal_0_00 Decimal_0_00.

(** Sample data: 2 January 2025. *)
Definition sample_now : Timezone.datetime := Timezone.Build_datetime 2025 1 2 0.

(** Sample data: a row of the table of sales, written at the time 0. *)
Definition sample_row (k : Z) (number : string) : Sale.t :=
  Sale.set_id k
    (Sale.set_updated_at 0
       (Sale.set_created_at 0 (Sale.set_sale_number number new_sale))).

(** Sample data: the seventh sale of that day. *)
Definition sample_sale_7 : Sale.t := sample_row 1 "SALE-20250102-0007".

(** Sample data: two lines taxed at different rates. *)
Definition sample_items : list SaleItem.t :=
  [SaleItem.mk (Some 1) 1 7 "pen" "P1" false (mkDecimal 100 (-2))
     (mkDecimal 10 (-2)) Decimal_0_00 (mkDecimal 2100 (-2)) "General"
     (mkDecimal 10 (-2)) (mkDecimal 2 (-2)) (mkDecimal 12 (-2));
   SaleItem.mk (Some 2) 1 8 "bun" "B1" false (mkDecimal 100 (-2))
     (mkDecimal 20 (-2)) Decimal_0_00 (mkDecimal 1000 (-2)) "Reduced"
     (mkDecimal 20 (-2)) (mkDecimal 2 (-2)) (mkDecimal 22 (-2))].

(** Sample data: a stored sale with a sale-level discount in
    hundredths. *)
Definition sample_sale (discount : Z) : Sale.t :=
  Sale.mk (Some 1) "SALE-20250102-0001" "completed" Decimal_0_00
    Decimal_0_00 [] (mkDecimal discount (-2)) Decimal_0_00 "cash"
    Decimal_0_00 Decimal_0_00 "" None None (Some 0) (Some 0).



End Vocabulary.

From Stdlib Require Import Sorted.

(** ** JSON values, querysets and the views of the cart, of the parked
       tickets and of the settings *)

Module Json.
Local Open Scope string_scope.
Local Open Scope Z_scope.

(** A value that [json.loads] returns and that a JSONField stores.  The
    members of an object are in insertion order, one per key. *)
Inductive value : Set :=
| Null
| Bool (b : bool)
| Number (n : Views.json_number)
| Str (s : string)
| Array (elements : list value)
| Object (members : list (string * value)).

(** [bool(x)], as [if not items] tests it. *)
Definition truthy (x : value) : bool :=
  match x with
  | Null => false
  | Bool b => b
  | Number (Views.JInt n) => negb (n =? 0)
  | Number (Views.JFloat r) => negb (coefficient r =? 0)
  | Str s => negb (String.eqb s "")
  | Array elements => match elements with [] => false | _ :: _ => true end
  | Object members => match members with [] => false | _ :: _ => true end
  end.

Fixpoint lookup (key : string) (members : list (string * value))
  : option value :=
  match members with
  | [] => None
  | (k, v) :: rest => if String.eqb k key then Some v else lookup key rest
  end.

(** [d.get(key, default)]; [None] is the AttributeError of a value that is
    not a dict. *)
Definition get (key : string) (default : value) (d : value) : option value :=
  match d with
  | Object members =>
      Some (match lookup key members with Some v => v | None => default end)
  | _ => None
  end.

(** The code points of a [str] held as UTF-8: the bytes that do not
    continue a character. *)
Definition code_points (s : string) : nat :=
  length (List.filter
            (fun c => negb ((128 <=? Z.of_N (N_of_ascii c))
                            && (Z.of_N (N_of_ascii c) <? 192)))
            (list_ascii_of_string s)).

(** [len(x)]; [None] is the TypeError of a value without a length. *)
Definition len (x : value) : option nat :=
  match x with
  | Str s => Some (code_points s)
  | Array elements => Some (length elements)
  | Object members => Some (length members)
  | _ => None
  end.

End Json.

Module QuerySet.

(** The outcomes of [objects.get(...)]. *)
Inductive get_result (row : Type) : Type :=
| DoesNotExist
| MultipleObjectsReturned
| Found (r : row).
Arguments DoesNotExist {row}.
Arguments MultipleObjectsReturned {row}.
Arguments Found {row} r.

(** [objects.get(...)] for the rows that match. *)
Definition get {row : Type} (matches : row -> bool) (objects : list row)
  : get_result row :=
  match List.filter matches objects with
  | [] => DoesNotExist
  | [r] => Found r
  | _ :: _ :: _ => MultipleObjectsReturned
  end.

End QuerySet.

Module Table.
Section Keyed.
Context {row : Type}.
Variable pk : row -> option Z.

(** A table as the database keeps it: every row has a primary key and no
    two rows share one. *)
Definition keyed (objects : list row) : Prop :=
  Forall (fun r => pk r <> None) objects /\ NoDup (Orm.pks pk objects).

(** The UPDATE of [Model.save()]: the rows of key [k] become [self]. *)
Definition replace (k : Z) (self : row) (objects : list row) : list row :=
  map (fun r => if Orm.has_pk pk k r then self else r) objects.

End Keyed.
End Table.

Module SalesConfig.

(** The row of the plugin's settings. *)
Record t : Set := mk
  { id : option Z;
    allow_cash : bool;
    allow_card : bool;
    allow_transfer : bool;
    require_customer : bool;
    allow_discounts : bool;
    enable_parked_tickets : bool;
    created_at : Z;
    updated_at : Z }.

Definition set_id (k : Z) (self : t) : t :=
  mk (Some k) (allow_cash self) (allow_card self) (allow_transfer self)
     (require_customer self) (allow_discounts self)
     (enable_parked_tickets self) (created_at self) (updated_at self).

(** [SalesConfig(pk=pk)] with the field defaults, created at [now]. *)
Definition new (pk : Z) (now : Timezone.datetime) : t :=
  mk (Some pk) true true false false true true
     (Timezone.timestamp now) (Timezone.timestamp now).

(** [config.save()]: [updated_at] is [auto_now]. *)
Definition save (now : Timezone.datetime) (objects : list t) (self : t)
  : t * list t :=
  Orm.Model_save id set_id objects
    (mk (id self) (allow_cash self) (allow_card self) (allow_transfer self)
        (require_customer self) (allow_discounts self)
        (enable_parked_tickets self) (created_at self)
        (Timezone.timestamp now)).

(** [SalesConfig.get_config()]: [objects.get_or_create(pk=1)]; [None] is
    the exception of a table with several rows of that key. *)
Definition get_config (now : Timezone.datetime) (objects : list t)
  : option (t * list t) :=
  match QuerySet.get (Orm.has_pk id 1) objects with
  | QuerySet.Found config => Some (config, objects)
  | QuerySet.DoesNotExist =>
      Some (Orm.Model_save id set_id objects (new 1 now))
  | QuerySet.MultipleObjectsReturned => None
  end.

End SalesConfig.

Module ActiveCart.
Local Open Scope string_scope.

Record t : Set := mk
  { id : option Z;
    employee_name : string;
    cart_data : Json.value;
    created_at : Z;
    updated_at : Z }.

Definition set_id (k : Z) (self : t) : t :=
  mk (Some k) (employee_name self) (cart_data self) (created_at self)
     (updated_at self).

Definition set_cart_data (data : Json.value) (self : t) : t :=
  mk (id self) (employee_name self) data (created_at self) (updated_at self).

(** [cart.save()]: [updated_at] is [auto_now]. *)
Definition save (now : Timezone.datetime) (objects : list t) (self : t)
  : t * list t :=
  Orm.Model_save id set_id objects
    (mk (id self) (employee_name self) (cart_data self) (created_at self)
        (Timezone.timestamp now)).

(** [objects.create(employee_name=..., cart_data=...)]. *)
Definition create (now : Timezone.datetime) (objects : list t)
    (employee_name : string) (cart_data : Json.value) : t * list t :=
  save now objects
    (mk None employee_name cart_data (Timezone.timestamp now)
        (Timezone.timestamp now)).

(** The property [item_count]: [len(self.cart_data.get('items', []))]. *)
Definition item_count (self : t) : option nat :=
  items ← Json.get "items" (Json.Array []) (cart_data self);
  Json.len items.

End ActiveCart.

Module CartViews.
Local Open Scope string_scope.

(** The members that the cart views read from the body of the request (or
    from its query string): any JSON value for the items, strings for the
    employee and the notes; a member is [None] when its key is absent. *)
Record request : Set :=
  { items : option Json.value;
    employee_name : option string;
    notes : option string }.

Definition items_of (req : request) : Json.value :=
  default (Json.Array []) (items req).

Definition employee_of (req : request) : string :=
  default "Unknown" (employee_name req).

(** [{'items': items}]. *)
Definition cart_of (items : Json.value) : Json.value :=
  Json.Object [("items", items)].

Definition of_employee (name : string) (cart : ActiveCart.t) : bool :=
  String.eqb (ActiveCart.employee_name cart) name.

(** The JSON responses of the three views by their payload: [success]
    (with the cart that is returned), or the error of a caught exception;
    the message strings are not represented. *)
Inductive response : Set :=
| Saved
| Loaded (cart_data : Json.value)
| Cleared
| Failure.

(** [save_active_cart]: [get_or_create] by employee name, then the update
    of a cart that existed. *)
Definition save_active_cart (now : Timezone.datetime) (req : request)
    (objects : list ActiveCart.t) : response * list ActiveCart.t :=
  match QuerySet.get (of_employee (employee_of req)) objects with
  | QuerySet.MultipleObjectsReturned => (Failure, objects)
  | QuerySet.DoesNotExist =>
      (Saved,
       snd (ActiveCart.create now objects (employee_of req)
              (cart_of (items_of req))))
  | QuerySet.Found cart =>
      (Saved,
       snd (ActiveCart.save now objects
              (ActiveCart.set_cart_data (cart_of (items_of req)) cart)))
  end.

(** [load_active_cart]. *)
Definition load_active_cart (req : request) (objects : list ActiveCart.t)
  : response :=
  match QuerySet.get (of_employee (employee_of req)) objects with
  | QuerySet.Found cart => Loaded (ActiveCart.cart_data cart)
  | QuerySet.DoesNotExist => Loaded (cart_of (Json.Array []))
  | QuerySet.MultipleObjectsReturned => Failure
  end.

(** [clear_active_cart]: [filter(employee_name=...).delete()]. *)
Definition clear_active_cart (req : request) (objects : list ActiveCart.t)
  : response * list ActiveCart.t :=
  (Cleared,
   List.filter (fun cart => negb (of_employee (employee_of req) cart)) objects).

End CartViews.

Module Parking.
Local Open Scope string_scope.
Local Open Scope Z_scope.

(** The property [ParkedTicket.is_expired]: [timezone.now() > expires_at];
    [None] is the TypeError of a ticket without an expiry. *)
Definition is_expired (now : Timezone.datetime) (self : ParkedTicket.t)
  : option bool :=
  expires ← ParkedTicket.expires_at self;
  Some (expires <? Timezone.timestamp now).

(** The table of the parked tickets; the column [cart_data] is held by the
    key of its row. *)
Record database : Type :=
  { tickets : list ParkedTicket.t;
    cart_data : gmap Z Json.value }.

(** The state that the database keeps: keyed rows, pairwise different
    ticket numbers (the column is unique) and a cart for rows of the table
    only. *)
Definition well_formed (db : database) : Prop :=
  Table.keyed ParkedTicket.id (tickets db) /\
  NoDup (map ParkedTicket.ticket_number (tickets db)) /\
  (forall k, is_Some (cart_data db !! k) ->
             In k (Orm.pks ParkedTicket.id (tickets db))).

(** The JSON responses of the three views by the rows they are rendered
    from: the ticket that was parked, the tickets that are listed, each
    with its [item_count], and their count, the cart that is recovered, or
    one of the errors (no items, an expired ticket, a caught exception). *)
Inductive response : Type :=
| Parked (ticket : ParkedTicket.t)
| Listed (active_tickets : list (ParkedTicket.t * nat)) (count : nat)
| Recovered (cart : Json.value)
| NoItems
| Expired (ticket_number : string)
| Failure.

(** [park_ticket]: a cart without items is refused; the ticket gets its
    number and its expiry from [ParkedTicket.save]. *)
Definition park_ticket (now : Timezone.datetime) (req : CartViews.request)
    (db : database) : response * database :=
  if negb (Json.truthy (CartViews.items_of req)) then (NoItems, db)
  else
    match
      ParkedTicket.save now (tickets db)
        (ParkedTicket.mk None "" (CartViews.employee_of req)
           (default "" (CartViews.notes req)) (Timezone.timestamp now) None)
    with
    | None => (Failure, db)
    | Some (ticket, tickets') =>
        match ParkedTicket.id ticket with
        | None => (Failure, db)
        | Some k =>
            (Parked ticket,
             {| tickets := tickets';
                cart_data :=
                  <[k := CartViews.cart_of (CartViews.items_of req)]>
                    (cart_data db) |})
        end
    end.

(** [order_by('-created_at')]; rows of one instant come in the reverse of
    their order in the table. *)
Fixpoint insert_by_created_at (ticket : ParkedTicket.t)
    (sorted : list ParkedTicket.t) : list ParkedTicket.t :=
  match sorted with
  | [] => [ticket]
  | x :: rest =>
      if ParkedTicket.created_at x <? ParkedTicket.created_at ticket
      then ticket :: x :: rest
      else x :: insert_by_created_at ticket rest
  end.

Definition order_by_created_at (objects : list ParkedTicket.t)
  : list ParkedTicket.t :=
  fold_right insert_by_created_at [] objects.

(** [ticket.cart_data]: the cart that is stored under the key of the row. *)
Definition cart_data_of (db : database) (ticket : ParkedTicket.t)
  : Json.value :=
  default Json.Null (k ← ParkedTicket.id ticket; cart_data db !! k).

(** [len(ticket.cart_data.get('items', []))]; [None] is the exception of a
    cart that is no object or of items without a length. *)
Definition item_count (db : database) (ticket : ParkedTicket.t)
  : option nat :=
  items ← Json.get "items" (Json.Array []) (cart_data_of db ticket);
  Json.len items.

(** The loop of [parked_tickets_list]: an entry, with its [item_count], for
    every ticket that has not expired. *)
Fixpoint active (now : Timezone.datetime) (db : database)
    (objects : list ParkedTicket.t) : option (list (ParkedTicket.t * nat)) :=
  match objects with
  | [] => Some []
  | ticket :: rest =>
      expired ← is_expired now ticket;
      if expired : bool then active now db rest
      else
        count ← item_count db ticket;
        active_tickets ← active now db rest;
        Some ((ticket, count) :: active_tickets)
  end.

(** The order of the list: no ticket before a newer one. *)
Definition newest_first (a b : ParkedTicket.t) : Prop :=
  ParkedTicket.created_at b <= ParkedTicket.created_at a.

(** A ticket that [is_expired] finds not expired. *)
Definition unexpired (now : Timezone.datetime) (ticket : ParkedTicket.t)
  : bool :=
  match is_expired now ticket with Some false => true | _ => false end.

(** [parked_tickets_list]. *)
Definition parked_tickets_list (now : Timezone.datetime) (db : database)
  : response :=
  match active now db (order_by_created_at (tickets db)) with
  | Some active_tickets => Listed active_tickets (length active_tickets)
  | None => Failure
  end.

(** [recover_parked_ticket]: the cart of a ticket that has not expired is
    returned and the ticket is deleted. *)
Definition recover_parked_ticket (now : Timezone.datetime) (ticket_id : Z)
    (db : database) : response * database :=
  match QuerySet.get (Orm.has_pk ParkedTicket.id ticket_id) (tickets db) with
  | QuerySet.Found ticket =>
      match is_expired now ticket with
      | None => (Failure, db)
      | Some true => (Expired (ParkedTicket.ticket_number ticket), db)
      | Some false =>
          (Recovered (default Json.Null (cart_data db !! ticket_id)),
           {| tickets := Orm.Model_delete ParkedTicket.id (tickets db) ticket;
              cart_data := delete ticket_id (cart_data db) |})
      end
  | _ => (Failure, db)
  end.

End Parking.

Module Settings.

(** The members of the body of [settings_save], booleans when they are
    present; [None] is an absent key. *)
Record request : Set :=
  { allow_cash : option bool;
    allow_card : option bool;
    allow_transfer : option bool;
    require_customer : option bool;
    allow_discounts : option bool;
    enable_parked_tickets : option bool }.

(** [settings_save]: every flag is set from the body, with the default of
    [data.get] for a key that is absent; [false] is the response of status
    400. *)
Definition settings_save (now : Timezone.datetime) (data : request)
    (objects : list SalesConfig.t) : bool * list SalesConfig.t :=
  match SalesConfig.get_config now objects with
  | None => (false, objects)
  | Some (config, objects1) =>
      (true,
       snd (SalesConfig.save now objects1
              (SalesConfig.mk (SalesConfig.id config)
                 (default true (allow_cash data))
                 (default true (allow_card data))
                 (default false (allow_transfer data))
                 (default false (require_customer data))
                 (default true (allow_discounts data))
                 (default true (enable_parked_tickets data))
                 (SalesConfig.created_at config)
                 (SalesConfig.updated_at config))))
  end.

End Settings.

(** ** Vocabulary of the further proofs *)

Section FurtherVocabulary.
Local Open Scope Z_scope.


(** The labels [str(item.tax_rate)] of the lines. *)
Definition rate_keys (items : list SaleItem.t) : list string :=
  map (fun item => str_Decimal (SaleItem.tax_rate item)) items.


(** The share of one movement and of one sale in the expected cash of the
    register of key [k], in hundredths. *)
Definition movement_share (k : Z) (m : CashMovement.t) : Z :=
  if CashMovement.cash_register m =? k then
    if String.eqb (CashMovement.type m) "in"
    then coefficient (CashMovement.amount m)
    else if String.eqb (CashMovement.type m) "out"
         then - coefficient (CashMovement.amount m)
         else 0
  else 0.

Definition sale_share (k : Z) (s : Sale.t) : Z :=
  match Sale.cash_register s with
  | Some k' =>
      if (k' =? k) && String.eqb (Sale.payment_method s) "cash"
      then coefficient (Sale.total s) else 0
  | None => 0
  end.

(** The coefficient of a Decimal at the exponent [M], for [M] at most its
    exponent, and the order of the values. *)
Definition scaled (M : Z) (a : Decimal) : Z :=
  coefficient a * 10 ^ (exponent a - M).

Definition dle (a b : Decimal) : Prop :=
  scaled (Z.min (exponent a) (exponent b)) a
  <= scaled (Z.min (exponent a) (exponent b)) b.

(** Sample data of the further proofs. *)
Definition sample_cart_ana : ActiveCart.t :=
  ActiveCart.mk (Some 1) "ana"
    (Json.Object [("items"%string, Json.Array [Json.Str "pen"])]) 10 10.

Definition sample_cart_bob : ActiveCart.t :=
  ActiveCart.mk (Some 2) "bob"
    (Json.Object [("items"%string, Json.Array [])]) 11 12.

Definition sample_cart_request (name : string) : CartViews.request :=
  {| CartViews.items := Some (Json.Array [Json.Str "bun"; Json.Str "pen"]);
     CartViews.employee_name := Some name;
     CartViews.notes := None |}.

Definition sample_ticket (k created expires : Z) (number : string)
  : ParkedTicket.t :=
  ParkedTicket.mk (Some k) number "ana" "" created (Some expires).

Definition sample_parking : Parking.database :=
  {| Parking.tickets :=
       [sample_ticket 1 100 86500 "PARK-20250102-0001";
        sample_ticket 2 200 86600 "PARK-20250102-0002"];
     Parking.cart_data :=
       <[1 := CartViews.cart_of (Json.Array [Json.Str "pen"])]>
         (<[2 := CartViews.cart_of (Json.Array [Json.Str "bun"])]> ∅) |}.

Definition sample_later (seconds : Z) : Timezone.datetime :=
  Timezone.Build_datetime 2025 1 2 seconds.

Definition sample_config : SalesConfig.t :=
  SalesConfig.mk (Some 1) true true true true false false 5 6.

Definition sample_settings : Settings.request :=
  {| Settings.allow_cash := Some false;
     Settings.allow_card := None;
     Settings.allow_transfer := None;
     Settings.require_customer := Some true;
     Settings.allow_discounts := None;
     Settings.enable_parked_tickets := None |}.

Definition sample_numbered_sale (k : Z) (number : string) : Sale.t :=
  sample_row k number.


Definition sample_register : CashRegister.t :=
  CashRegister.mk (Some 1) "John" "open" (mkDecimal 10000 (-2))
    None None None "" "" 0 None.

End FurtherVocabulary.

(* ====================================================================== *)
(** * Part II: lemmas and theorems *)
(* ====================================================================== *)

Section DecimalPrecision.
Local Open Scope Z_scope.

Lemma pow10_pos k : 0 <= k -> 0 < 10 ^ k.
Proof. intros. apply Z.pow_pos_nonneg; lia. Qed.

Lemma pow10_succ k : 0 <= k -> 10 ^ (k + 1) = 10 * 10 ^ k.
Proof. intros. rewrite Z.pow_add_r by lia. lia. Qed.

Lemma pow10_le a b : a <= b -> 10 ^ a <= 10 ^ b.
Proof.
  intros. destruct (Z_lt_le_dec a 0).
  - rewrite (Z.pow_neg_r 10 a) by lia. destruct (Z_lt_le_dec b 0).
    + rewrite Z.pow_neg_r by lia. lia.
    + pose proof (pow10_pos b). lia.
  - apply Z.pow_le_mono_r; lia.
Qed.

Lemma pow10_lt a b : 0 <= b -> a < b -> 10 ^ a < 10 ^ b.
Proof.
  intros. destruct (Z_lt_le_dec a 0).
  - rewrite (Z.pow_neg_r 10 a) by lia. apply pow10_pos; lia.
  - apply Z.pow_lt_mono_r; lia.
Qed.

Lemma ndigits_aux_spec fuel : forall n,
  0 < n < 2 ^ Z.of_nat fuel ->
  1 <= ndigits_aux fuel n /\
  10 ^ (ndigits_aux fuel n - 1) <= n < 10 ^ ndigits_aux fuel n.
Proof.
  induction fuel as [|f IH]; intros n Hn.
  - simpl in Hn. lia.
  - cbn [ndigits_aux]. destruct (Z.ltb_spec n 10) as [Hlt|Hge].
    + simpl. lia.
    + assert (Hq : 0 < n / 10 < 2 ^ Z.of_nat f).
      { split.
        - apply Z.div_str_pos; lia.
        - rewrite Nat2Z.inj_succ, Z.pow_succ_r in Hn by lia.
          apply Z.div_lt_upper_bound; lia. }
      destruct (IH _ Hq) as (H1 & H2 & H3).
      set (r := ndigits_aux f (n / 10)) in *.
      split; [lia|].
      replace (1 + r - 1) with ((r - 1) + 1) by lia.
      rewrite pow10_succ by lia. replace (1 + r) with (r + 1) by lia.
      rewrite pow10_succ by lia.
      pose proof (Z.div_mod n 10 ltac:(lia)).
      pose proof (Z.mod_pos_bound n 10 ltac:(lia)). lia.
Qed.

Lemma ndigits_zero : ndigits 0 = 1.
Proof. reflexivity. Qed.

Lemma ndigits_abs n : ndigits (Z.abs n) = ndigits n.
Proof. unfold ndigits. now rewrite Z.abs_idemp. Qed.

Lemma ndigits_spec n :
  n <> 0 ->
  1 <= ndigits n /\ 10 ^ (ndigits n - 1) <= Z.abs n < 10 ^ ndigits n.
Proof.
  intros Hn. unfold ndigits. apply ndigits_aux_spec.
  split; [lia|].
  rewrite Z2Nat.id by (pose proof (Z.log2_nonneg (Z.abs n)); lia).
  apply Z.log2_spec. lia.
Qed.

Lemma ndigits_pos n : 1 <= ndigits n.
Proof.
  destruct (Z.eq_dec n 0) as [->|H]; [rewrite ndigits_zero; lia|].
  now apply ndigits_spec.
Qed.

(** The number of digits is at most [k] exactly when the magnitude is
    below [10 ^ k]. *)
Lemma ndigits_le n k : 1 <= k -> (ndigits n <= k <-> Z.abs n < 10 ^ k).
Proof.
  intros Hk. destruct (Z.eq_dec n 0) as [->|Hn].
  - rewrite ndigits_zero. pose proof (pow10_pos k). simpl. lia.
  - destruct (ndigits_spec n Hn) as (H1 & H2 & H3). split; intros H.
    + pose proof (pow10_le (ndigits n) k H). lia.
    + destruct (Z_lt_le_dec k (ndigits n)) as [Hlt|]; [|lia].
      pose proof (pow10_le k (ndigits n - 1) ltac:(lia)). lia.
Qed.

Lemma ndigits_gt n k : 1 <= k -> (k < ndigits n <-> 10 ^ k <= Z.abs n).
Proof. intros. pose proof (ndigits_le n k). lia. Qed.

Lemma fix_small a : Z.abs (coefficient a) < 10 ^ prec -> _fix a = a.
Proof.
  intros H. unfold _fix.
  apply (ndigits_le _ prec) in H; [|unfold prec; lia].
  apply Z.leb_le in H. now rewrite H.
Qed.

Lemma pow10_inv_le a b : 0 <= a -> 10 ^ a <= 10 ^ b -> a <= b.
Proof.
  intros Ha H. destruct (Z_lt_le_dec b a) as [Hlt|]; [|lia].
  pose proof (pow10_lt b a Ha Hlt). lia.
Qed.

Lemma pow10_split a b : 0 <= a -> 0 <= b -> 10 ^ (a + b) = 10 ^ a * 10 ^ b.
Proof. intros. now rewrite Z.pow_add_r. Qed.

(** [x * 10^Y <= 10^X] gives [x <= 10^(X - Y)], whatever the signs of the
    exponents ([10 ^ k = 0] for a negative [k]). *)
Lemma pow10_div_le x X Y : 0 <= x -> 0 <= Y -> x * 10 ^ Y <= 10 ^ X -> x <= 10 ^ (X - Y).
Proof.
  intros Hx HY H. pose proof (pow10_pos Y HY) as HpY.
  destruct (Z_lt_le_dec X Y) as [Hlt|Hge].
  - rewrite (Z.pow_neg_r 10 (X - Y)) by lia.
    assert (10 ^ X < 10 ^ Y) by (apply pow10_lt; lia). nia.
  - replace X with ((X - Y) + Y) in H by lia.
    rewrite pow10_split in H by lia. nia.
Qed.

Lemma pow10_div_lt x X Y : 0 <= x -> 0 <= Y -> x * 10 ^ Y < 10 ^ X -> Y <= X -> x < 10 ^ (X - Y).
Proof.
  intros Hx HY H Hge. pose proof (pow10_pos Y HY) as HpY.
  replace X with ((X - Y) + Y) in H by lia.
  rewrite pow10_split in H by lia. nia.
Qed.

Lemma pow10_nonneg k : 0 <= 10 ^ k.
Proof. apply Z.pow_nonneg. lia. Qed.

(** ** Rounding half to even *)

Lemma rhe_bounds n d :
  0 <= n -> 0 < d ->
  n / d <= round_half_even n d <= n / d + 1 /\
  (n mod d = 0 -> round_half_even n d = n / d).
Proof.
  intros Hn Hd. unfold round_half_even.
  pose proof (Z.mod_pos_bound n d Hd).
  destruct (Z.ltb_spec (2 * (n mod d)) d); [lia|].
  destruct (Z.ltb_spec d (2 * (n mod d))); [lia|].
  destruct (Z.even (n / d)); lia.
Qed.

Lemma rhe_nonneg n d : 0 <= n -> 0 < d -> 0 <= round_half_even n d.
Proof.
  intros Hn Hd. pose proof (rhe_bounds n d Hn Hd) as [[H _] _].
  pose proof (Z.div_pos n d Hn Hd). lia.
Qed.

Lemma rhe_le n d B : 0 <= n -> 0 < d -> n <= B * d -> round_half_even n d <= B.
Proof.
  intros Hn Hd H. destruct (rhe_bounds n d Hn Hd) as [[_ Hu] Hex].
  pose proof (Z.div_mod n d ltac:(lia)) as Hdm.
  pose proof (Z.mod_pos_bound n d Hd) as Hm.
  assert (Hq : n / d <= B) by nia.
  destruct (Z.eq_dec (n / d) B) as [Heq|Hne]; [|lia].
  assert (n mod d = 0) by nia. rewrite Hex by assumption. lia.
Qed.

Lemma rhe_ge n d B : 0 <= n -> 0 < d -> B * d <= n -> B <= round_half_even n d.
Proof.
  intros Hn Hd H. destruct (rhe_bounds n d Hn Hd) as [[Hl _] _].
  pose proof (Z.div_mod n d ltac:(lia)) as Hdm.
  pose proof (Z.mod_pos_bound n d Hd) as Hm.
  assert (B <= n / d) by nia. lia.
Qed.

(** ** [_fix] *)

Lemma fix_spec a :
  (Z.abs (coefficient a) < 10 ^ prec /\ _fix a = a) \/
  (10 ^ prec <= Z.abs (coefficient a) /\
   10 ^ (prec - 1) <= Z.abs (coefficient (_fix a)) < 10 ^ prec /\
   exponent a < exponent (_fix a)).
Proof.
  destruct (Z_lt_le_dec (Z.abs (coefficient a)) (10 ^ prec)) as [Hs|Hl].
  - left. split; [assumption|]. now apply fix_small.
  - right. split; [assumption|].
    unfold _fix. set (c := coefficient a) in *. set (n := ndigits c).
    assert (Hn : prec < n) by (apply ndigits_gt; [unfold prec; lia|assumption]).
    apply Z.lt_nge in Hn as Hn'. apply Z.leb_nle in Hn'. rewrite Hn'.
    assert (Hc0 : c <> 0) by (unfold prec in Hl; intros ->; simpl in Hl; lia).
    destruct (ndigits_spec c Hc0) as (_ & Hlo & Hhi). fold n in Hlo, Hhi.
    set (k := n - prec). assert (Hk : 1 <= k) by (unfold k; lia).
    pose proof (pow10_pos k ltac:(lia)) as Hpk.
    set (c' := round_half_even (Z.abs c) (10 ^ k)).
    assert (Hup : c' <= 10 ^ prec).
    { apply rhe_le; [lia|lia|]. rewrite <- pow10_split by (unfold prec; lia).
      replace (prec + k) with n by (unfold k; lia). lia. }
    assert (Hdn : 10 ^ (prec - 1) <= c').
    { apply rhe_ge; [lia|lia|]. rewrite <- pow10_split by (unfold prec; lia).
      replace (prec - 1 + k) with (n - 1) by (unfold k; lia). lia. }
    assert (Hsg : Z.abs (Z.sgn c) = 1) by lia.
    destruct (Z.eqb_spec c' (10 ^ prec)) as [Heq|Hne]; cbn [coefficient exponent].
    + rewrite Heq. unfold prec. change (10 ^ 28 / 10) with (10 ^ 27).
      rewrite Z.abs_mul, Hsg. simpl. lia.
    + rewrite Z.abs_mul, Hsg.
      assert (0 <= c') by (unfold prec in Hdn; simpl in Hdn; lia).
      rewrite (Z.abs_eq c') by lia. lia.
Qed.

Lemma fix_bound a : Z.abs (coefficient (_fix a)) < 10 ^ prec.
Proof. destruct (fix_spec a) as [[H ->]|(_ & H & _)]; [assumption|lia]. Qed.

Lemma fix_exponent a : exponent a <= exponent (_fix a).
Proof. destruct (fix_spec a) as [[_ ->]|(_ & _ & H)]; lia. Qed.

Lemma fix_zero e : _fix (mkDecimal 0 e) = mkDecimal 0 e.
Proof. reflexivity. Qed.

(** ** Magnitudes: [mag_le a m] says [|a| <= 10 ^ m] *)


Lemma mag_le_zero e m : mag_le (mkDecimal 0 e) m.
Proof. unfold mag_le. simpl. apply pow10_nonneg. Qed.

Lemma mag_le_fix a m : mag_le a m -> mag_le (_fix a) m.
Proof.
  unfold mag_le. intros H. unfold _fix.
  set (c := coefficient a) in *. set (e := exponent a) in *. set (n := ndigits c).
  destruct (Z.leb_spec n prec) as [|Hn]; [exact H|].
  assert (Hl : 10 ^ prec <= Z.abs c) by (apply ndigits_gt; [unfold prec; lia|assumption]).
  assert (Hc0 : c <> 0) by (unfold prec in Hl; intros Hz; rewrite Hz in Hl; simpl in Hl; lia).
  destruct (ndigits_spec c Hc0) as (_ & Hlo & Hhi). fold n in Hlo, Hhi.
  set (k := n - prec). assert (Hk : 1 <= k) by (unfold k; lia).
  pose proof (pow10_pos k ltac:(lia)) as Hpk.
  assert (Hprec : prec = 28) by reflexivity.
  assert (Hme : n - 1 <= m - e).
  { apply pow10_inv_le; [lia|]. lia. }
  set (c' := round_half_even (Z.abs c) (10 ^ k)).
  assert (Hup : c' <= 10 ^ (m - e - k)).
  { apply rhe_le; [lia|lia|]. rewrite <- pow10_split by lia.
    replace (m - e - k + k) with (m - e) by lia. exact H. }
  assert (Hsg : Z.abs (Z.sgn c) = 1) by lia.
  assert (H0 : 0 <= c') by (apply rhe_nonneg; lia).
  destruct (Z.eqb_spec c' (10 ^ prec)) as [Heq|Hne]; cbn [coefficient exponent].
  - rewrite Heq in *. unfold prec in *. change (10 ^ 28 / 10) with (10 ^ 27).
    rewrite Z.abs_mul, Hsg.
    assert (28 <= m - e - k) by (apply pow10_inv_le; [lia|exact Hup]).
    pose proof (pow10_le 27 (m - (e + k + 1)) ltac:(lia)). simpl Z.abs. lia.
  - rewrite Z.abs_mul, Hsg, (Z.abs_eq c') by lia.
    replace (m - (e + k)) with (m - e - k) by lia. lia.
Qed.

Lemma mag_le_dmul a b m1 m2 :
  mag_le a m1 -> mag_le b m2 -> mag_le (dmul a b) (m1 + m2).
Proof.
  intros Ha Hb. unfold dmul. apply mag_le_fix. unfold mag_le in *.
  cbn [coefficient exponent]. rewrite Z.abs_mul.
  destruct (Z_lt_le_dec (m1 - exponent a) 0) as [H1|H1].
  { rewrite (Z.pow_neg_r 10 _ H1) in Ha.
    replace (Z.abs (coefficient a)) with 0 by lia. pose proof (pow10_nonneg (m1 + m2 - (exponent a + exponent b))). lia. }
  destruct (Z_lt_le_dec (m2 - exponent b) 0) as [H2|H2].
  { rewrite (Z.pow_neg_r 10 _ H2) in Hb.
    replace (Z.abs (coefficient b)) with 0 by lia. pose proof (pow10_nonneg (m1 + m2 - (exponent a + exponent b))). lia. }
  replace (m1 + m2 - (exponent a + exponent b)) with ((m1 - exponent a) + (m2 - exponent b)) by lia.
  rewrite pow10_split by lia.
  pose proof (pow10_nonneg (m1 - exponent a)). pose proof (pow10_nonneg (m2 - exponent b)).
  nia.
Qed.

Lemma mag_le_scaled c e e0 m :
  e0 <= e -> Z.abs c <= 10 ^ (m - e) -> Z.abs (c * 10 ^ (e - e0)) <= 10 ^ (m - e0).
Proof.
  intros He H. rewrite Z.abs_mul.
  pose proof (pow10_pos (e - e0) ltac:(lia)) as Hp.
  rewrite (Z.abs_eq (10 ^ (e - e0))) by lia.
  destruct (Z_lt_le_dec (m - e) 0) as [H1|H1].
  - rewrite (Z.pow_neg_r 10 _ H1) in H. replace (Z.abs c) with 0 by lia.
    pose proof (pow10_nonneg (m - e0)). lia.
  - replace (m - e0) with ((m - e) + (e - e0)) by lia.
    rewrite pow10_split by lia. nia.
Qed.

Lemma mag_le_dadd a b m :
  mag_le a m -> mag_le b m -> mag_le (dadd a b) (m + 1).
Proof.
  intros Ha Hb. unfold dadd. apply mag_le_fix. unfold mag_le in *.
  cbn [coefficient exponent].
  set (e := Z.min (exponent a) (exponent b)).
  pose proof (mag_le_scaled (coefficient a) (exponent a) e m ltac:(unfold e; lia) Ha) as HA.
  pose proof (mag_le_scaled (coefficient b) (exponent b) e m ltac:(unfold e; lia) Hb) as HB.
  assert (2 * 10 ^ (m - e) <= 10 ^ (m + 1 - e)).
  { destruct (Z_lt_le_dec (m - e) 0) as [H1|H1].
    - rewrite (Z.pow_neg_r 10 _ H1). pose proof (pow10_nonneg (m + 1 - e)). lia.
    - replace (m + 1 - e) with ((m - e) + 1) by lia. rewrite pow10_succ by lia.
      pose proof (pow10_nonneg (m - e)). lia. }
  lia.
Qed.

Lemma mag_le_dneg a m : mag_le a m -> mag_le (dneg a) m.
Proof. unfold mag_le, dneg. cbn [coefficient exponent]. now rewrite Z.abs_opp. Qed.

Lemma mag_le_dsub a b m :
  mag_le a m -> mag_le b m -> mag_le (dsub a b) (m + 1).
Proof. intros. apply mag_le_dadd; [assumption|now apply mag_le_dneg]. Qed.

End DecimalPrecision.

Section DecimalQuantize.
Local Open Scope Z_scope.

(** ** [quantize] *)

Lemma quantize_Some a q r :
  quantize a q = Some r ->
  exponent r = exponent q /\ Z.abs (coefficient r) < 10 ^ prec.
Proof.
  unfold quantize. destruct (Z.eqb_spec (coefficient a) 0).
  - intros [= <-]. cbn. unfold prec. split; [reflexivity|]. reflexivity.
  - destruct (prec <? _); [discriminate|].
    destruct (Z.ltb_spec prec (ndigits (coefficient (_rescale a (exponent q)))));
      [discriminate|].
    intros [= <-]. split.
    + unfold _rescale. destruct (_ <=? _); reflexivity.
    + apply ndigits_le; [unfold prec; lia|assumption].
Qed.

(** Quantizing a value that is already in hundredths changes nothing, and
    succeeds exactly when the hundredths fit the precision. *)
Lemma quantize_cents c :
  Z.abs c < 10 ^ prec ->
  quantize (mkDecimal c (-2)) Decimal_0_01 = Some (mkDecimal c (-2)).
Proof.
  intros H. unfold quantize, Decimal_0_01. cbn [coefficient exponent].
  destruct (Z.eqb_spec c 0) as [->|Hc]; [reflexivity|].
  assert (Hn : ndigits c <= prec) by (apply ndigits_le; [unfold prec; lia|assumption]).
  replace (ndigits c + -2 - -2) with (ndigits c) by lia.
  destruct (Z.ltb_spec prec (ndigits c)); [lia|].
  assert (Hres : _rescale (mkDecimal c (-2)) (-2) = mkDecimal c (-2)).
  { unfold _rescale. cbn [coefficient exponent].
    replace (-2 <=? -2) with true by reflexivity.
    f_equal. replace (-2 - -2) with 0 by lia. lia. }
  rewrite Hres. cbn [coefficient].
  destruct (Z.ltb_spec prec (ndigits c)); [lia|reflexivity].
Qed.

Lemma quantize_fix_cents c r :
  quantize (_fix (mkDecimal c (-2))) Decimal_0_01 = Some r ->
  r = mkDecimal c (-2) /\ Z.abs c < 10 ^ prec.
Proof.
  destruct (fix_spec (mkDecimal c (-2))) as [[Hs ->]|(Hl & Hb & He)].
  - cbn in Hs. rewrite quantize_cents by assumption. now intros [= <-].
  - cbn [coefficient exponent] in *. intros Hq. exfalso.
    set (f := _fix (mkDecimal c (-2))) in *.
    unfold quantize in Hq. cbn [Decimal_0_01 exponent] in Hq.
    assert (Hprec : prec = 28) by reflexivity.
    assert (Hf0 : coefficient f <> 0).
    { intros Hz. rewrite Hz in Hb. rewrite Hprec in Hb. simpl in Hb. lia. }
    apply Z.eqb_neq in Hf0. rewrite Hf0 in Hq.
    assert (prec <= ndigits (coefficient f)).
    { assert (prec - 1 < ndigits (coefficient f)); [|lia].
      apply ndigits_gt; [lia|]. lia. }
    destruct (Z.ltb_spec prec (ndigits (coefficient f) + exponent f - -2));
      [discriminate|lia].
Qed.


(** ** [ddiv] *)

Lemma strip_zeros_spec fuel : forall c exp ideal c' e',
  strip_zeros fuel c exp ideal = (c', e') ->
  c = c' * 10 ^ (e' - exp) /\ exp <= e'.
Proof.
  induction fuel as [|f IH]; intros c exp ideal c' e'; cbn [strip_zeros].
  - intros [= <- <-]. rewrite Z.sub_diag. simpl. lia.
  - destruct (Z.ltb_spec exp ideal); cbn [andb].
    + destruct (Z.eqb_spec (c mod 10) 0) as [Hm|].
      * intros H'. apply IH in H' as [Hc He]. split; [|lia].
        replace (e' - exp) with ((e' - (exp + 1)) + 1) by lia.
        rewrite pow10_succ by lia.
        pose proof (Z.div_mod c 10 ltac:(lia)). lia.
      * intros [= <- <-]. rewrite Z.sub_diag. simpl. lia.
    + intros [= <- <-]. rewrite Z.sub_diag. simpl. lia.
Qed.

Lemma strip_zeros_at_least fuel : forall j c0 exp ideal c' e',
  0 <= j <= Z.of_nat fuel -> exp + j <= ideal ->
  strip_zeros fuel (c0 * 10 ^ j) exp ideal = (c', e') ->
  exp + j <= e'.
Proof.
  induction fuel as [|f IH]; intros j c0 exp ideal c' e' Hj Hi.
  - cbn [strip_zeros]. intros [= <- <-]. simpl in Hj. lia.
  - destruct (Z.eq_dec j 0) as [->|Hj0].
    { intros H. apply strip_zeros_spec in H. lia. }
    cbn [strip_zeros].
    destruct (Z.ltb_spec exp ideal); [|lia]. cbn [andb].
    assert (Heq : c0 * 10 ^ j = c0 * 10 ^ (j - 1) * 10).
    { replace j with ((j - 1) + 1) at 1 by lia. rewrite pow10_succ by lia. lia. }
    rewrite Heq, Z.mod_mul, Z.div_mul by lia.
    replace (0 =? 0) with true by reflexivity. intros H'.
    apply IH in H'; lia.
Qed.

Lemma ndigits_lower n : n <> 0 -> 10 ^ (ndigits n - 1) <= Z.abs n.
Proof. intros H. now apply ndigits_spec. Qed.

Lemma ndigits_upper n : Z.abs n < 10 ^ ndigits n.
Proof.
  destruct (Z.eq_dec n 0) as [->|H]; [reflexivity|]. now apply ndigits_spec.
Qed.

Lemma mul_ge_self q P : 1 <= q -> 0 <= P -> P <= q * P.
Proof. intros. nia. Qed.

Lemma mul_pos_pos x y : 0 < x -> 0 < y -> 0 < x * y.
Proof. intros. nia. Qed.

Lemma div_mod_le q d r n : n = d * q + r -> 0 <= r -> q * d <= n.
Proof. intros. nia. Qed.

Lemma div_mod_lt q d r n : n = d * q + r -> 0 < r -> q * d < n.
Proof. intros. nia. Qed.

Lemma mul_cancel_pos c P q : 0 < P -> 1 <= q -> c * P = q -> 0 < c.
Proof. intros. nia. Qed.

(** The quotient [q] of [n] by [d >= 10 ^ Y], for [n <= 10 ^ X], is at most
    [10 ^ T] when [X - Y <= T], and even after the sticky increment when
    the division is not exact. *)
Lemma quotient_bound n d q r X Y T :
  n = d * q + r -> 0 <= r -> 1 <= q -> 0 <= Y -> 10 ^ Y <= d ->
  n <= 10 ^ X -> X - Y <= T ->
  (r = 0 -> q <= 10 ^ T) /\ (r <> 0 -> q + 1 <= 10 ^ T).
Proof.
  intros Hn Hr Hq HY Hd HX HT.
  pose proof (pow10_pos Y HY) as HpY.
  pose proof (pow10_le _ _ HT) as Hmono.
  assert (Hqd : q * 10 ^ Y <= q * d) by (apply Z.mul_le_mono_nonneg_l; lia).
  split; intros Hr0.
  - assert (q <= 10 ^ (X - Y)); [|lia].
    apply pow10_div_le; [lia|lia|]. nia.
  - assert (Hlt : q * 10 ^ Y < 10 ^ X) by nia.
    destruct (Z_lt_le_dec X Y) as [Hc|Hc].
    + pose proof (pow10_lt X Y HY Hc).
      pose proof (mul_ge_self q (10 ^ Y) Hq ltac:(lia)). lia.
    + pose proof (pow10_div_lt q X Y ltac:(lia) HY Hlt Hc). lia.
Qed.

(** Dividing by a divisor of magnitude at least one does not raise, and
    does not increase the magnitude bound. *)
Lemma ddiv_mag a b m :
  mag_le a m -> ge_one b ->
  exists r, ddiv a b = Some r /\ mag_le r m.
Proof.
  intros Ha [Hb0 Hb]. unfold ddiv.
  destruct (Z.eqb_spec (coefficient b) 0) as [|_]; [contradiction|].
  destruct (Z.eqb_spec (coefficient a) 0) as [Ha0|Ha0].
  { eexists. split; [reflexivity|]. rewrite fix_zero. apply mag_le_zero. }
  assert (Hprec : prec = 28) by reflexivity.
  unfold mag_le in Ha.
  assert (Hsg : Z.abs (Z.sgn (coefficient a) * Z.sgn (coefficient b)) = 1) by lia.
  assert (Hme : 0 <= m - exponent a).
  { destruct (Z_lt_le_dec (m - exponent a) 0) as [Hneg|]; [|lia].
    rewrite (Z.pow_neg_r 10 _ Hneg) in Ha. lia. }
  remember (Z.sgn (coefficient a) * Z.sgn (coefficient b)) as sign eqn:Esign.
  assert (Hop1 : 0 < Z.abs (coefficient a)) by lia.
  assert (Hop2 : 0 < Z.abs (coefficient b)) by lia.
  remember (Z.abs (coefficient a)) as op1 eqn:E1.
  remember (Z.abs (coefficient b)) as op2 eqn:E2.
  clear E1 E2 Esign Ha0 Hb0.
  pose proof (ndigits_lower op1 ltac:(lia)) as Hl1.
  pose proof (ndigits_upper op2) as Hu2.
  rewrite (Z.abs_eq op1) in Hl1 by lia. rewrite (Z.abs_eq op2) in Hu2 by lia.
  pose proof (ndigits_pos op1) as Hp1. pose proof (ndigits_pos op2) as Hp2.
  remember (ndigits op1) as la eqn:Ela. remember (ndigits op2) as lb eqn:Elb.
  clear Ela Elb.
  remember (lb - la + prec + 1) as shift eqn:Hshift.
  remember (exponent a - exponent b - shift) as exp eqn:Hexp.
  (* numerator and denominator *)
  assert (Hnd : exists S1 S2, 0 <= S1 /\ 0 <= S2 /\ S1 - S2 = shift /\
            (if 0 <=? shift then op1 * 10 ^ shift else op1) = op1 * 10 ^ S1 /\
            (if 0 <=? shift then op2 else op2 * 10 ^ (- shift)) = op2 * 10 ^ S2 /\
            op2 * 10 ^ S2 <= op1 * 10 ^ S1).
  { destruct (Z.leb_spec 0 shift).
    - exists shift, 0. simpl (10 ^ 0). repeat split; try lia.
      rewrite Z.mul_1_r.
      assert (10 ^ (la - 1) * 10 ^ shift <= op1 * 10 ^ shift)
        by (apply Z.mul_le_mono_nonneg_r; [apply pow10_nonneg|lia]).
      rewrite <- pow10_split in H0 by lia.
      pose proof (pow10_le lb (la - 1 + shift) ltac:(lia)). lia.
    - exists 0, (- shift). simpl (10 ^ 0). repeat split; try lia.
      rewrite Z.mul_1_r.
      assert (op2 * 10 ^ (- shift) <= 10 ^ lb * 10 ^ (- shift))
        by (apply Z.mul_le_mono_nonneg_r; [apply pow10_nonneg|lia]).
      rewrite <- pow10_split in H0 by lia.
      pose proof (pow10_le (lb + - shift) (la - 1) ltac:(lia)). lia. }
  destruct Hnd as (S1 & S2 & HS1 & HS2 & HS & -> & -> & Hdn).
  pose proof (pow10_pos S1 HS1) as HpS1. pose proof (pow10_pos S2 HS2) as HpS2.
  assert (Hdpos : 0 < op2 * 10 ^ S2) by now apply mul_pos_pos.
  assert (HYex : exists Y, 0 <= Y /\ - exponent b <= Y /\ 10 ^ Y <= op2).
  { destruct (Z_lt_le_dec (- exponent b) 0).
    - exists 0. simpl. lia.
    - exists (- exponent b). lia. }
  destruct HYex as (Y & HY0 & HYb & HY).
  assert (Hd_ge : 10 ^ (Y + S2) <= op2 * 10 ^ S2).
  { rewrite pow10_split by lia.
    apply Z.mul_le_mono_nonneg_r; [lia|exact HY]. }
  assert (Hn_le : op1 * 10 ^ S1 <= 10 ^ (m - exponent a + S1)).
  { rewrite pow10_split by lia.
    apply Z.mul_le_mono_nonneg_r; [lia|exact Ha]. }
  remember (op1 * 10 ^ S1) as n eqn:En. remember (op2 * 10 ^ S2) as d eqn:Ed.
  clear En Ed Hl1 Hu2 Hp1 Hp2 HY Ha Hb.
  pose proof (Z.div_mod n d ltac:(lia)) as Hdm.
  pose proof (Z.mod_pos_bound n d Hdpos) as Hr.
  assert (Hq1 : 1 <= n / d) by (apply Z.div_le_lower_bound; lia).
  remember (n / d) as q eqn:Eq. remember (n mod d) as r eqn:Er.
  clear Eq Er.
  destruct (quotient_bound n d q r (m - exponent a + S1) (Y + S2) (m - exp)
              Hdm ltac:(lia) Hq1 ltac:(lia) Hd_ge Hn_le ltac:(lia))
    as [Hq_le Hq_lt].
  destruct (Z.eqb_spec r 0) as [Hr0|Hr0].
  - destruct (strip_zeros _ q exp (exponent a - exponent b)) as [c' e'] eqn:Hs.
    apply strip_zeros_spec in Hs as [Hc He].
    eexists. split; [reflexivity|]. apply mag_le_fix. unfold mag_le.
    cbn [coefficient exponent]. rewrite Z.abs_mul, Hsg, Z.mul_1_l.
    pose proof (pow10_pos (e' - exp) ltac:(lia)).
    assert (0 < c') by (apply (mul_cancel_pos c' (10 ^ (e' - exp)) q); lia).
    rewrite Z.abs_eq by lia.
    replace (m - e') with ((m - exp) - (e' - exp)) by lia.
    apply pow10_div_le; [lia|lia|]. specialize (Hq_le Hr0). lia.
  - eexists. split; [reflexivity|]. apply mag_le_fix. unfold mag_le.
    cbn [coefficient exponent]. rewrite Z.abs_mul, Hsg, Z.mul_1_l.
    specialize (Hq_lt Hr0).
    destruct (q mod 5 =? 0); rewrite Z.abs_eq by lia; lia.
Qed.

End DecimalQuantize.

Section DecimalPercent.
Local Open Scope Z_scope.

Lemma strip_zeros_le_ideal fuel : forall c exp ideal c' e',
  exp <= ideal -> strip_zeros fuel c exp ideal = (c', e') -> e' <= ideal.
Proof.
  induction fuel as [|f IH]; intros c exp ideal c' e' Hle; cbn [strip_zeros].
  - intros [= <- <-]. lia.
  - destruct (Z.ltb_spec exp ideal); cbn [andb].
    + destruct (c mod 10 =? 0).
      * intros H'. apply IH in H'; lia.
      * intros [= <- <-]. lia.
    + intros [= <- <-]. lia.
Qed.

Lemma pow10_cancel c x A B :
  0 <= B <= A -> c * 10 ^ A = x * 10 ^ B -> c * 10 ^ (A - B) = x.
Proof.
  intros HAB H. replace A with ((A - B) + B) in H by lia.
  rewrite pow10_split in H by lia.
  pose proof (pow10_pos B ltac:(lia)).
  apply (Z.mul_cancel_r _ _ (10 ^ B)); [lia|]. lia.
Qed.

(** Division by [Decimal('100')] is exact: it moves the exponent down by
    at most two places. *)
Lemma ddiv_100 a :
  Z.abs (coefficient a) < 10 ^ prec ->
  exists c e,
    ddiv a Decimal_100 = Some (mkDecimal c e) /\
    exponent a - 2 <= e <= exponent a /\
    c * 10 ^ (e - exponent a + 2) = coefficient a.
Proof.
  intros Hsmall. unfold ddiv.
  change (coefficient Decimal_100) with 100. change (exponent Decimal_100) with 0.
  change (100 =? 0) with false. cbv iota.
  rewrite !Z.sub_0_r.
  destruct (Z.eqb_spec (coefficient a) 0) as [Ha0|Ha0].
  { exists 0, (exponent a). rewrite fix_zero. repeat split; lia. }
  assert (Hprec : prec = 28) by reflexivity.
  change (Z.sgn 100) with 1. rewrite Z.mul_1_r.
  change (Z.abs 100) with 100. change (ndigits 100) with 3.
  assert (Hca : coefficient a = Z.sgn (coefficient a) * Z.abs (coefficient a)) by lia.
  assert (Hop1 : 0 < Z.abs (coefficient a)) by lia.
  assert (Hla : ndigits (Z.abs (coefficient a)) <= prec).
  { rewrite ndigits_abs. apply ndigits_le; lia. }
  pose proof (ndigits_pos (Z.abs (coefficient a))) as Hla1.
  remember (Z.sgn (coefficient a)) as sg eqn:Esg.
  assert (Hsg : Z.abs sg = 1) by lia.
  remember (Z.abs (coefficient a)) as op1 eqn:E1.
  remember (ndigits op1) as la eqn:Ela.
  clear E1 Esg Ela Ha0.
  remember (3 - la + prec + 1) as shift eqn:Hshift.
  assert (Hs4 : 4 <= shift) by lia.
  destruct (Z.leb_spec 0 shift) as [_|]; [|lia].
  assert (Hn : op1 * 10 ^ shift = op1 * 10 ^ (shift - 2) * 100).
  { replace shift with ((shift - 2) + 2) at 1 by lia.
    rewrite pow10_split by lia. change (10 ^ 2) with 100. lia. }
  rewrite Hn, Z.mod_mul, Z.div_mul by lia.
  change (0 =? 0) with true. cbv iota.
  destruct (strip_zeros _ _ _ _) as [c' e'] eqn:Hs.
  pose proof (strip_zeros_spec _ _ _ _ _ _ Hs) as [Hc He].
  pose proof (strip_zeros_le_ideal _ _ (exponent a - shift) (exponent a) _ _ ltac:(lia) Hs) as Hle.
  assert (Hfuel : 0 <= shift - 2 <= Z.of_nat (Z.to_nat (exponent a - (exponent a - shift)))) by lia.
  pose proof (strip_zeros_at_least _ (shift - 2) op1 (exponent a - shift) (exponent a) _ _ Hfuel ltac:(lia) Hs) as Hat.
  symmetry in Hc. apply pow10_cancel in Hc; [|lia].
  replace (e' - (exponent a - shift) - (shift - 2)) with (e' - exponent a + 2) in Hc by lia.
  pose proof (pow10_pos (e' - exponent a + 2) ltac:(lia)) as Hp.
  assert (Hc'0 : 0 < c') by (apply (mul_cancel_pos c' _ op1 Hp); lia).
  assert (Hc'le : c' <= op1).
  { rewrite <- Hc. rewrite <- (Z.mul_1_r c') at 1.
    apply Z.mul_le_mono_nonneg_l; lia. }
  exists (sg * c'), e'. split; [|split; [lia|]].
  - f_equal. apply fix_small. cbn [coefficient].
    rewrite Z.abs_mul, Hsg, Z.mul_1_l, Z.abs_eq by lia. lia.
  - rewrite Hca, <- Hc. lia.
Qed.

End DecimalPercent.

Section LineAmounts.
Import Spec.
Local Open Scope Z_scope.

Lemma DecimalField_small md dp a :
  DecimalField md dp a -> Z.abs (coefficient a) < 10 ^ md.
Proof.
  intros [He Hc]. pose proof (pow10_pos (exponent a + dp) ltac:(lia)).
  assert (Z.abs (coefficient a) * 1 <= Z.abs (coefficient a) * 10 ^ (exponent a + dp))
    by (apply Z.mul_le_mono_nonneg_l; lia).
  lia.
Qed.

Lemma DecimalField_mag md dp a :
  DecimalField md dp a -> mag_le a (md - dp).
Proof.
  intros [He Hc]. unfold mag_le.
  replace (md - dp - exponent a) with (md - (exponent a + dp)) by lia.
  apply pow10_div_le; lia.
Qed.

Lemma mul_nonneg_cancel c P x : 0 < P -> c * P = x -> 0 <= x -> 0 <= c.
Proof. intros. nia. Qed.

(** A percentage of a [DecimalField(_, 2)] divided by 100: exact, with at
    most four decimal places. *)
Lemma percent_spec md a :
  0 <= md <= 28 -> DecimalField md 2 a -> 0 <= coefficient a ->
  exists c e,
    ddiv a Decimal_100 = Some (mkDecimal c e) /\
    0 <= c /\ -4 <= e /\ c * 10 ^ (e + 4) = cents a.
Proof.
  intros Hmd Ha H0.
  pose proof (DecimalField_small _ _ _ Ha) as Hs.
  destruct Ha as [He _].
  assert (Hp : Z.abs (coefficient a) < 10 ^ prec).
  { pose proof (pow10_le md prec ltac:(unfold prec; lia)). lia. }
  destruct (ddiv_100 a Hp) as (c & e & Hd & Hr & Hc).
  exists c, e. split; [exact Hd|].
  pose proof (pow10_pos (e - exponent a + 2) ltac:(lia)) as Hpp.
  split; [exact (mul_nonneg_cancel c _ _ Hpp Hc H0)|]. split; [lia|].
  unfold cents. rewrite <- Hc.
  replace (e + 4) with ((e - exponent a + 2) + (exponent a + 2)) by lia.
  rewrite pow10_split by lia. lia.
Qed.

Lemma percent_mag c e m :
  0 <= c -> -4 <= e -> c * 10 ^ (e + 4) <= 10 ^ (m + 4) ->
  mag_le (mkDecimal c e) m.
Proof.
  intros Hc He H. unfold mag_le. cbn [coefficient exponent].
  rewrite Z.abs_eq by lia.
  replace (m - e) with ((m + 4) - (e + 4)) by lia.
  apply pow10_div_le; lia.
Qed.

(** [1 - p] and [1 + p] for a non-negative [p] with at most four places. *)
Lemma one_minus c e :
  0 <= c -> -4 <= e -> mag_le (mkDecimal c e) 0 ->
  let m := Z.min 0 e in
  dsub Decimal_1 (mkDecimal c e)
  = mkDecimal (10 ^ (- m) - c * 10 ^ (e - m)) m.
Proof.
  intros Hc He Hm m. unfold dsub, dadd, dneg, Decimal_1.
  cbn [coefficient exponent]. fold m.
  pose proof (mag_le_scaled c e m 0 ltac:(unfold m; lia) Hm) as Hs.
  rewrite Z.abs_mul in Hs.
  pose proof (pow10_pos (e - m) ltac:(unfold m; lia)) as Hp.
  rewrite (Z.abs_eq c), (Z.abs_eq (10 ^ (e - m))) in Hs by lia.
  assert (Hb : 10 ^ (0 - m) <= 10 ^ 4) by (apply pow10_le; unfold m; lia).
  assert (0 <= c * 10 ^ (e - m)) by (apply Z.mul_nonneg_nonneg; lia).
  rewrite fix_small.
  - f_equal. replace (0 - m) with (- m) by lia. lia.
  - cbn [coefficient]. unfold prec.
    assert (10 ^ 4 < 10 ^ 28) by reflexivity. lia.
Qed.

Lemma one_plus c e :
  0 <= c -> -4 <= e -> mag_le (mkDecimal c e) 1 ->
  let m := Z.min 0 e in
  dadd Decimal_1 (mkDecimal c e)
  = mkDecimal (10 ^ (- m) + c * 10 ^ (e - m)) m.
Proof.
  intros Hc He Hm m. unfold dadd, Decimal_1.
  cbn [coefficient exponent]. fold m.
  pose proof (mag_le_scaled c e m 1 ltac:(unfold m; lia) Hm) as Hs.
  rewrite Z.abs_mul in Hs.
  pose proof (pow10_pos (e - m) ltac:(unfold m; lia)) as Hp.
  rewrite (Z.abs_eq c), (Z.abs_eq (10 ^ (e - m))) in Hs by lia.
  assert (Hb : 10 ^ (1 - m) <= 10 ^ 5) by (apply pow10_le; unfold m; lia).
  assert (Hb' : 10 ^ (0 - m) <= 10 ^ 4) by (apply pow10_le; unfold m; lia).
  assert (0 <= c * 10 ^ (e - m)) by (apply Z.mul_nonneg_nonneg; lia).
  pose proof (pow10_nonneg (0 - m)).
  rewrite fix_small.
  - f_equal. replace (0 - m) with (- m) by lia. lia.
  - cbn [coefficient]. unfold prec.
    assert (10 ^ 4 + 10 ^ 5 < 10 ^ 28) by reflexivity. lia.
Qed.

Lemma ge_one_one_plus c e :
  0 <= c -> -4 <= e -> mag_le (mkDecimal c e) 1 ->
  ge_one (dadd Decimal_1 (mkDecimal c e)).
Proof.
  intros Hc He Hm. rewrite one_plus by assumption.
  unfold ge_one. cbn [coefficient exponent].
  pose proof (pow10_pos (- Z.min 0 e) ltac:(lia)).
  pose proof (pow10_pos (e - Z.min 0 e) ltac:(lia)).
  assert (0 <= c * 10 ^ (e - Z.min 0 e)) by (apply Z.mul_nonneg_nonneg; lia).
  split; lia.
Qed.

(** The two ways of writing the discounted price agree. *)
Lemma discounted_price_forms u c e :
  Z.abs (coefficient u) < 10 ^ 10 ->
  0 <= c -> -4 <= e -> mag_le (mkDecimal c e) 0 ->
  dsub u (dmul u (mkDecimal c e))
  = dmul u (dsub Decimal_1 (mkDecimal c e)).
Proof.
  intros Hu Hc He Hm. rewrite one_minus by assumption.
  assert (Hc4 : c <= 10 ^ 4).
  { unfold mag_le in Hm. cbn in Hm. rewrite Z.abs_eq in Hm by lia.
    pose proof (pow10_le (0 - e) 4 ltac:(lia)). lia. }
  assert (Hprod : Z.abs (coefficient u * c) < 10 ^ prec).
  { rewrite Z.abs_mul, (Z.abs_eq c) by lia.
    assert (Z.abs (coefficient u) * c <= 10 ^ 10 * 10 ^ 4)
      by (apply Z.mul_le_mono_nonneg; lia).
    unfold prec. assert (10 ^ 10 * 10 ^ 4 < 10 ^ 28) by reflexivity. lia. }
  unfold dmul at 1. cbn [coefficient exponent].
  rewrite fix_small by exact Hprod.
  unfold dsub, dadd, dneg, dmul. cbn [coefficient exponent].
  replace (Z.min (exponent u) (exponent u + e)) with (exponent u + Z.min 0 e) by lia.
  f_equal. f_equal.
  replace (exponent u - (exponent u + Z.min 0 e)) with (- Z.min 0 e) by lia.
  replace (exponent u + e - (exponent u + Z.min 0 e)) with (e - Z.min 0 e) by lia.
  ring.
Qed.

Lemma Model_save_amounts objects x :
  let r := Orm.Model_save SaleItem.id SaleItem.set_id objects x in
  SaleItem.net_amount (fst r) = SaleItem.net_amount x /\
  SaleItem.tax_amount (fst r) = SaleItem.tax_amount x /\
  SaleItem.line_total (fst r) = SaleItem.line_total x.
Proof.
  unfold Orm.Model_save. destruct (SaleItem.id x).
  - destruct (existsb _ _); cbn; auto.
  - cbn. auto.
Qed.

End LineAmounts.

Section LineTotal.
Import Spec.
Local Open Scope Z_scope.

Lemma dadd_cents c1 c2 :
  dadd (mkDecimal c1 (-2)) (mkDecimal c2 (-2)) = _fix (mkDecimal (c1 + c2) (-2)).
Proof.
  unfold dadd. cbn [coefficient exponent].
  change (Z.min (-2) (-2)) with (-2). change (-2 - -2) with 0.
  rewrite Z.pow_0_r, !Z.mul_1_r. reflexivity.
Qed.

Lemma dsub_cents c1 c2 :
  dsub (mkDecimal c1 (-2)) (mkDecimal c2 (-2)) = _fix (mkDecimal (c1 - c2) (-2)).
Proof. unfold dsub, dneg. cbn [coefficient exponent]. now rewrite dadd_cents. Qed.

Lemma deqb_refl a : deqb a a = true.
Proof. unfold deqb, dcompare. now rewrite Z.compare_refl. Qed.

Lemma quantize_cent_shape a r :
  quantize a Decimal_0_01 = Some r ->
  exists c, r = mkDecimal c (-2) /\ Z.abs c < 10 ^ prec.
Proof.
  intros H. apply quantize_Some in H as [He Hc].
  destruct r as [c e]. cbn in *. subst e. now exists c.
Qed.

(** A total that is the quantized sum of two amounts in hundredths is
    their exact sum. *)
Lemma quantized_sum n x t :
  quantize (dadd (mkDecimal n (-2)) (mkDecimal x (-2))) Decimal_0_01 = Some t ->
  t = mkDecimal (n + x) (-2) /\
  dadd (mkDecimal n (-2)) (mkDecimal x (-2)) = t.
Proof.
  rewrite dadd_cents. intros H.
  apply quantize_fix_cents in H as [-> Hb]. split; [reflexivity|].
  now apply fix_small.
Qed.

Lemma quantized_difference t n x :
  quantize (dsub (mkDecimal t (-2)) (mkDecimal n (-2))) Decimal_0_01 = Some x ->
  x = mkDecimal (t - n) (-2).
Proof.
  rewrite dsub_cents. intros H. now apply quantize_fix_cents in H as [-> _].
Qed.

(** C2. Every line that [SaleItem.save] stores, with prices that include
    tax or not, holds three amounts in hundredths with
    [line_total = net_amount + tax_amount] exactly: as integers of
    hundredths and under the equality of [Decimal]. *)
Theorem C2_line_total_is_net_plus_tax (tax_included : bool)
    (objects objects' : list SaleItem.t) (self self' : SaleItem.t) :
  SaleItem.save tax_included objects self = Some (self', objects') ->
  exponent (SaleItem.net_amount self') = -2 /\
  exponent (SaleItem.tax_amount self') = -2 /\
  exponent (SaleItem.line_total self') = -2 /\
  coefficient (SaleItem.line_total self')
  = coefficient (SaleItem.net_amount self')
    + coefficient (SaleItem.tax_amount self') /\
  deqb (SaleItem.line_total self')
       (dadd (SaleItem.net_amount self') (SaleItem.tax_amount self')) = true.
Proof.
  unfold SaleItem.save.
  destruct (ddiv (SaleItem.discount_percent self) Decimal_100) as [percent|];
    [|discriminate].
  cbn [mbind option_bind].
  set (price := dsub _ _).
  assert (Hgoal : forall n x t,
    Z.abs t < 10 ^ prec -> t = n + x ->
    Some (Orm.Model_save SaleItem.id SaleItem.set_id objects
            (SaleItem.set_amounts (mkDecimal n (-2)) (mkDecimal x (-2))
               (mkDecimal t (-2)) self)) = Some (self', objects') ->
    exponent (SaleItem.net_amount self') = -2 /\
    exponent (SaleItem.tax_amount self') = -2 /\
    exponent (SaleItem.line_total self') = -2 /\
    coefficient (SaleItem.line_total self')
    = coefficient (SaleItem.net_amount self')
      + coefficient (SaleItem.tax_amount self') /\
    deqb (SaleItem.line_total self')
         (dadd (SaleItem.net_amount self') (SaleItem.tax_amount self')) = true).
  { intros n x t Hb -> [= Hs].
    pose proof (Model_save_amounts objects
      (SaleItem.set_amounts (mkDecimal n (-2)) (mkDecimal x (-2))
         (mkDecimal (n + x) (-2)) self)) as (H1 & H2 & H3).
    cbn zeta in H1, H2, H3. rewrite Hs in H1, H2, H3. cbn [fst] in H1, H2, H3.
    rewrite H1, H2, H3. cbn [SaleItem.set_amounts SaleItem.net_amount
      SaleItem.tax_amount SaleItem.line_total coefficient exponent].
    repeat split; try reflexivity.
    rewrite dadd_cents, fix_small by exact Hb. apply deqb_refl. }
  destruct tax_included.
  - destruct (ddiv (SaleItem.tax_rate self) Decimal_100) as [rate|];
      [|discriminate]. cbn [mbind option_bind].
    destruct (ddiv price _) as [net_unit|]; [|discriminate].
    cbn [mbind option_bind].
    destruct (quantize (dmul net_unit _) _) as [net|] eqn:Hn; [|discriminate].
    cbn [mbind option_bind].
    destruct (quantize (dmul price _) _) as [total|] eqn:Ht; [|discriminate].
    cbn [mbind option_bind].
    apply quantize_cent_shape in Hn as (n & -> & Hnb).
    apply quantize_cent_shape in Ht as (t & -> & Htb).
    destruct (quantize (dsub _ _) _) as [tax|] eqn:Hx; [|discriminate].
    cbn [mbind option_bind].
    apply quantized_difference in Hx as ->.
    apply Hgoal; [exact Htb|lia].
  - destruct (quantize (dmul price _) _) as [net|] eqn:Hn; [|discriminate].
    cbn [mbind option_bind].
    destruct (ddiv (SaleItem.tax_rate self) Decimal_100) as [rate|];
      [|discriminate]. cbn [mbind option_bind].
    destruct (quantize (dmul net rate) _) as [tax|] eqn:Hx; [|discriminate].
    cbn [mbind option_bind].
    apply quantize_cent_shape in Hn as (n & -> & Hnb).
    apply quantize_cent_shape in Hx as (x & -> & Hxb).
    destruct (quantize (dadd _ _) _) as [total|] eqn:Ht; [|discriminate].
    cbn [mbind option_bind].
    pose proof (quantize_cent_shape _ _ Ht) as (t & Et & Htb).
    apply quantized_sum in Ht as [-> _]. injection Et as <-.
    apply Hgoal; [exact Htb|reflexivity].
Qed.

End LineTotal.

Section StringOrder.
Import Spec.
Local Open Scope string_scope.

(** ** The order of strings *)

Lemma ascii_compare_refl c : Ascii.compare c c = Eq.
Proof. unfold Ascii.compare. apply N.compare_refl. Qed.

Lemma ascii_compare_lt_trans a b c :
  Ascii.compare a b = Lt -> Ascii.compare b c = Lt -> Ascii.compare a c = Lt.
Proof.
  unfold Ascii.compare. rewrite !N.compare_lt_iff. lia.
Qed.

Lemma string_compare_refl s : String.compare s s = Eq.
Proof. induction s; simpl; [reflexivity|]. now rewrite ascii_compare_refl. Qed.

Lemma string_compare_lt_trans a : forall b c,
  String.compare a b = Lt -> String.compare b c = Lt -> String.compare a c = Lt.
Proof.
  induction a as [|x a IH]; intros [|y b] [|z c]; simpl; try discriminate; auto.
  destruct (Ascii.compare x y) eqn:Hxy; try discriminate;
  destruct (Ascii.compare y z) eqn:Hyz; try discriminate; intros H1 H2.
  - apply Ascii.compare_eq_iff in Hxy, Hyz. subst.
    rewrite ascii_compare_refl. eauto.
  - apply Ascii.compare_eq_iff in Hxy. subst. now rewrite Hyz.
  - apply Ascii.compare_eq_iff in Hyz. subst. now rewrite Hxy.
  - now rewrite (ascii_compare_lt_trans _ _ _ Hxy Hyz).
Qed.

Lemma string_leb_iff a b :
  String.leb a b = true <-> a = b \/ String.compare a b = Lt.
Proof.
  unfold String.leb. destruct (String.compare a b) eqn:H.
  - apply String.compare_eq_iff in H. tauto.
  - tauto.
  - split; [discriminate|]. intros [->|]; [|discriminate].
    rewrite string_compare_refl in H. discriminate.
Qed.

Lemma string_leb_refl a : String.leb a a = true.
Proof. apply string_leb_iff. now left. Qed.

Lemma string_leb_trans a b c :
  String.leb a b = true -> String.leb b c = true -> String.leb a c = true.
Proof.
  rewrite !string_leb_iff. intros [->|H1] [->|H2]; auto.
  right. eapply string_compare_lt_trans; eassumption.
Qed.

Lemma string_ltb_leb a b : String.ltb a b = true -> String.leb a b = true.
Proof.
  unfold String.ltb, String.leb. now destruct (String.compare a b).
Qed.

Lemma string_ltb_false_leb a b : String.ltb a b = false -> String.leb b a = true.
Proof.
  unfold String.ltb, String.leb. rewrite (String.compare_antisym b a).
  now destruct (String.compare a b).
Qed.

Lemma string_lt_not_leb a b :
  String.compare a b = Lt -> String.leb b a = true -> False.
Proof.
  intros H. unfold String.leb. rewrite String.compare_antisym, H. discriminate.
Qed.

(** ** [greatest]: the first row of a descending order *)

Lemma greatest_None l : greatest l = None <-> l = [].
Proof.
  destruct l as [|x l]; simpl; [tauto|].
  split; [|discriminate]. destruct (greatest l); [destruct (String.ltb x s)|]; discriminate.
Qed.

Lemma greatest_Some l m :
  greatest l = Some m ->
  In m l /\ forall n, In n l -> String.leb n m = true.
Proof.
  revert m. induction l as [|x l IH]; intros m; simpl; [discriminate|].
  destruct (greatest l) as [y|] eqn:Hy.
  - destruct (IH y eq_refl) as [Hin Hmax].
    destruct (String.ltb x y) eqn:Hlt; intros [= <-].
    + split; [now right|]. intros n [<-|Hn]; [now apply string_ltb_leb|auto].
    + split; [now left|]. intros n [<-|Hn]; [apply string_leb_refl|].
      eapply string_leb_trans; [apply Hmax, Hn|].
      now apply string_ltb_false_leb.
  - apply greatest_None in Hy. subst l. intros [= <-].
    split; [now left|]. intros n [<-|[]]. apply string_leb_refl.
Qed.

(** The query of the numbering returns the row that the contract names. *)
Lemma greatest_with_prefix_query stem existing last :
  greatest_with_prefix stem existing last ->
  greatest (List.filter (String.prefix stem) existing) = last.
Proof.
  destruct last as [m|]; simpl.
  - intros (Hin & Hp & Hmax).
    destruct (greatest (List.filter (String.prefix stem) existing)) as [y|] eqn:Hy.
    + apply greatest_Some in Hy as [Hyin Hymax].
      apply filter_In in Hyin as [Hyin Hyp]. f_equal.
      apply String.leb_antisym.
      * now apply Hmax.
      * apply Hymax. apply filter_In. auto.
    + apply greatest_None in Hy.
      assert (In m (List.filter (String.prefix stem) existing))
        by (apply filter_In; auto).
      rewrite Hy in H. destruct H.
  - intros Hnone.
    destruct (greatest (List.filter (String.prefix stem) existing)) as [y|] eqn:Hy;
      [|reflexivity].
    apply greatest_Some in Hy as [Hyin _].
    apply filter_In in Hyin as [Hyin Hyp].
    rewrite (Hnone _ Hyin) in Hyp. discriminate.
Qed.

Lemma query_greatest_with_prefix stem existing :
  greatest_with_prefix stem existing
    (greatest (List.filter (String.prefix stem) existing)).
Proof.
  destruct (greatest _) as [y|] eqn:Hy; simpl.
  - apply greatest_Some in Hy as [Hyin Hymax].
    apply filter_In in Hyin as [Hyin Hyp]. repeat split; auto.
    intros n Hn Hp. apply Hymax, filter_In. auto.
  - apply greatest_None in Hy. intros n Hn.
    destruct (String.prefix stem n) eqn:Hp; [|reflexivity].
    assert (In n (List.filter (String.prefix stem) existing))
      by (apply filter_In; auto).
    rewrite Hy in H. destruct H.
Qed.

(** ** Prefixes, concatenation, and the last segment *)

Lemma append_cons c a b : String c a ++ b = String c (a ++ b).
Proof. reflexivity. Qed.

Lemma append_nil b : "" ++ b = b.
Proof. reflexivity. Qed.

Lemma append_assoc a : forall b c, (a ++ b) ++ c = a ++ (b ++ c).
Proof.
  induction a as [|x a IH]; intros; [reflexivity|].
  rewrite !append_cons. f_equal. apply IH.
Qed.

Lemma prefix_append p : forall s, String.prefix p (p ++ s) = true.
Proof.
  induction p as [|c p IH]; intros s; simpl.
  - now destruct s.
  - destruct (ascii_dec c c); [apply IH|contradiction].
Qed.

Lemma prefix_append_cancel p : forall a b,
  String.prefix (p ++ a) (p ++ b) = String.prefix a b.
Proof.
  induction p as [|c p IH]; intros a b; simpl; [reflexivity|].
  destruct (ascii_dec c c); [apply IH|contradiction].
Qed.

Lemma prefix_same_length a : forall a' s,
  String.length a = String.length a' ->
  String.prefix a (a' ++ s) = true -> a = a'.
Proof.
  induction a as [|c a IH]; intros [|c' a'] s; simpl; try discriminate; auto.
  intros [= Hl]. destruct (ascii_dec c c'); [|discriminate].
  intros H. subst. f_equal. eauto.
Qed.

Lemma compare_append_cancel p : forall a b,
  String.compare (p ++ a) (p ++ b) = String.compare a b.
Proof.
  induction p as [|c p IH]; intros a b; simpl; [reflexivity|].
  now rewrite ascii_compare_refl.
Qed.

Lemma has_char_append c p : forall s,
  has_char c (p ++ String c s) = true.
Proof.
  unfold has_char. induction p as [|x p IH]; intros s; simpl.
  - now rewrite Ascii.eqb_refl.
  - rewrite IH. apply orb_true_r.
Qed.

Lemma split_last_append sep p : forall s,
  has_char sep s = false -> split_last sep (p ++ String sep s) = s.
Proof.
  induction p as [|x p IH]; intros s Hs; simpl.
  - fold (has_char sep s). rewrite Hs. now rewrite Ascii.eqb_refl.
  - fold (has_char sep (p ++ String sep s)). rewrite has_char_append. auto.
Qed.

Lemma append_inj_length a : forall a' b b',
  String.length a = String.length a' -> a ++ b = a' ++ b' -> a = a' /\ b = b'.
Proof.
  induction a as [|c a IH]; intros [|c' a'] b b'; simpl; try discriminate; auto.
  intros [= Hl] [= -> H]. destruct (IH _ _ _ Hl H). now subst.
Qed.

Lemma append_length a : forall b,
  String.length (a ++ b) = (String.length a + String.length b)%nat.
Proof.
  induction a as [|x a IH]; intros; [reflexivity|].
  rewrite append_cons. simpl. f_equal. apply IH.
Qed.

End StringOrder.

Section PaddedNumbers.
Import Spec.
Local Open Scope string_scope.
Local Open Scope Z_scope.

(** ** Zero-padded numbers: facts checked over their whole range *)

Lemma forallb_range (f : Z -> bool) n :
  forallb f (range n) = true ->
  forall k, 0 <= k < n -> f k = true.
Proof.
  intros H k Hk. rewrite forallb_forall in H. apply H.
  unfold range. apply in_map_iff. exists (Z.to_nat k). split; [lia|].
  apply in_seq. lia.
Qed.

Lemma format_04d_parse k :
  0 <= k <= 10000 ->
  int_of_str (format_04d k) = Some k /\ has_char "-" (format_04d k) = false.
Proof.
  intros Hk.
  assert (H : check_format k = true).
  { apply (forallb_range check_format 10001); [vm_compute; reflexivity|lia]. }
  unfold check_format in H. apply andb_true_iff in H as [H1 H2].
  destruct (int_of_str (format_04d k)) as [z|]; [|discriminate].
  apply Z.eqb_eq in H1. subst. split; [reflexivity|].
  now apply negb_true_iff.
Qed.

Lemma format_04d_next k :
  0 <= k < 9999 ->
  String.compare (format_04d k) (format_04d (k + 1)) = Lt.
Proof.
  intros Hk.
  assert (H : check_next k = true).
  { apply (forallb_range check_next 9999); [vm_compute; reflexivity|lia]. }
  unfold check_next, String.ltb in H.
  now destruct (String.compare (format_04d k) (format_04d (k + 1))).
Qed.

(** Up to 9999 the zero-padded numbers sort like the integers. *)
Lemma format_04d_lt i j :
  0 <= i -> i < j -> j <= 9999 ->
  String.compare (format_04d i) (format_04d j) = Lt.
Proof.
  intros Hi Hij Hj.
  replace j with (i + 1 + Z.of_nat (Z.to_nat (j - i - 1))) in * by lia.
  induction (Z.to_nat (j - i - 1)) as [|n IH].
  - rewrite Z.add_0_r. apply format_04d_next. lia.
  - eapply string_compare_lt_trans; [apply IH; lia|].
    replace (i + 1 + Z.of_nat (S n)) with (i + 1 + Z.of_nat n + 1) by lia.
    apply format_04d_next. lia.
Qed.

Lemma format_04d_inj i j :
  0 <= i <= 10000 -> 0 <= j <= 10000 -> format_04d i = format_04d j -> i = j.
Proof.
  intros Hi Hj H.
  destruct (format_04d_parse i Hi) as [Pi _].
  destruct (format_04d_parse j Hj) as [Pj _].
  rewrite H in Pi. congruence.
Qed.

Lemma pad_parse width bound k :
  forallb (check_pad width) (range bound) = true ->
  0 <= k < bound ->
  int_of_str (Timezone.pad width k) = Some k /\
  String.length (Timezone.pad width k) = width.
Proof.
  intros Hall Hk.
  assert (H : check_pad width k = true) by (apply (forallb_range _ bound); [exact Hall|lia]).
  unfold check_pad in H. apply andb_true_iff in H as [H1 H2].
  destruct (int_of_str (Timezone.pad width k)) as [z|]; [|discriminate].
  apply Z.eqb_eq in H1. subst. split; [reflexivity|].
  now apply Nat.eqb_eq.
Qed.

Lemma pad4 k : 0 <= k <= 9999 ->
  int_of_str (Timezone.pad 4 k) = Some k /\ String.length (Timezone.pad 4 k) = 4%nat.
Proof.
  intros. apply (pad_parse 4 10000); [vm_compute; reflexivity|lia].
Qed.

Lemma pad2 k : 0 <= k <= 99 ->
  int_of_str (Timezone.pad 2 k) = Some k /\ String.length (Timezone.pad 2 k) = 2%nat.
Proof.
  intros. apply (pad_parse 2 100); [vm_compute; reflexivity|lia].
Qed.

(** ** The date key *)

Lemma strftime_Ymd_length d :
  valid_date d -> String.length (Timezone.strftime_Ymd d) = 8%nat.
Proof.
  intros (Hy & Hm & Hd). unfold Timezone.strftime_Ymd.
  rewrite !append_length.
  destruct (pad4 (Timezone.year d) ltac:(lia)) as [_ ->].
  destruct (pad2 (Timezone.month d) ltac:(lia)) as [_ ->].
  destruct (pad2 (Timezone.day d) ltac:(lia)) as [_ ->]. reflexivity.
Qed.

Lemma strftime_Ymd_inj d d' :
  valid_date d -> valid_date d' ->
  Timezone.strftime_Ymd d = Timezone.strftime_Ymd d' -> same_day d d'.
Proof.
  intros (Hy & Hm & Hd) (Hy' & Hm' & Hd'). unfold Timezone.strftime_Ymd.
  destruct (pad4 (Timezone.year d) ltac:(lia)) as [Py Ly].
  destruct (pad4 (Timezone.year d') ltac:(lia)) as [Py' Ly'].
  destruct (pad2 (Timezone.month d) ltac:(lia)) as [Pm Lm].
  destruct (pad2 (Timezone.month d') ltac:(lia)) as [Pm' Lm'].
  destruct (pad2 (Timezone.day d) ltac:(lia)) as [Pd Ld].
  destruct (pad2 (Timezone.day d') ltac:(lia)) as [Pd' Ld'].
  intros H. apply append_inj_length in H as [H1 H]; [|congruence].
  apply append_inj_length in H as [H2 H3]; [|congruence].
  rewrite H1 in Py. rewrite H2 in Pm. rewrite H3 in Pd.
  unfold same_day. repeat split; congruence.
Qed.

(** A number of another day does not start with today's stem. *)
Lemma other_day_not_prefix prefix now other suffix :
  valid_date now -> valid_date other -> ~ same_day now other ->
  String.prefix (prefix ++ "-" ++ Timezone.strftime_Ymd now)
                (prefix ++ "-" ++ Timezone.strftime_Ymd other ++ suffix)
  = false.
Proof.
  intros Hn Ho Hne.
  rewrite <- !append_assoc, (append_assoc (prefix ++ "-")).
  rewrite prefix_append_cancel.
  destruct (String.prefix _ _) eqn:Hp; [|reflexivity].
  apply prefix_same_length in Hp.
  - apply strftime_Ymd_inj in Hp; [contradiction|assumption|assumption].
  - now rewrite !strftime_Ymd_length.
Qed.

End PaddedNumbers.

Section NextNumber.
Import Spec Contract.
Local Open Scope string_scope.
Local Open Scope Z_scope.

(** ** Document numbers *)

Lemma document_number_stem prefix today seq :
  document_number prefix today seq
  = (prefix ++ "-" ++ today) ++ "-" ++ format_04d seq.
Proof. unfold document_number. now rewrite !append_assoc. Qed.

Lemma document_number_prefix prefix today seq :
  String.prefix (prefix ++ "-" ++ today) (document_number prefix today seq) = true.
Proof. rewrite document_number_stem. apply prefix_append. Qed.

Lemma document_number_suffix prefix today seq :
  0 <= seq <= 10000 ->
  int_of_str (split_last "-" (document_number prefix today seq)) = Some seq.
Proof.
  intros H. destruct (format_04d_parse seq H) as [Hp Hc].
  rewrite document_number_stem.
  change ("-" ++ format_04d seq) with (String "-" (format_04d seq)).
  rewrite split_last_append by exact Hc. exact Hp.
Qed.

Lemma compare_cons c a b :
  String.compare (String c a) (String c b) = String.compare a b.
Proof. cbn [String.compare]. now rewrite ascii_compare_refl. Qed.

Lemma document_number_lt prefix today i j :
  0 <= i -> i < j -> j <= 9999 ->
  String.compare (document_number prefix today i) (document_number prefix today j) = Lt.
Proof.
  intros. rewrite !document_number_stem, compare_append_cancel.
  change ("-" ++ format_04d i) with (String "-" (format_04d i)).
  change ("-" ++ format_04d j) with (String "-" (format_04d j)).
  rewrite compare_cons. now apply format_04d_lt.
Qed.

(** The step of the numbering on a table whose numbers of the day were
    issued by it: the next sequence value is above every value of the
    table, and follows the greatest one. *)
Lemma numbering_step prefix today bound existing :
  0 <= bound <= 9998 ->
  issued_numbers prefix today bound existing ->
  exists seq,
    1 <= seq <= bound + 1 /\
    next_seq (greatest (List.filter (String.prefix (prefix ++ "-" ++ today)) existing))
    = Some seq /\
    ~ In (document_number prefix today seq) existing /\
    (forall k, 1 <= k <= 9999 ->
               In (document_number prefix today k) existing -> k < seq) /\
    (seq = 1 \/ In (document_number prefix today (seq - 1)) existing).
Proof.
  intros Hb Hiss.
  pose proof (query_greatest_with_prefix (prefix ++ "-" ++ today) existing) as Hq.
  destruct (greatest _) as [m|]; simpl in Hq.
  - destruct Hq as (Hin & Hp & Hmax).
    destruct (Hiss m Hin Hp) as (j & Hj & ->).
    exists (j + 1). cbn [next_seq].
    rewrite document_number_suffix by lia. cbn [option_map].
    split; [lia|]. split; [f_equal; lia|].
    assert (Hup : forall k, j < k <= 9999 ->
                   ~ In (document_number prefix today k) existing).
    { intros k Hk Hink.
      apply (string_lt_not_leb (document_number prefix today j)
                               (document_number prefix today k)).
      - apply document_number_lt; lia.
      - apply Hmax; [exact Hink|apply document_number_prefix]. }
    split; [apply Hup; lia|]. split.
    + intros k Hk Hink. destruct (Z_lt_le_dec j k) as [Hlt|]; [|lia].
      exfalso. apply (Hup k); [lia|exact Hink].
    + right. replace (j + 1 - 1) with j by lia. exact Hin.
  - exists 1. cbn [next_seq]. split; [lia|]. split; [reflexivity|].
    assert (Hno : forall k, ~ In (document_number prefix today k) existing).
    { intros k Hink. apply Hq in Hink.
      rewrite document_number_prefix in Hink. discriminate. }
    split; [apply Hno|]. split; [|now left].
    intros k _ Hink. exfalso. exact (Hno k Hink).
Qed.

(** ** The first half of [save] *)

Lemma Sale_assign_number today objects self last seq :
  Sale.sale_number self = "" ->
  greatest_with_prefix ("SALE-" ++ today) (map Sale.sale_number objects) last ->
  next_seq last = Some seq ->
  Sale.assign_number today objects self
  = Some (Sale.set_sale_number (document_number "SALE" today seq) self).
Proof.
  intros Hn Hg Hs. unfold Sale.assign_number. rewrite Hn.
  change ("" =? "")%string with true. cbv iota.
  rewrite (greatest_with_prefix_query _ _ _ Hg).
  destruct last as [m|]; cbn [next_seq] in Hs.
  - destruct (int_of_str (split_last "-" m)) as [n|]; [|discriminate].
    injection Hs as <-. reflexivity.
  - injection Hs as <-. reflexivity.
Qed.

Lemma ParkedTicket_assign_number today objects self last seq :
  ParkedTicket.ticket_number self = "" ->
  greatest_with_prefix ("PARK-" ++ today)
    (map ParkedTicket.ticket_number objects) last ->
  next_seq last = Some seq ->
  ParkedTicket.assign_number today objects self
  = Some (ParkedTicket.set_ticket_number (document_number "PARK" today seq) self).
Proof.
  intros Hn Hg Hs. unfold ParkedTicket.assign_number. rewrite Hn.
  change ("" =? "")%string with true. cbv iota.
  rewrite (greatest_with_prefix_query _ _ _ Hg).
  destruct last as [m|]; cbn [next_seq] in Hs.
  - destruct (int_of_str (split_last "-" m)) as [n|]; [|discriminate].
    injection Hs as <-. reflexivity.
  - injection Hs as <-. reflexivity.
Qed.

Lemma other_days_none prefix now existing :
  valid_date now -> other_days prefix now existing ->
  greatest_with_prefix (prefix ++ "-" ++ Timezone.strftime_Ymd now) existing None.
Proof.
  intros Hv Ho n Hn. destruct (Ho n Hn) as (other & suffix & Hvo & Hne & ->).
  now apply other_day_not_prefix.
Qed.

(** C3. The next document number is ["{prefix}-{dateKey}-{seq:04d}"] for the
    prefixes SALE and PARK, where the date key is today's date as YYYYMMDD
    and [seq] is 1 when no number with the prefix ["{prefix}-{dateKey}"]
    exists, and one plus the parsed last segment of the lexicographically
    greatest such number otherwise; the numbers of other days do not count,
    so that every day starts at 0001. *)
Theorem C3_next_document_number (now : Timezone.datetime)
    (sales : list Sale.t) (tickets : list ParkedTicket.t)
    (sale : Sale.t) (ticket : ParkedTicket.t)
    (last_sale last_ticket : option string) (seq_sale seq_ticket : Z) :
  let today := Timezone.strftime_Ymd now in
  Sale.sale_number sale = "" ->
  ParkedTicket.ticket_number ticket = "" ->
  greatest_with_prefix ("SALE-" ++ today) (map Sale.sale_number sales) last_sale ->
  next_seq last_sale = Some seq_sale ->
  greatest_with_prefix ("PARK-" ++ today)
    (map ParkedTicket.ticket_number tickets) last_ticket ->
  next_seq last_ticket = Some seq_ticket ->
  (Sale.assign_number today sales sale
   = Some (Sale.set_sale_number (document_number "SALE" today seq_sale) sale) /\
   ParkedTicket.assign_number today tickets ticket
   = Some (ParkedTicket.set_ticket_number
             (document_number "PARK" today seq_ticket) ticket)) /\
  (valid_date now ->
   (other_days "SALE" now (map Sale.sale_number sales) ->
    Sale.assign_number today sales sale
    = Some (Sale.set_sale_number ("SALE-" ++ today ++ "-0001") sale)) /\
   (other_days "PARK" now (map ParkedTicket.ticket_number tickets) ->
    ParkedTicket.assign_number today tickets ticket
    = Some (ParkedTicket.set_ticket_number ("PARK-" ++ today ++ "-0001") ticket))).
Proof.
  intros today Hs Ht Hgs Hns Hgt Hnt. split; [split|].
  - now apply (Sale_assign_number today sales sale last_sale).
  - now apply (ParkedTicket_assign_number today tickets ticket last_ticket).
  - intros Hv. split; intros Ho.
    + apply (Sale_assign_number today sales sale None 1); [exact Hs| |reflexivity].
      exact (other_days_none "SALE" now _ Hv Ho).
    + apply (ParkedTicket_assign_number today tickets ticket None 1);
        [exact Ht| |reflexivity].
      exact (other_days_none "PARK" now _ Hv Ho).
Qed.

End NextNumber.

Section SavedNumbers.
Import Spec Numbering.
Local Open Scope string_scope.
Local Open Scope list_scope.
Local Open Scope Z_scope.

(** ** The writes of the mapper *)

Section TableFacts.
Context {row : Type}.
Variable pk : row -> option Z.
Variable set_pk : Z -> row -> row.
Variable column : row -> string.
Hypothesis pk_set_pk : forall k r, pk (set_pk k r) = Some k.
Hypothesis column_set_pk : forall k r, column (set_pk k r) = column r.

Lemma fresh_pk_above objects r k :
  In r objects -> pk r = Some k -> k < Orm.fresh_pk pk objects.
Proof.
  unfold Orm.fresh_pk, Orm.pks.
  induction objects as [|x objects IH]; intros Hin Hk; [destruct Hin|].
  destruct Hin as [->|Hin].
  - cbn [omap list_omap]. rewrite Hk. cbn [fold_right]. lia.
  - specialize (IH Hin Hk). cbn [omap list_omap].
    destruct (pk x); cbn [fold_right]; lia.
Qed.

Lemma has_pk_fresh objects r :
  In r objects -> Orm.has_pk pk (Orm.fresh_pk pk objects) r = false.
Proof.
  intros Hin. unfold Orm.has_pk. destruct (pk r) as [k|] eqn:Hk; [|reflexivity].
  pose proof (fresh_pk_above objects r k Hin Hk). apply Z.eqb_neq. lia.
Qed.

(** The INSERT of an object without a key succeeds exactly when its value
    of the unique column is not in the table. *)
Lemma unique_insert objects self :
  pk self = None ->
  ~ In (column self) (map column objects) ->
  Orm.Model_save_unique pk set_pk column objects self
  = Some (set_pk (Orm.fresh_pk pk objects) self,
          objects ++ [set_pk (Orm.fresh_pk pk objects) self]).
Proof.
  intros Hpk Hnew. unfold Orm.Model_save_unique, Orm.Model_save. rewrite Hpk.
  destruct (existsb _ objects) eqn:He; [|reflexivity].
  apply existsb_exists in He as (r & Hin & Hr). cbn [andb] in Hr.
  apply String.eqb_eq in Hr. exfalso. apply Hnew.
  rewrite <- Hr. now apply in_map.
Qed.

Lemma unique_insert_inv objects self self' objects' :
  pk self = None ->
  Orm.Model_save_unique pk set_pk column objects self = Some (self', objects') ->
  ~ In (column self) (map column objects) /\
  self' = set_pk (Orm.fresh_pk pk objects) self /\
  objects' = objects ++ [self'].
Proof.
  intros Hpk. unfold Orm.Model_save_unique, Orm.Model_save. rewrite Hpk.
  destruct (existsb _ objects) eqn:He; [discriminate|].
  intros [= <- <-]. split; [|auto].
  intros Hin. apply in_map_iff in Hin as (r & Hc & Hin).
  assert (existsb (fun r => true && String.eqb (column r) (column self)) objects = true).
  { apply existsb_exists. exists r. split; [exact Hin|].
    cbn [andb]. now apply String.eqb_eq. }
  congruence.
Qed.

(** Deleting the row that was just inserted gives the table back. *)
Lemma delete_inserted objects self :
  Orm.Model_delete pk (objects ++ [set_pk (Orm.fresh_pk pk objects) self])
                   (set_pk (Orm.fresh_pk pk objects) self)
  = objects.
Proof.
  unfold Orm.Model_delete. rewrite pk_set_pk.
  rewrite List.filter_app. cbn [List.filter].
  unfold Orm.has_pk at 2. rewrite pk_set_pk, Z.eqb_refl. cbn [negb].
  rewrite app_nil_r.
  assert (H : forall l, (forall r, In r l -> In r objects) ->
            List.filter (fun r => negb (Orm.has_pk pk (Orm.fresh_pk pk objects) r)) l = l).
  { induction l as [|x l IH]; intros Hl; [reflexivity|]. cbn [List.filter].
    rewrite has_pk_fresh by (apply Hl; now left). cbn [negb].
    f_equal. apply IH. intros r Hr. apply Hl. now right. }
  apply H. auto.
Qed.
End TableFacts.


Lemma Sale_number_set_pk k r :
  Sale.sale_number (Sale.set_id k r) = Sale.sale_number r.
Proof. reflexivity. Qed.

(** The timestamps leave the key, the number and the other fields as they
    are. *)
Lemma stamp_id now objects self :
  Sale.id (Sale.stamp now objects self) = Sale.id self.
Proof.
  unfold Sale.stamp.
  match goal with |- context [if ?b then _ else _] => now destruct b end.
Qed.

Lemma stamp_sale_number now objects self :
  Sale.sale_number (Sale.stamp now objects self) = Sale.sale_number self.
Proof.
  unfold Sale.stamp.
  match goal with |- context [if ?b then _ else _] => now destruct b end.
Qed.

Lemma stamp_insert now objects self :
  Sale.id self = None ->
  Sale.stamp now objects self
  = Sale.set_updated_at (Timezone.timestamp now)
      (Sale.set_created_at (Timezone.timestamp now) self).
Proof. intros H. unfold Sale.stamp. now rewrite H. Qed.


(** ** [Sale.save] on a table of issued numbers *)

Lemma Sale_save_issued now objects self bound :
  0 <= bound <= 9998 ->
  issued_numbers "SALE" (Timezone.strftime_Ymd now) bound
                 (map Sale.sale_number objects) ->
  Sale.id self = None -> Sale.sale_number self = "" ->
  exists seq,
    1 <= seq <= bound + 1 /\
    (let number := document_number "SALE" (Timezone.strftime_Ymd now) seq in
     Sale.save now objects self
     = Some (saved_sale now objects number self,
             objects ++ [saved_sale now objects number self]) /\
     ~ In number (map Sale.sale_number objects)) /\
    (forall k, 1 <= k <= 9999 ->
       In (document_number "SALE" (Timezone.strftime_Ymd now) k)
          (map Sale.sale_number objects) -> k < seq) /\
    (seq = 1 \/
     In (document_number "SALE" (Timezone.strftime_Ymd now) (seq - 1))
        (map Sale.sale_number objects)).
Proof.
  intros Hb Hiss Hid Hnum.
  destruct (numbering_step "SALE" _ bound _ Hb Hiss)
    as (seq & Hseq & Hnext & Hnew & Habove & Hprev).
  exists seq. split; [exact Hseq|]. split; [|split; assumption].
  cbn zeta. split; [|exact Hnew].
  unfold Sale.save.
  rewrite (Sale_assign_number _ objects self _ seq Hnum
             (query_greatest_with_prefix _ _) Hnext).
  cbn [mbind option_bind]. unfold saved_sale, Sale.write.
  rewrite stamp_insert by (destruct self; exact Hid).
  apply (unique_insert Sale.id Sale.set_id Sale.sale_number).
  - destruct self; exact Hid.
  - destruct self; exact Hnew.
Qed.

End SavedNumbers.

Section Interleaving.
Import Spec Numbering.
Local Open Scope string_scope.
Local Open Scope list_scope.
Local Open Scope Z_scope.

(** ** Sequential issuance *)

Lemma issued_numbers_snoc prefix today k existing :
  0 <= k ->
  issued_numbers prefix today k existing ->
  issued_numbers prefix today (k + 1)
    (existing ++ [document_number prefix today (k + 1)]).
Proof.
  intros Hk Hiss n Hin Hp. apply in_app_or in Hin as [Hin|[<-|[]]].
  - destruct (Hiss n Hin Hp) as (s & Hs & ->). exists s. split; [lia|reflexivity].
  - exists (k + 1). split; [lia|reflexivity].
Qed.

Lemma create_sales_sequence now n : forall objects k,
  0 <= k -> k + Z.of_nat n <= 9999 ->
  issued_numbers "SALE" (Timezone.strftime_Ymd now) k (map Sale.sale_number objects) ->
  k = 0 \/ In (document_number "SALE" (Timezone.strftime_Ymd now) k)
              (map Sale.sale_number objects) ->
  exists final,
    create_sales now n objects
    = Some (map (document_number "SALE" (Timezone.strftime_Ymd now))
                (sequence (k + 1) n), final).
Proof.
  induction n as [|n IH]; intros objects k Hk Hn Hiss Hlast.
  - exists objects. reflexivity.
  - assert (Hk' : 0 <= k <= 9998) by lia.
    destruct (Sale_save_issued now objects new_sale k Hk' Hiss eq_refl eq_refl)
      as (seq & Hseq & [Hsave Hnew] & Habove & _).
    assert (Es : seq = k + 1).
    { destruct (Z.eq_dec k 0) as [->|Hk0]; [lia|].
      destruct Hlast as [->|Hin]; [lia|].
      assert (Hr : 1 <= k <= 9999) by lia.
      pose proof (Habove k Hr Hin). lia. }
    subst seq. cbn [create_sales]. rewrite Hsave. cbn [mbind option_bind].
    set (objects' := objects ++ _).
    assert (Hnums : map Sale.sale_number objects'
                    = map Sale.sale_number objects
                      ++ [document_number "SALE" (Timezone.strftime_Ymd now) (k + 1)]).
    { unfold objects'. now rewrite map_app. }
    destruct (IH objects' (k + 1) ltac:(lia) ltac:(lia)) as (final & Hfinal).
    + rewrite Hnums. now apply issued_numbers_snoc.
    + right. rewrite Hnums. apply in_or_app. right. now left.
    + exists final. rewrite Hfinal. reflexivity.
Qed.

(** ** Interleaved issuance *)

Lemma assign_number_id today objects self self' :
  Sale.assign_number today objects self = Some self' ->
  Sale.id self' = Sale.id self.
Proof.
  unfold Sale.assign_number. destruct (String.eqb _ _).
  - destruct (greatest _) as [m|].
    + destruct (int_of_str _); cbn [mbind option_bind]; [|discriminate].
      now intros [= <-].
    + cbn [mbind option_bind]. now intros [= <-].
  - now intros [= <-].
Qed.

Lemma step_consistent now s i : consistent s -> consistent (step now s i).
Proof.
  intros (Hkey & Htab & Hdis). unfold step.
  destruct (callers s !! i) as [[self|self|self|]|] eqn:Hi;
    try (now repeat split).
  - (* the query *)
    repeat split; cbn [callers objects].
    + intros j x Hj. destruct (decide (i = j)) as [<-|Hne].
      * assert (Hlt : (i < length (callers s))%nat) by (eapply lookup_lt_Some; eauto).
        rewrite list_lookup_insert_eq in Hj by exact Hlt.
        destruct (Sale.assign_number _ _ self) as [self'|] eqn:Ha.
        -- assert (x = self') by (destruct Hj as [Hj|Hj]; congruence). subst x.
           rewrite (assign_number_id _ _ _ _ Ha). apply (Hkey i). now left.
        -- destruct Hj; discriminate.
      * rewrite list_lookup_insert_ne in Hj by exact Hne. eauto.
    + intros j x Hj. destruct (decide (i = j)) as [<-|Hne].
      * assert (Hlt : (i < length (callers s))%nat) by (eapply lookup_lt_Some; eauto).
        rewrite list_lookup_insert_eq in Hj by exact Hlt.
        destruct (Sale.assign_number _ _ self); discriminate.
      * rewrite list_lookup_insert_ne in Hj by exact Hne. eauto.
    + intros j k a b Hjk Hj Hk.
      assert (Hlt : (i < length (callers s))%nat) by (eapply lookup_lt_Some; eauto).
      destruct (decide (i = j)) as [<-|Hne1].
      { rewrite list_lookup_insert_eq in Hj by exact Hlt.
        destruct (Sale.assign_number _ _ self); discriminate. }
      destruct (decide (i = k)) as [<-|Hne2].
      { rewrite list_lookup_insert_eq in Hk by exact Hlt.
        destruct (Sale.assign_number _ _ self); discriminate. }
      rewrite list_lookup_insert_ne in Hj, Hk by assumption. eauto.
  - (* the write *)
    assert (Hlt : (i < length (callers s))%nat) by (eapply lookup_lt_Some; eauto).
    assert (Hid : Sale.id self = None) by (apply (Hkey i); now right).
    destruct (Sale.write now (objects s) self) as [[self' objects']|] eqn:Hs.
    + unfold Sale.write in Hs. rewrite stamp_insert in Hs by exact Hid.
      apply (unique_insert_inv Sale.id Sale.set_id Sale.sale_number) in Hs
        as (Hnew & -> & ->); [|exact Hid].
      change (Sale.sale_number (Sale.set_updated_at _ _))
        with (Sale.sale_number self) in Hnew.
      set (self' := Sale.set_id _ _).
      assert (Hnum : Sale.sale_number self' = Sale.sale_number self) by reflexivity.
      repeat split; cbn [callers objects].
      * intros j x Hj. destruct (decide (i = j)) as [<-|Hne].
        -- rewrite list_lookup_insert_eq in Hj by exact Hlt. destruct Hj; discriminate.
        -- rewrite list_lookup_insert_ne in Hj by exact Hne. eauto.
      * intros j x Hj. rewrite map_app. apply in_or_app.
        destruct (decide (i = j)) as [<-|Hne].
        -- rewrite list_lookup_insert_eq in Hj by exact Hlt.
           injection Hj as <-. right. now left.
        -- rewrite list_lookup_insert_ne in Hj by exact Hne. left. eauto.
      * intros j k a b Hjk Hj Hk.
        destruct (decide (i = j)) as [<-|Hne1]; destruct (decide (i = k)) as [<-|Hne2];
          try contradiction.
        -- rewrite list_lookup_insert_eq in Hj by exact Hlt.
           rewrite list_lookup_insert_ne in Hk by exact Hne2.
           injection Hj as <-. rewrite Hnum. intros E. apply Hnew.
           rewrite E. eauto.
        -- rewrite list_lookup_insert_eq in Hk by exact Hlt.
           rewrite list_lookup_insert_ne in Hj by exact Hne1.
           injection Hk as <-. rewrite Hnum. intros E. apply Hnew.
           rewrite <- E. eauto.
        -- rewrite list_lookup_insert_ne in Hj, Hk by assumption. eauto.
    + repeat split; cbn [callers objects].
      * intros j x Hj. destruct (decide (i = j)) as [<-|Hne].
        -- rewrite list_lookup_insert_eq in Hj by exact Hlt. destruct Hj; discriminate.
        -- rewrite list_lookup_insert_ne in Hj by exact Hne. eauto.
      * intros j x Hj. destruct (decide (i = j)) as [<-|Hne].
        -- rewrite list_lookup_insert_eq in Hj by exact Hlt. discriminate.
        -- rewrite list_lookup_insert_ne in Hj by exact Hne. eauto.
      * intros j k a b Hjk Hj Hk.
        destruct (decide (i = j)) as [<-|Hne1].
        { rewrite list_lookup_insert_eq in Hj by exact Hlt. discriminate. }
        destruct (decide (i = k)) as [<-|Hne2].
        { rewrite list_lookup_insert_eq in Hk by exact Hlt. discriminate. }
        rewrite list_lookup_insert_ne in Hj, Hk by assumption. eauto.
Qed.

Lemma run_consistent now schedule : forall s,
  consistent s -> consistent (run now schedule s).
Proof.
  unfold run. induction schedule as [|i schedule IH]; intros s Hs; [exact Hs|].
  cbn [fold_left]. apply IH. now apply step_consistent.
Qed.

Lemma concurrent_creates_consistent n objects :
  consistent (concurrent_creates n objects).
Proof.
  unfold concurrent_creates. repeat split; cbn [Numbering.callers Numbering.objects].
  - intros i self [H|H]; apply list_elem_of_lookup_2, list_elem_of_In, repeat_spec in H;
      [injection H as ->; reflexivity|discriminate].
  - intros i self H. apply list_elem_of_lookup_2, list_elem_of_In, repeat_spec in H.
    discriminate.
  - intros i j a b _ H. apply list_elem_of_lookup_2, list_elem_of_In, repeat_spec in H.
    discriminate.
Qed.

End Interleaving.

Section Issuance.
Import Spec Numbering.
Local Open Scope string_scope.
Local Open Scope list_scope.
Local Open Scope Z_scope.





(** C4, the counterexample: two callers both run the query before either
    writes; both compute 0001, the first INSERT succeeds and the second is
    refused by the unique column, so that one caller is left without a
    number. *)
Lemma C4_counterexample_two_callers_collide :
  ~ distinct_gap_free "20250102"
      (run (Timezone.Build_datetime 2025 1 2 0) [0; 1; 0; 1]%nat
           (concurrent_creates 2 [])).
Proof.
  intros (numbers & H & _). vm_compute in H.
  destruct numbers as [|a [|b numbers]]; discriminate.
Qed.

(** C4, amended: under every interleaving of the callers' accesses to the
    table at most one caller wins each number (two callers that return hold
    different numbers, a colliding caller raises); and invocations that run
    one after the other on a table without a number of the day, up to 9999
    of them, are numbered 0001, 0002, ... without a gap. *)
Theorem C4_one_winner_per_number_gap_free_in_sequence
    (now : Timezone.datetime) (n : nat) (objects : list Sale.t) :
  (forall schedule i j a b,
     i <> j ->
     callers (run now schedule (concurrent_creates n objects)) !! i
     = Some (Returned a) ->
     callers (run now schedule (concurrent_creates n objects)) !! j
     = Some (Returned b) ->
     Sale.sale_number a <> Sale.sale_number b) /\
  (Z.of_nat n <= 9999 ->
   greatest_with_prefix ("SALE-" ++ Timezone.strftime_Ymd now)
     (map Sale.sale_number objects) None ->
   exists final,
     create_sales now n objects
     = Some (map (document_number "SALE" (Timezone.strftime_Ymd now))
                 (sequence 1 n), final)).
Proof.
  split.
  - intros schedule.
    destruct (run_consistent now schedule _ (concurrent_creates_consistent n objects))
      as (_ & _ & H). exact H.
  - intros Hn Hnone.
    apply (create_sales_sequence now n objects 0); [lia|lia| |now left].
    intros x Hx Hp.
    assert (E : String.prefix ("SALE" ++ "-" ++ Timezone.strftime_Ymd now)%string x = false)
      by exact (Hnone x Hx).
    rewrite E in Hp. discriminate.
Qed.

End Issuance.

Section DrawerSums.
Import Spec Contract.
Local Open Scope string_scope.
Local Open Scope list_scope.
Local Open Scope Z_scope.

(** ** Sums of stored amounts are exact *)

Lemma dadd_stored c1 c2 :
  Z.abs (c1 + c2) < 10 ^ prec ->
  dadd (mkDecimal c1 (-2)) (mkDecimal c2 (-2)) = mkDecimal (c1 + c2) (-2).
Proof. intros H. rewrite dadd_cents. now apply fix_small. Qed.

Lemma dsub_stored c1 c2 :
  Z.abs (c1 - c2) < 10 ^ prec ->
  dsub (mkDecimal c1 (-2)) (mkDecimal c2 (-2)) = mkDecimal (c1 - c2) (-2).
Proof. intros H. rewrite dsub_cents. now apply fix_small. Qed.

Lemma stored_eta md a :
  stored md a -> a = mkDecimal (coefficient a) (-2).
Proof. intros [He _]. destruct a as [c e]. cbn in *. now subst. Qed.

Lemma sum_cents_bound column :
  Forall (stored 10) column ->
  Z.abs (sum_cents column) <= Z.of_nat (length column) * 10 ^ 10.
Proof.
  unfold sum_cents. induction 1 as [|x l [_ Hx] _ IH].
  - simpl. lia.
  - cbn [map fold_right length]. rewrite Nat2Z.inj_succ. lia.
Qed.

Lemma fold_dadd_stored column : forall a,
  Forall (stored 10) column ->
  Z.abs a + Z.of_nat (length column) * 10 ^ 10 < 10 ^ prec ->
  fold_left dadd column (mkDecimal a (-2))
  = mkDecimal (a + sum_cents column) (-2).
Proof.
  unfold sum_cents. induction column as [|x l IH]; intros a Hst Hb.
  - cbn. now rewrite Z.add_0_r.
  - apply Forall_cons in Hst as [Hx Hl].
    cbn [fold_left map fold_right length] in *. rewrite Nat2Z.inj_succ in Hb.
    rewrite (stored_eta _ _ Hx) at 1. destruct Hx as [_ Hx].
    rewrite dadd_stored by lia.
    rewrite IH; [f_equal; lia|exact Hl|lia].
Qed.

Lemma or_zero_Sum_stored column :
  Forall (stored 10) column ->
  Z.of_nat (length column) <= many ->
  CashRegister.or_zero (CashRegister.Sum column)
  = mkDecimal (sum_cents column) (-2).
Proof.
  intros Hst Hlen. destruct column as [|x l]; [reflexivity|].
  cbn [CashRegister.Sum].
  pose proof Hst as Hst'. apply Forall_cons in Hst' as [Hx Hl].
  rewrite (stored_eta _ _ Hx) at 1.
  assert (Hmany : many * 10 ^ 10 < 10 ^ prec) by reflexivity.
  cbn [length] in Hlen. rewrite Nat2Z.inj_succ in Hlen.
  rewrite fold_dadd_stored; [|exact Hl|destruct Hx; lia].
  unfold CashRegister.or_zero, dtruthy. cbn [coefficient].
  replace (sum_cents (x :: l)) with (coefficient x + sum_cents l) by reflexivity.
  destruct (Z.eqb_spec (coefficient x + sum_cents l) 0) as [->|]; reflexivity.
Qed.

Lemma Forall_map_filter {A} (P : Decimal -> Prop) (f : A -> Decimal)
    (g : A -> bool) (l : list A) :
  Forall (fun r => P (f r)) l -> Forall P (map f (List.filter g l)).
Proof.
  induction 1 as [|x l Hx _ IH]; [constructor|].
  cbn [List.filter]. destruct (g x); [constructor|]; assumption.
Qed.

Lemma length_map_filter {A} (f : A -> Decimal) (g : A -> bool) (l : list A) :
  (length (map f (List.filter g l)) <= length l)%nat.
Proof.
  rewrite length_map. induction l as [|x l IH]; [reflexivity|].
  cbn [List.filter length]. destruct (g x); cbn [length]; lia.
Qed.

Lemma sales_any_status self all_sales :
  CashRegister.sales self all_sales Sale.PAYMENT_CASH
  = attributed_cash_sales (fun _ => true) self all_sales.
Proof.
  unfold CashRegister.sales, attributed_cash_sales. f_equal.
  apply filter_ext. intros s.
  destruct (CashRegister.id self), (Sale.cash_register s); try reflexivity.
  now rewrite andb_true_r.
Qed.

(** The expected cash in hundredths. *)
Lemma expected_amount_cents cash_movements all_sales self :
  stored 10 (CashRegister.initial_amount self) ->
  Forall (fun m => stored 10 (CashMovement.amount m)) cash_movements ->
  Forall (fun s => stored 10 (Sale.total s)) all_sales ->
  Z.of_nat (length cash_movements) <= many ->
  Z.of_nat (length all_sales) <= many ->
  snd (CashRegister.calculate_expected_amount cash_movements all_sales self)
  = mkDecimal (expected_cents (fun _ => true) cash_movements all_sales self) (-2)
  /\ Z.abs (expected_cents (fun _ => true) cash_movements all_sales self)
     < 10 ^ 27.
Proof.
  intros Hi Hm Hs Hlm Hls.
  unfold CashRegister.calculate_expected_amount, expected_cents. cbn [snd].
  rewrite <- sales_any_status.
  set (min := CashRegister.movements self cash_movements CashMovement.TYPE_IN).
  set (mout := CashRegister.movements self cash_movements CashMovement.TYPE_OUT).
  set (cs := CashRegister.sales self all_sales Sale.PAYMENT_CASH).
  change (CashRegister.movements self cash_movements "in") with min.
  change (CashRegister.movements self cash_movements "out") with mout.
  assert (Hmin : Forall (stored 10) min) by (apply Forall_map_filter; exact Hm).
  assert (Hmout : Forall (stored 10) mout) by (apply Forall_map_filter; exact Hm).
  assert (Hcs : Forall (stored 10) cs) by (apply Forall_map_filter; exact Hs).
  assert (Lmin : Z.of_nat (length min) <= many)
    by (pose proof (length_map_filter CashMovement.amount
          (fun m => match CashRegister.id self with
                    | Some k => (CashMovement.cash_register m =? k)
                                && String.eqb (CashMovement.type m) CashMovement.TYPE_IN
                    | None => false end) cash_movements); unfold min, CashRegister.movements; lia).
  assert (Lmout : Z.of_nat (length mout) <= many)
    by (pose proof (length_map_filter CashMovement.amount
          (fun m => match CashRegister.id self with
                    | Some k => (CashMovement.cash_register m =? k)
                                && String.eqb (CashMovement.type m) CashMovement.TYPE_OUT
                    | None => false end) cash_movements); unfold mout, CashRegister.movements; lia).
  assert (Lcs : Z.of_nat (length cs) <= many).
  { unfold cs, CashRegister.sales. rewrite length_map.
    pose proof (filter_length_le (fun s : Sale.t =>
       match CashRegister.id self with
       | Some k => match Sale.cash_register s with
                   | Some k' => (k' =? k) && String.eqb (Sale.payment_method s) Sale.PAYMENT_CASH
                   | None => false end
       | None => false end) all_sales) as Hle.
    lia. }
  rewrite !or_zero_Sum_stored by assumption.
  pose proof (sum_cents_bound _ Hmin) as Bmin.
  pose proof (sum_cents_bound _ Hmout) as Bmout.
  pose proof (sum_cents_bound _ Hcs) as Bcs.
  rewrite (stored_eta _ _ Hi) at 1. destruct Hi as [_ Hi].
  assert (Hmany : 10 ^ 10 + 3 * (many * 10 ^ 10) < 10 ^ 27) by reflexivity.
  assert (H27 : 10 ^ 27 < 10 ^ prec) by reflexivity.
  clearbody min mout cs.
  rewrite dadd_stored by lia. rewrite dadd_stored by lia.
  rewrite dsub_stored by lia.
  split; [f_equal; lia|lia].
Qed.

End DrawerSums.

Section RegisterClose.
Import Spec Contract.
Local Open Scope string_scope.
Local Open Scope list_scope.
Local Open Scope Z_scope.

(** ** Closing a register *)

Lemma Model_save_In {row} (pk : row -> option Z) set_pk objects self :
  In (fst (Orm.Model_save pk set_pk objects self))
     (snd (Orm.Model_save pk set_pk objects self)).
Proof.
  unfold Orm.Model_save. destruct (pk self) as [k|] eqn:Hk.
  - destruct (existsb _ objects) eqn:He; cbn [fst snd].
    + apply existsb_exists in He as (r & Hin & Hr).
      apply in_map_iff. exists r. now rewrite Hr.
    + apply in_or_app. right. now left.
  - cbn [fst snd]. apply in_or_app. right. now left.
Qed.

Lemma close_register_row now cash_movements all_sales objects self counted notes :
  CashRegister.close_register now cash_movements all_sales objects self
    counted notes
  = Orm.Model_save CashRegister.id CashRegister.set_id objects
      (let expected :=
         snd (CashRegister.calculate_expected_amount cash_movements all_sales self) in
       CashRegister.mk (CashRegister.id self)
         (CashRegister.employee_name self) CashRegister.STATUS_CLOSED
         (CashRegister.initial_amount self) (Some counted)
         (Some expected) (Some (dsub counted expected))
         (CashRegister.opening_notes self) notes
         (CashRegister.opened_at self) (Some (Timezone.timestamp now))).
Proof.
  unfold CashRegister.close_register, CashRegister.calculate_expected_amount,
    CashRegister.movements, CashRegister.sales.
  cbn [fst snd CashRegister.set_expected_amount CashRegister.expected_amount
       CashRegister.id CashRegister.employee_name CashRegister.status
       CashRegister.initial_amount CashRegister.final_amount
       CashRegister.difference CashRegister.opening_notes
       CashRegister.closing_notes CashRegister.opened_at
       CashRegister.closed_at].
  reflexivity.
Qed.

Lemma close_register_fields now cash_movements all_sales objects self counted notes :
  let result := CashRegister.close_register now cash_movements all_sales
                  objects self counted notes in
  let expected :=
    snd (CashRegister.calculate_expected_amount cash_movements all_sales self) in
  CashRegister.status (fst result) = CashRegister.STATUS_CLOSED /\
  CashRegister.final_amount (fst result) = Some counted /\
  CashRegister.closing_notes (fst result) = notes /\
  CashRegister.closed_at (fst result) = Some (Timezone.timestamp now) /\
  CashRegister.expected_amount (fst result) = Some expected /\
  CashRegister.difference (fst result) = Some (dsub counted expected) /\
  In (fst result) (snd result).
Proof.
  cbn zeta. rewrite close_register_row. cbn zeta.
  set (expected := snd _). clearbody expected.
  split; [|split; [|split; [|split; [|split; [|split]]]]];
    try apply Model_save_In;
    unfold Orm.Model_save; cbn [CashRegister.id];
    destruct (CashRegister.id self);
    try destruct (existsb _ objects); reflexivity.
Qed.

(** C5: the example of the specification. *)
Example drawer_reconciliation :
  let register :=
    CashRegister.mk (Some 1) "John" "open" (mkDecimal 10000 (-2))
                    None None None "" "" 0 None in
  let movements :=
    [CashMovement.mk (Some 1) 1 "in" (mkDecimal 5000 (-2)) "float" "John";
     CashMovement.mk (Some 2) 1 "out" (mkDecimal 2000 (-2)) "supplier" "John"] in
  let sales :=
    [Sale.mk (Some 1) "SALE-20250102-0001" "completed" Decimal_0_00
             Decimal_0_00 [] Decimal_0_00 (mkDecimal 7500 (-2)) "cash"
             (mkDecimal 7500 (-2)) Decimal_0_00 "" (Some 1) None
             (Some 0) (Some 0)] in
  let closed :=
    fst (CashRegister.close_register (Timezone.Build_datetime 2025 1 2 10)
           movements sales [register] register (mkDecimal 20000 (-2)) "") in
  CashRegister.expected_amount closed = Some (mkDecimal 20500 (-2)) /\
  CashRegister.difference closed = Some (mkDecimal (-500) (-2)).
Proof. vm_compute. split; reflexivity. Qed.

(** C5, the counterexample: a cancelled cash sale of 75.00 attributed to a
    register opened with 100.00 raises the expected amount to 175.00, where
    the contract counts completed sales only and expects 100.00. *)
Lemma C5_counterexample_cancelled_cash_sale :
  ~ expected_counts_completed_only []
      [Sale.mk (Some 1) "SALE-20250102-0001" "cancelled" Decimal_0_00
               Decimal_0_00 [] Decimal_0_00 (mkDecimal 7500 (-2)) "cash"
               (mkDecimal 7500 (-2)) Decimal_0_00 "" (Some 1) None
             (Some 0) (Some 0)]
      (CashRegister.mk (Some 1) "John" "open" (mkDecimal 10000 (-2))
                       None None None "" "" 0 None).
Proof. unfold expected_counts_completed_only. vm_compute. discriminate. Qed.

(** C5, amended: the expected amount of a register is the opening float plus
    the [in] movements minus the [out] movements plus the totals of the
    cash-paid sales attributed to the register, whatever their status (a
    sale that is not cash-paid contributes nothing); closing sets the
    difference to the counted amount minus the expected one; and a register
    without movements and sales expects its opening float. *)
Theorem C5_expected_amount_counts_every_cash_sale
    (now : Timezone.datetime) (cash_movements : list CashMovement.t)
    (all_sales : list Sale.t) (objects : list CashRegister.t)
    (self : CashRegister.t) (counted : Decimal) (notes : string) :
  stored 10 (CashRegister.initial_amount self) ->
  stored 10 counted ->
  Forall (fun m => stored 10 (CashMovement.amount m)) cash_movements ->
  Forall (fun s => stored 10 (Sale.total s)) all_sales ->
  Z.of_nat (length cash_movements) <= many ->
  Z.of_nat (length all_sales) <= many ->
  let expected := expected_cents (fun _ => true) cash_movements all_sales self in
  let closed :=
    fst (CashRegister.close_register now cash_movements all_sales objects
           self counted notes) in
  snd (CashRegister.calculate_expected_amount cash_movements all_sales self)
  = mkDecimal expected (-2) /\
  CashRegister.expected_amount closed = Some (mkDecimal expected (-2)) /\
  CashRegister.difference closed
  = Some (mkDecimal (coefficient counted - expected) (-2)) /\
  (cash_movements = [] -> all_sales = [] ->
   CashRegister.expected_amount closed = Some (CashRegister.initial_amount self)).
Proof.
  intros Hi Hc Hm Hs Lm Ls expected closed.
  destruct (expected_amount_cents cash_movements all_sales self Hi Hm Hs Lm Ls)
    as [He Hb]. fold expected in He, Hb.
  pose proof (close_register_fields now cash_movements all_sales objects self
                counted notes) as (_ & _ & _ & _ & Hexp & Hdiff & _).
  cbn zeta in Hexp, Hdiff. fold closed in Hexp, Hdiff.
  rewrite He in Hexp, Hdiff.
  split; [exact He|]. split; [exact Hexp|]. split.
  - rewrite Hdiff. f_equal. rewrite (stored_eta _ _ Hc) at 1.
    apply dsub_stored. destruct Hc as [_ Hc].
    assert (10 ^ 10 + 10 ^ 27 < 10 ^ prec) by reflexivity. lia.
  - intros -> ->. rewrite Hexp. f_equal.
    rewrite (stored_eta _ _ Hi). f_equal.
    unfold expected, expected_cents, CashRegister.movements,
      attributed_cash_sales, sum_cents. cbn. lia.
Qed.



End RegisterClose.

Section TotalsLoop.
Import Spec Contract.
Local Open Scope string_scope.
Local Open Scope list_scope.
Local Open Scope Z_scope.

(** ** The totals of a sale *)

Lemma in_cents_eta a : in_cents a -> a = mkDecimal (coefficient a) (-2).
Proof. unfold in_cents. destruct a as [c e]. cbn. now intros ->. Qed.

Lemma sum_cents_le_abs column : Z.abs (sum_cents column) <= abs_cents column.
Proof.
  unfold sum_cents, abs_cents. induction column as [|x l IH]; cbn; lia.
Qed.

Lemma abs_cents_nonneg column : 0 <= abs_cents column.
Proof. unfold abs_cents. induction column as [|x l IH]; cbn; lia. Qed.

Lemma fold_dadd_exact column : forall a,
  Forall in_cents column ->
  Z.abs a + abs_cents column < 10 ^ prec ->
  fold_left dadd column (mkDecimal a (-2))
  = mkDecimal (a + sum_cents column) (-2).
Proof.
  unfold sum_cents, abs_cents. induction column as [|x l IH]; intros a Hc Hb.
  - cbn. now rewrite Z.add_0_r.
  - apply Forall_cons in Hc as [Hx Hl].
    cbn [fold_left map fold_right] in *.
    pose proof (abs_cents_nonneg l) as Hn. unfold abs_cents in Hn.
    rewrite (in_cents_eta _ Hx) at 1.
    rewrite dadd_stored by lia.
    rewrite IH; [f_equal; lia|exact Hl|lia].
Qed.

(** [sum(...)] of amounts in hundredths equals their exact sum. *)
Lemma dsum_exact column :
  Forall in_cents column -> abs_cents column < 10 ^ prec ->
  deqb (dsum column) (mkDecimal (sum_cents column) (-2)) = true.
Proof.
  intros Hc Hb. unfold dsum. destruct column as [|x l]; [reflexivity|].
  apply Forall_cons in Hc as [Hx Hl]. cbn [fold_left].
  assert (E : dadd (mkDecimal 0 0) x = mkDecimal (coefficient x) (-2)).
  { rewrite (in_cents_eta _ Hx) at 1. unfold dadd. cbn [coefficient exponent].
    change (Z.min 0 (-2)) with (-2). change (-2 - -2) with 0.
    rewrite Z.pow_0_r, Z.mul_1_r, Z.mul_0_l, Z.add_0_l.
    apply fix_small. cbn [coefficient].
    pose proof (abs_cents_nonneg l). unfold abs_cents in *. cbn in Hb. lia. }
  rewrite E, fold_dadd_exact.
  - apply deqb_refl.
  - exact Hl.
  - unfold abs_cents in *. cbn in Hb. exact Hb.
Qed.

Lemma add_to_rate_spec key n t entries :
  Forall in_cents (bases entries) -> Forall in_cents (taxes entries) ->
  abs_cents (bases entries) + Z.abs n < 10 ^ prec ->
  abs_cents (taxes entries) + Z.abs t < 10 ^ prec ->
  let entries' :=
    Sale.add_to_rate key (mkDecimal n (-2)) (mkDecimal t (-2)) entries in
  Forall in_cents (bases entries') /\ Forall in_cents (taxes entries') /\
  sum_cents (bases entries') = sum_cents (bases entries) + n /\
  sum_cents (taxes entries') = sum_cents (taxes entries) + t /\
  abs_cents (bases entries') <= abs_cents (bases entries) + Z.abs n /\
  abs_cents (taxes entries') <= abs_cents (taxes entries) + Z.abs t.
Proof.
  unfold bases, taxes, sum_cents, abs_cents.
  induction entries as [|[k [b x]] rest IH]; intros Hb Ht Bb Bt; cbn zeta.
  - cbn [map fold_right] in Bb, Bt.
    cbn [Sale.add_to_rate]. unfold Decimal_0_00.
    rewrite !dadd_stored by lia.
    cbn [map fst snd fold_right coefficient].
    repeat split; try lia; repeat constructor.
  - cbn [map fst snd fold_right] in *.
    apply Forall_cons in Hb as [Hb0 Hb]. apply Forall_cons in Ht as [Ht0 Ht].
    pose proof (abs_cents_nonneg (map (fun e => fst (snd e)) rest)) as N1.
    pose proof (abs_cents_nonneg (map (fun e => snd (snd e)) rest)) as N2.
    unfold abs_cents in N1, N2.
    cbn [Sale.add_to_rate]. destruct (String.eqb k key).
    + rewrite (in_cents_eta _ Hb0), (in_cents_eta _ Ht0).
      rewrite !dadd_stored by (cbn [coefficient]; lia).
      cbn [map fst snd fold_right coefficient].
      repeat split; try lia; constructor; try assumption; reflexivity.
    + specialize (IH Hb Ht ltac:(lia) ltac:(lia)). cbn zeta in IH.
      destruct IH as (I1 & I2 & I3 & I4 & I5 & I6).
      cbn [map fst snd fold_right].
      repeat split; try lia; constructor; assumption.
Qed.

Lemma add_item_state acc item a t g k :
  loop_state acc a t g k -> stored_item item -> 0 <= k < many ->
  loop_state (Sale.add_item acc item)
    (a + coefficient (SaleItem.net_amount item))
    (t + coefficient (SaleItem.tax_amount item))
    (g + coefficient (SaleItem.line_total item)) (k + 1).
Proof.
  intros (Hn & Ht & Hg & Ba & Bt & Bg & Cb & Ct & Sb & St & Ab & At)
         (In_ & It & Ig) Hk.
  assert (Hmany : many * 10 ^ 10 + 10 ^ 10 < 10 ^ prec) by reflexivity.
  assert (Hk10 : k * 10 ^ 10 <= many * 10 ^ 10) by (apply Z.mul_le_mono_nonneg_r; lia).
  assert (Hk1 : (k + 1) * 10 ^ 10 = k * 10 ^ 10 + 10 ^ 10) by ring.
  unfold Sale.add_item, loop_state. cbn [Sale.total_net Sale.total_tax Sale.total_gross Sale.by_rate].
  rewrite Hn, Ht, Hg.
  rewrite (stored_eta _ _ In_), (stored_eta _ _ It), (stored_eta _ _ Ig).
  cbn [coefficient].
  destruct In_ as [_ In_], It as [_ It], Ig as [_ Ig].
  rewrite !dadd_stored by lia.
  destruct (add_to_rate_spec (str_Decimal (SaleItem.tax_rate item))
              (coefficient (SaleItem.net_amount item))
              (coefficient (SaleItem.tax_amount item))
              (Sale.by_rate acc) Cb Ct ltac:(lia) ltac:(lia))
    as (I1 & I2 & I3 & I4 & I5 & I6).
  cbn zeta in *.
  repeat split; try reflexivity; try assumption; lia.
Qed.

Lemma fold_add_item_state items : forall acc a t g k,
  loop_state acc a t g k -> Forall stored_item items ->
  0 <= k -> k + Z.of_nat (length items) <= many ->
  loop_state (fold_left Sale.add_item items acc)
    (a + sum_cents (map SaleItem.net_amount items))
    (t + sum_cents (map SaleItem.tax_amount items))
    (g + sum_cents (map SaleItem.line_total items))
    (k + Z.of_nat (length items)).
Proof.
  induction items as [|item items IH]; intros acc a t g k Hs Hi Hk Hlen.
  - cbn. now rewrite !Z.add_0_r.
  - apply Forall_cons in Hi as [Hitem Hi].
    cbn [length] in Hlen. rewrite Nat2Z.inj_succ in Hlen.
    cbn [fold_left map length]. rewrite Nat2Z.inj_succ.
    pose proof (add_item_state acc item a t g k Hs Hitem ltac:(lia)) as Hs'.
    specialize (IH _ _ _ _ _ Hs' Hi ltac:(lia) ltac:(lia)).
    unfold sum_cents in *. cbn [map fold_right].
    replace (a + (coefficient (SaleItem.net_amount item) + fold_right Z.add 0 (map coefficient (map SaleItem.net_amount items))))
      with (a + coefficient (SaleItem.net_amount item) + fold_right Z.add 0 (map coefficient (map SaleItem.net_amount items))) by lia.
    replace (t + (coefficient (SaleItem.tax_amount item) + fold_right Z.add 0 (map coefficient (map SaleItem.tax_amount items))))
      with (t + coefficient (SaleItem.tax_amount item) + fold_right Z.add 0 (map coefficient (map SaleItem.tax_amount items))) by lia.
    replace (g + (coefficient (SaleItem.line_total item) + fold_right Z.add 0 (map coefficient (map SaleItem.line_total items))))
      with (g + coefficient (SaleItem.line_total item) + fold_right Z.add 0 (map coefficient (map SaleItem.line_total items))) by lia.
    replace (k + Z.succ (Z.of_nat (length items))) with (k + 1 + Z.of_nat (length items)) by lia.
    exact IH.
Qed.

Lemma sum_items_state items :
  Forall stored_item items -> Z.of_nat (length items) <= many ->
  loop_state (Sale.sum_items items)
    (sum_cents (map SaleItem.net_amount items))
    (sum_cents (map SaleItem.tax_amount items))
    (sum_cents (map SaleItem.line_total items))
    (Z.of_nat (length items)).
Proof.
  intros Hi Hlen. unfold Sale.sum_items.
  apply (fold_add_item_state items _ 0 0 0 0); [|exact Hi|lia|lia].
  unfold loop_state, bases, taxes, sum_cents, abs_cents. cbn.
  repeat split; try lia; constructor.
Qed.

End TotalsLoop.

Section SaleTotals.
Import Spec Contract.
Local Open Scope string_scope.
Local Open Scope list_scope.
Local Open Scope Z_scope.

Lemma Sale_save_amounts now objects x x' objects' :
  Sale.save now objects x = Some (x', objects') -> same_amounts x x'.
Proof.
  unfold Sale.save.
  destruct (Sale.assign_number _ objects x) as [x1|] eqn:Ha; [|discriminate].
  cbn [mbind option_bind].
  assert (H1 : same_amounts x x1).
  { unfold Sale.assign_number in Ha. destruct (String.eqb _ _).
    - destruct (greatest _).
      + destruct (int_of_str _); cbn [mbind option_bind] in Ha; [|discriminate].
        injection Ha as <-. repeat split.
      + injection Ha as <-. repeat split.
    - injection Ha as <-. repeat split. }
  assert (H2 : same_amounts x (Sale.stamp now objects x1)).
  { unfold Sale.stamp.
    match goal with |- context [if ?b then _ else _] => destruct b end;
      exact H1. }
  unfold Sale.write. set (x2 := Sale.stamp now objects x1) in *.
  unfold Orm.Model_save_unique. destruct (existsb _ objects); [discriminate|].
  intros [= Hs]. apply (f_equal fst) in Hs. cbn [fst] in Hs. subst x'.
  unfold Orm.Model_save. destruct (Sale.id x2).
  - destruct (existsb _ objects); exact H2.
  - exact H2.
Qed.


Lemma with_totals_fields self sale_items :
  let acc := Sale.sum_items (Sale.items self sale_items) in
  let x := Sale.with_totals self sale_items in
  Sale.subtotal x = Sale.total_net acc /\
  Sale.tax_amount x = Sale.total_tax acc /\
  Sale.tax_breakdown x
  = map (fun '(k, (b, t)) =>
           (k, {| Sale.base := float_of_Decimal b;
                  Sale.tax := float_of_Decimal t |})) (Sale.by_rate acc) /\
  Sale.total x = dsub (Sale.total_gross acc) (Sale.discount_amount self) /\
  Sale.id x = Sale.id self /\ Sale.sale_number x = Sale.sale_number self.
Proof. cbn zeta. unfold Sale.with_totals. cbn. repeat split. Qed.

(** C6, the counterexample: a sale with a line of net 0.10 at 21 % and a
    line of net 0.20 at 10 %.  The subtotal is 0.30; the breakdown stores the
    floats nearest to 0.10 and 0.20, whose sum is 0.30000000000000004. *)
Lemma C6_counterexample_float_breakdown :
  ~ breakdown_reconstructs (Timezone.Build_datetime 2025 1 2 0)
      [SaleItem.mk (Some 1) 1 7 "pen" "P1" false (mkDecimal 100 (-2))
         (mkDecimal 10 (-2)) Decimal_0_00 (mkDecimal 2100 (-2)) "General"
         (mkDecimal 10 (-2)) (mkDecimal 2 (-2)) (mkDecimal 12 (-2));
       SaleItem.mk (Some 2) 1 8 "bun" "B1" false (mkDecimal 100 (-2))
         (mkDecimal 20 (-2)) Decimal_0_00 (mkDecimal 1000 (-2)) "Reduced"
         (mkDecimal 20 (-2)) (mkDecimal 2 (-2)) (mkDecimal 22 (-2))]
      [sample_row 1 "SALE-20250102-0001"]
      (sample_row 1 "SALE-20250102-0001").
Proof.
  intros H.
  match type of H with
  | breakdown_reconstructs ?now ?items ?objects ?self =>
      destruct (Sale.calculate_totals now items objects self)
        as [[self' objects']|] eqn:E; [|vm_compute in E; discriminate];
      specialize (H self' objects' E)
  end.
  vm_compute in E. injection E as <- _.
  destruct H as [H _]. vm_compute in H. discriminate.
Qed.

(** C6, amended: the aggregates by rate that the loop accumulates in
    decimal sum to the totals: their bases to the subtotal and their taxes
    to the tax amount; the breakdown that is stored holds, for each rate,
    the floats nearest to the two aggregates. *)
Theorem C6_decimal_breakdown_reconstructs_totals
    (now : Timezone.datetime) (sale_items : list SaleItem.t)
    (objects objects' : list Sale.t) (self self' : Sale.t) :
  Forall stored_item (Sale.items self sale_items) ->
  Z.of_nat (length (Sale.items self sale_items)) <= many ->
  Sale.calculate_totals now sale_items objects self = Some (self', objects') ->
  let by_rate := Sale.by_rate (Sale.sum_items (Sale.items self sale_items)) in
  deqb (dsum (bases by_rate)) (Sale.subtotal self') = true /\
  deqb (dsum (taxes by_rate)) (Sale.tax_amount self') = true /\
  Sale.tax_breakdown self'
  = map (fun '(k, (b, t)) =>
           (k, {| Sale.base := float_of_Decimal b;
                  Sale.tax := float_of_Decimal t |})) by_rate.
Proof.
  intros Hi Hlen Hc by_rate. unfold Sale.calculate_totals in Hc.
  apply Sale_save_amounts in Hc as (H1 & H2 & H3 & _).
  destruct (with_totals_fields self sale_items) as (W1 & W2 & W3 & _).
  cbn zeta in W1, W2, W3. rewrite H1, H2, H3, W1, W2, W3. clear H1 H2 H3 W1 W2 W3.
  destruct (sum_items_state _ Hi Hlen)
    as (Hn & Ht & _ & _ & _ & _ & Cb & Ct & Sb & St & Ab & At).
  fold by_rate in Cb, Ct, Sb, St, Ab, At.
  assert (Hmany : many * 10 ^ 10 < 10 ^ prec) by reflexivity.
  assert (Hk : Z.of_nat (length (Sale.items self sale_items)) * 10 ^ 10
               <= many * 10 ^ 10) by (apply Z.mul_le_mono_nonneg_r; lia).
  rewrite Hn, Ht, <- Sb, <- St.
  split; [apply dsum_exact; [exact Cb|lia]|].
  split; [apply dsum_exact; [exact Ct|lia]|reflexivity].
Qed.



End SaleTotals.

Section StockDecrement.
Import Spec Contract.
Local Open Scope string_scope.
Local Open Scope list_scope.
Local Open Scope Z_scope.

(** ** The loop of [complete_sale] *)







End StockDecrement.

Section Instances.
Import Spec Contract Numbering.
Local Open Scope string_scope.
Local Open Scope list_scope.
Local Open Scope Z_scope.

(** ** The theorems at concrete inputs *)

Lemma C2_witness_tax_inclusive :
  exists self',
    coefficient (SaleItem.line_total self')
    = coefficient (SaleItem.net_amount self')
      + coefficient (SaleItem.tax_amount self') /\
    SaleItem.line_total self' = mkDecimal 1210 (-2).
Proof.
  eexists. split.
  - eapply (C2_line_total_is_net_plus_tax true [] _ (sample_line 1210 100 0 2100)).
    vm_compute. reflexivity.
  - reflexivity.
Defined.

Lemma C3_witness_after_0007 :
  Sale.assign_number "20250102" [sample_sale_7] new_sale
  = Some (Sale.set_sale_number "SALE-20250102-0008" new_sale) /\
  ParkedTicket.assign_number "20250102" []
    (ParkedTicket.mk None "" "John" "" 0 None)
  = Some (ParkedTicket.set_ticket_number "PARK-20250102-0001"
            (ParkedTicket.mk None "" "John" "" 0 None)).
Proof.
  apply (C3_next_document_number sample_now [sample_sale_7] [] new_sale
           (ParkedTicket.mk None "" "John" "" 0 None)
           (Some "SALE-20250102-0007") None 8 1).
  - reflexivity.
  - reflexivity.
  - split; [now left|]. split; [reflexivity|].
    intros n [<-|[]] _. reflexivity.
  - reflexivity.
  - intros n [].
  - reflexivity.
Defined.

Lemma C4_witness_two_in_sequence :
  exists final,
    create_sales sample_now 2 []
    = Some (["SALE-20250102-0001"; "SALE-20250102-0002"], final).
Proof.
  apply (C4_one_winner_per_number_gap_free_in_sequence sample_now 2 []).
  - cbn. lia.
  - intros n [].
Defined.

Lemma C5_witness_drawer :
  let register :=
    CashRegister.mk (Some 1) "John" "open" (mkDecimal 10000 (-2))
                    None None None "" "" 0 None in
  let movements :=
    [CashMovement.mk (Some 1) 1 "in" (mkDecimal 5000 (-2)) "float" "John";
     CashMovement.mk (Some 2) 1 "out" (mkDecimal 2000 (-2)) "supplier" "John"] in
  let sales :=
    [Sale.mk (Some 1) "SALE-20250102-0001" "cancelled" Decimal_0_00
             Decimal_0_00 [] Decimal_0_00 (mkDecimal 7500 (-2)) "cash"
             (mkDecimal 7500 (-2)) Decimal_0_00 "" (Some 1) None
             (Some 0) (Some 0);
     Sale.mk (Some 2) "SALE-20250102-0002" "completed" Decimal_0_00
             Decimal_0_00 [] Decimal_0_00 (mkDecimal 900 (-2)) "card"
             (mkDecimal 900 (-2)) Decimal_0_00 "" (Some 1) None
             (Some 0) (Some 0)] in
  snd (CashRegister.calculate_expected_amount movements sales register)
  = mkDecimal 20500 (-2).
Proof.
  intros register movements sales.
  refine (proj1 (C5_expected_amount_counts_every_cash_sale sample_now movements
                   sales [register] register (mkDecimal 20000 (-2)) "" _ _ _ _ _ _)).
  - split; [reflexivity|]. cbn. lia.
  - split; [reflexivity|]. cbn. lia.
  - repeat constructor; cbn; lia.
  - repeat constructor; cbn; lia.
  - cbn. unfold many. lia.
  - cbn. unfold many. lia.
Defined.

Lemma C6_witness_two_rates :
  exists self',
    deqb (dsum [mkDecimal 10 (-2); mkDecimal 20 (-2)]) (Sale.subtotal self')
    = true /\
    Sale.subtotal self' = mkDecimal 30 (-2).
Proof.
  eexists. split.
  - refine (proj1 (C6_decimal_breakdown_reconstructs_totals sample_now
                     sample_items [sample_sale 0] _ (sample_sale 0) _ _ _ _)).
    + repeat constructor; cbn; lia.
    + cbn. unfold many. lia.
    + vm_compute. reflexivity.
  - reflexivity.
Defined.




End Instances.

(* ====================================================================== *)
(** * Part III: further lemmas and theorems *)
(* ====================================================================== *)

Section KeyedTables.
Local Open Scope string_scope.
Local Open Scope list_scope.
Local Open Scope Z_scope.

(** ** Tables with primary keys *)

Section KeyedFacts.
Context {row : Type}.
Variable pk : row -> option Z.
Variable set_pk : Z -> row -> row.
Hypothesis pk_set_pk : forall k r, pk (set_pk k r) = Some k.

Lemma pks_In objects k :
  In k (Orm.pks pk objects) <-> exists r, In r objects /\ pk r = Some k.
Proof.
  unfold Orm.pks. induction objects as [|x objects IH]; cbn [omap list_omap].
  - split; [intros []|intros (r & [] & _)].
  - destruct (pk x) as [k'|] eqn:Hx.
    + split.
      * intros [<-|Hin]; [exists x; split; [now left|exact Hx]|].
        apply IH in Hin as (r & Hr & Hk). exists r. split; [now right|exact Hk].
      * intros (r & [<-|Hr] & Hk); [left; congruence|].
        right. apply IH. now exists r.
    + rewrite IH. split.
      * intros (r & Hr & Hk). exists r. split; [now right|exact Hk].
      * intros (r & [<-|Hr] & Hk); [congruence|]. now exists r.
Qed.

Lemma pks_app a b : Orm.pks pk (a ++ b) = Orm.pks pk a ++ Orm.pks pk b.
Proof.
  unfold Orm.pks. induction a as [|x a IH]; [reflexivity|].
  cbn [app omap list_omap]. destruct (pk x); cbn [app]; now rewrite IH.
Qed.

Lemma fresh_pk_new objects : ~ In (Orm.fresh_pk pk objects) (Orm.pks pk objects).
Proof.
  intros Hin. apply pks_In in Hin as (r & Hr & Hk).
  pose proof (fresh_pk_above pk objects r _ Hr Hk). lia.
Qed.

Lemma keyed_nil : Table.keyed pk [].
Proof. split; constructor. Qed.

Lemma keyed_cons x objects :
  Table.keyed pk (x :: objects) <->
  (exists k, pk x = Some k /\ ~ In k (Orm.pks pk objects)) /\
  Table.keyed pk objects.
Proof.
  unfold Table.keyed, Orm.pks. cbn [omap list_omap]. split.
  - intros [Hall Hnd]. inversion Hall as [|? ? Hx Hrest]; subst.
    destruct (pk x) as [k|] eqn:Hk; [|congruence].
    apply NoDup_cons in Hnd as [Hnew Hnd].
    split; [exists k; split; [reflexivity|]|split; assumption].
    intros Hin. apply Hnew. now apply list_elem_of_In.
  - intros [(k & Hk & Hnew) [Hall Hnd]]. rewrite Hk. split.
    + constructor; [congruence|exact Hall].
    + apply NoDup_cons. split; [|exact Hnd].
      intros Hin. apply Hnew. now apply list_elem_of_In.
Qed.

Lemma keyed_snoc objects x k :
  Table.keyed pk objects -> pk x = Some k -> ~ In k (Orm.pks pk objects) ->
  Table.keyed pk (objects ++ [x]).
Proof.
  induction objects as [|y objects IH]; intros Hkey Hx Hnew.
  - apply keyed_cons. split; [|apply keyed_nil]. exists k. split; [exact Hx|].
    intros [].
  - apply keyed_cons in Hkey as [(k' & Hy & Hnew') Hkey].
    assert (Hk : k' <> k).
    { intros ->. apply Hnew. apply pks_In. exists y. split; [now left|exact Hy]. }
    cbn [app]. apply keyed_cons. split.
    + exists k'. split; [exact Hy|]. rewrite pks_app. intros Hin.
      apply in_app_or in Hin as [Hin|Hin]; [now apply Hnew'|].
      unfold Orm.pks in Hin. cbn [omap list_omap] in Hin. rewrite Hx in Hin.
      destruct Hin as [Hin|[]]. congruence.
    + apply IH; [exact Hkey|exact Hx|].
      intros Hin. apply Hnew. apply pks_In in Hin as (r & Hr & Hrk).
      apply pks_In. exists r. split; [now right|exact Hrk].
Qed.

Lemma has_pk_iff k r : Orm.has_pk pk k r = true <-> pk r = Some k.
Proof.
  unfold Orm.has_pk. destruct (pk r) as [k'|].
  - rewrite Z.eqb_eq. split; [intros ->; reflexivity|intros [= ->]; reflexivity].
  - split; [discriminate|discriminate].
Qed.

Lemma has_pk_not_in k objects :
  ~ In k (Orm.pks pk objects) ->
  forall r, In r objects -> Orm.has_pk pk k r = false.
Proof.
  intros Hnew r Hr. destruct (Orm.has_pk pk k r) eqn:E; [|reflexivity].
  exfalso. apply Hnew. apply pks_In. exists r. split; [exact Hr|].
  now apply has_pk_iff.
Qed.

Lemma filter_none {A} (f : A -> bool) l :
  (forall x, In x l -> f x = false) -> List.filter f l = [].
Proof.
  induction l as [|x l IH]; intros H; [reflexivity|]. cbn [List.filter].
  rewrite (H x) by now left. apply IH. intros y Hy. apply H. now right.
Qed.


Lemma replace_none k self objects :
  (forall r, In r objects -> Orm.has_pk pk k r = false) ->
  Table.replace pk k self objects = objects.
Proof.
  unfold Table.replace. induction objects as [|x objects IH]; intros H;
    [reflexivity|].
  cbn [map]. rewrite (H x) by now left. f_equal. apply IH.
  intros y Hy. apply H. now right.
Qed.

(** A keyed table holds a row once: around it no row has its key. *)
Lemma keyed_split objects r k :
  Table.keyed pk objects -> In r objects -> pk r = Some k ->
  exists before after,
    objects = before ++ r :: after /\
    (forall x, In x before -> Orm.has_pk pk k x = false) /\
    (forall x, In x after -> Orm.has_pk pk k x = false).
Proof.
  induction objects as [|y objects IH]; intros Hkey Hin Hk; [destruct Hin|].
  apply keyed_cons in Hkey as [(k' & Hy & Hnew) Hkey].
  destruct Hin as [->|Hin].
  - exists [], objects. split; [reflexivity|]. split; [intros x []|].
    assert (k' = k) by congruence. subst k'. now apply has_pk_not_in.
  - destruct (IH Hkey Hin Hk) as (before & after & -> & Hb & Ha).
    exists (y :: before), after. split; [reflexivity|]. split; [|exact Ha].
    intros x [<-|Hx]; [|now apply Hb].
    destruct (Orm.has_pk pk k y) eqn:E; [|reflexivity].
    apply has_pk_iff in E. exfalso. apply Hnew.
    assert (k' = k) by congruence. subst k'.
    apply pks_In. exists r. split; [|exact Hk].
    apply in_or_app. right. now left.
Qed.

Lemma replace_split k self before r after :
  pk r = Some k ->
  (forall x, In x before -> Orm.has_pk pk k x = false) ->
  (forall x, In x after -> Orm.has_pk pk k x = false) ->
  Table.replace pk k self (before ++ r :: after) = before ++ self :: after.
Proof.
  intros Hk Hb Ha. unfold Table.replace. rewrite map_app. cbn [map].
  rewrite (proj2 (has_pk_iff k r) Hk).
  fold (Table.replace pk k self before). fold (Table.replace pk k self after).
  now rewrite !replace_none.
Qed.

Lemma pks_split before r after k :
  pk r = Some k ->
  Orm.pks pk (before ++ r :: after)
  = Orm.pks pk before ++ k :: Orm.pks pk after.
Proof.
  intros Hk. rewrite pks_app. f_equal. unfold Orm.pks.
  cbn [omap list_omap]. now rewrite Hk.
Qed.

Lemma keyed_replace before r self after k :
  pk r = Some k -> pk self = Some k ->
  Table.keyed pk (before ++ r :: after) ->
  Table.keyed pk (before ++ self :: after).
Proof.
  intros Hr Hs [Hall Hnd]. split.
  - apply Forall_app in Hall as [Hb Ha]. apply Forall_app. split; [exact Hb|].
    inversion Ha; subst. constructor; [congruence|assumption].
  - rewrite (pks_split _ _ _ k Hs). now rewrite (pks_split _ _ _ k Hr) in Hnd.
Qed.

(** [Model.save()] of an object whose key is in the table: the row is
    replaced where it is. *)
Lemma Model_save_update objects before r after self k :
  objects = before ++ r :: after ->
  pk r = Some k -> pk self = Some k ->
  (forall x, In x before -> Orm.has_pk pk k x = false) ->
  (forall x, In x after -> Orm.has_pk pk k x = false) ->
  Orm.Model_save pk set_pk objects self = (self, before ++ self :: after).
Proof.
  intros -> Hr Hs Hb Ha. unfold Orm.Model_save. rewrite Hs.
  assert (He : existsb (Orm.has_pk pk k) (before ++ r :: after) = true).
  { apply existsb_exists. exists r. split; [apply in_or_app; right; now left|].
    now apply has_pk_iff. }
  rewrite He. f_equal. now apply replace_split.
Qed.

(** [Model.save()] of an object without a key: the row is appended under a
    new key. *)
Lemma Model_save_insert objects self :
  pk self = None ->
  Orm.Model_save pk set_pk objects self
  = (set_pk (Orm.fresh_pk pk objects) self,
     objects ++ [set_pk (Orm.fresh_pk pk objects) self]).
Proof. intros H. unfold Orm.Model_save. now rewrite H. Qed.

Lemma keyed_insert objects self :
  Table.keyed pk objects ->
  Table.keyed pk (objects ++ [set_pk (Orm.fresh_pk pk objects) self]).
Proof.
  intros Hkey. apply (keyed_snoc _ _ (Orm.fresh_pk pk objects) Hkey).
  - apply pk_set_pk.
  - apply fresh_pk_new.
Qed.

Lemma keyed_filter (f : row -> bool) objects :
  Table.keyed pk objects -> Table.keyed pk (List.filter f objects).
Proof.
  induction objects as [|x objects IH]; intros Hkey; [exact Hkey|].
  apply keyed_cons in Hkey as [(k & Hx & Hnew) Hkey]. cbn [List.filter].
  destruct (f x); [|now apply IH].
  apply keyed_cons. split; [|now apply IH]. exists k. split; [exact Hx|].
  intros Hin. apply Hnew. apply pks_In in Hin as (r & Hr & Hk).
  apply pks_In. exists r. split; [|exact Hk].
  apply filter_In in Hr. tauto.
Qed.

Lemma get_split (f : row -> bool) before r after :
  f r = true ->
  (forall x, In x before -> f x = false) ->
  (forall x, In x after -> f x = false) ->
  QuerySet.get f (before ++ r :: after) = QuerySet.Found r.
Proof.
  intros Hr Hb Ha. unfold QuerySet.get. rewrite List.filter_app.
  cbn [List.filter]. rewrite Hr, !filter_none by assumption. reflexivity.
Qed.

Lemma get_Found (f : row -> bool) objects r :
  QuerySet.get f objects = QuerySet.Found r ->
  exists before after,
    objects = before ++ r :: after /\ f r = true /\
    (forall x, In x before -> f x = false) /\
    (forall x, In x after -> f x = false).
Proof.
  unfold QuerySet.get. induction objects as [|y objects IH]; cbn [List.filter].
  - discriminate.
  - destruct (f y) eqn:Hy.
    + destruct (List.filter f objects) as [|z [|? ?]] eqn:Hf; try discriminate.
      intros [= ->]. exists [], objects. split; [reflexivity|].
      split; [exact Hy|]. split; [intros x []|].
      intros x Hx. destruct (f x) eqn:E; [|reflexivity].
      assert (In x (List.filter f objects)) by (apply filter_In; tauto).
      rewrite Hf in H. destruct H.
    + intros H. destruct (IH H) as (before & after & -> & Hr & Hb & Ha).
      exists (y :: before), after. split; [reflexivity|]. split; [exact Hr|].
      split; [|exact Ha]. intros x [<-|Hx]; [exact Hy|now apply Hb].
Qed.

Lemma get_DoesNotExist (f : row -> bool) objects :
  QuerySet.get f objects = QuerySet.DoesNotExist <->
  (forall x, In x objects -> f x = false).
Proof.
  unfold QuerySet.get. split.
  - intros H x Hx. destruct (f x) eqn:E; [|reflexivity].
    assert (Hin : In x (List.filter f objects)) by (apply filter_In; tauto).
    destruct (List.filter f objects) as [|? [|? ?]]; try discriminate.
    destruct Hin.
  - intros H. now rewrite filter_none.
Qed.

Lemma get_Multiple (f : row -> bool) objects :
  QuerySet.get f objects = QuerySet.MultipleObjectsReturned <->
  (2 <= length (List.filter f objects))%nat.
Proof.
  unfold QuerySet.get.
  destruct (List.filter f objects) as [|? [|? ?]]; cbn [length];
    split; intros H; try discriminate; try reflexivity; lia.
Qed.

Lemma get_by_pk objects r k :
  Table.keyed pk objects -> In r objects -> pk r = Some k ->
  QuerySet.get (Orm.has_pk pk k) objects = QuerySet.Found r.
Proof.
  intros Hkey Hin Hk.
  destruct (keyed_split objects r k Hkey Hin Hk) as (b & a & -> & Hb & Ha).
  apply get_split; [now apply has_pk_iff|exact Hb|exact Ha].
Qed.

End KeyedFacts.

Section KeyedMiddle.
Context {row : Type}.
Variable pk : row -> option Z.

Lemma keyed_middle before r after k :
  Table.keyed pk (before ++ r :: after) -> pk r = Some k ->
  (forall x, In x before -> Orm.has_pk pk k x = false) /\
  (forall x, In x after -> Orm.has_pk pk k x = false).
Proof.
  intros [_ Hnd] Hk. rewrite (pks_split pk _ _ _ k Hk) in Hnd.
  apply NoDup_app in Hnd as (_ & Hdis & Hnd).
  apply NoDup_cons in Hnd as [Hafter _].
  split; intros x Hx; apply (has_pk_not_in pk k) with (objects := [x]);
    try (now left); intros Hin; apply pks_In in Hin as (y & [<-|[]] & Hy).
  - apply (Hdis k); [|now left].
    apply list_elem_of_In, pks_In. now exists x.
  - apply Hafter. apply list_elem_of_In, pks_In. now exists x.
Qed.

Lemma keyed_pk objects r :
  Table.keyed pk objects -> In r objects -> exists k, pk r = Some k.
Proof.
  intros [Hall _] Hin. rewrite Forall_forall in Hall.
  specialize (Hall r). destruct (pk r) as [k|]; [now exists k|].
  exfalso. apply Hall; [|reflexivity]. now apply list_elem_of_In.
Qed.

End KeyedMiddle.

End KeyedTables.

Section ActiveCartViews.
Import CartViews.
Local Open Scope string_scope.
Local Open Scope list_scope.
Local Open Scope Z_scope.

(** ** The views of the active cart *)

Lemma of_employee_eq name cart :
  of_employee name cart = true <-> ActiveCart.employee_name cart = name.
Proof. unfold of_employee. apply String.eqb_eq. Qed.

Lemma of_employee_other name name' cart :
  name <> name' -> of_employee name' cart = true ->
  of_employee name cart = false.
Proof.
  intros Hne H. apply of_employee_eq in H. unfold of_employee.
  apply String.eqb_neq. congruence.
Qed.

(** The three outcomes of [save_active_cart] on a keyed table. *)
Lemma save_active_cart_cases now req objects :
  Table.keyed ActiveCart.id objects ->
  let name := employee_of req in
  let data := cart_of (items_of req) in
  (QuerySet.get (of_employee name) objects = QuerySet.MultipleObjectsReturned /\
   save_active_cart now req objects = (Failure, objects)) \/
  (QuerySet.get (of_employee name) objects = QuerySet.DoesNotExist /\
   save_active_cart now req objects
   = (Saved,
      objects ++ [ActiveCart.mk (Some (Orm.fresh_pk ActiveCart.id objects))
                    name data (Timezone.timestamp now)
                    (Timezone.timestamp now)])) \/
  (exists before cart after k,
     objects = before ++ cart :: after /\
     ActiveCart.id cart = Some k /\
     ActiveCart.employee_name cart = name /\
     (forall x, In x before -> of_employee name x = false) /\
     (forall x, In x after -> of_employee name x = false) /\
     save_active_cart now req objects
     = (Saved,
        before ++ ActiveCart.mk (Some k) name data (ActiveCart.created_at cart)
                                (Timezone.timestamp now) :: after)).
Proof.
  intros Hkey name data. unfold save_active_cart. fold name. fold data.
  destruct (QuerySet.get (of_employee name) objects) as [| |cart] eqn:Hget.
  - right. left. split; reflexivity.
  - left. split; reflexivity.
  - right. right.
    apply get_Found in Hget as (before & after & -> & Hc & Hb & Ha).
    destruct (keyed_pk ActiveCart.id _ cart Hkey) as [k Hk];
      [apply in_or_app; right; now left|].
    destruct (keyed_middle ActiveCart.id _ _ _ k Hkey Hk) as [Kb Ka].
    apply of_employee_eq in Hc.
    exists before, cart, after, k. repeat split; try assumption.
    unfold ActiveCart.save, ActiveCart.set_cart_data.
    cbn [ActiveCart.id ActiveCart.employee_name ActiveCart.cart_data
         ActiveCart.created_at ActiveCart.updated_at].
    rewrite (Model_save_update ActiveCart.id ActiveCart.set_id _ before cart
               after _ k eq_refl Hk) by (rewrite ?Hk; auto).
    cbn [snd]. rewrite Hk, Hc. reflexivity.
Qed.

(** [save_active_cart] keeps the table keyed. *)
Lemma save_active_cart_keyed now req objects :
  Table.keyed ActiveCart.id objects ->
  Table.keyed ActiveCart.id (snd (save_active_cart now req objects)).
Proof.
  intros Hkey.
  destruct (save_active_cart_cases now req objects Hkey)
    as [[_ ->]|[[_ ->]|(before & cart & after & k & -> & Hk & _ & _ & _ & ->)]];
    cbn [snd].
  - exact Hkey.
  - refine (keyed_snoc ActiveCart.id _ _ (Orm.fresh_pk ActiveCart.id objects)
              Hkey _ _); [reflexivity|apply fresh_pk_new].
  - refine (keyed_replace ActiveCart.id before cart _ after k Hk _ Hkey).
    reflexivity.
Qed.

Lemma item_count_cart_of items k name created updated :
  ActiveCart.item_count (ActiveCart.mk k name (cart_of items) created updated)
  = Json.len items.
Proof.
  unfold ActiveCart.item_count, cart_of, Json.get.
  cbn [ActiveCart.cart_data Json.lookup]. rewrite String.eqb_refl. reflexivity.
Qed.

(** X1. A cart that [save_active_cart] stores is the cart that
    [load_active_cart] returns: on a keyed table with at most one cart of
    the employee the view succeeds, a later load for the same employee
    returns [{'items': items}] with the items of the request, and the
    stored row counts [len(items)] items and is stamped with the time of
    the call. *)
Theorem active_cart_saved_then_loaded (now : Timezone.datetime)
    (req req' : request) (objects : list ActiveCart.t) :
  Table.keyed ActiveCart.id objects ->
  (length (List.filter (of_employee (employee_of req)) objects) <= 1)%nat ->
  employee_of req' = employee_of req ->
  let result := save_active_cart now req objects in
  fst result = Saved /\
  Table.keyed ActiveCart.id (snd result) /\
  load_active_cart req' (snd result) = Loaded (cart_of (items_of req)) /\
  exists cart,
    QuerySet.get (of_employee (employee_of req)) (snd result)
    = QuerySet.Found cart /\
    ActiveCart.item_count cart = Json.len (items_of req) /\
    ActiveCart.updated_at cart = Timezone.timestamp now.
Proof.
  intros Hkey Hone Hsame result. subst result.
  split; [|split; [now apply save_active_cart_keyed|]];
    unfold load_active_cart; rewrite ?Hsame;
    destruct (save_active_cart_cases now req objects Hkey)
      as [[Hget _]|[[Hget ->]|(before & cart & after & k & -> & Hk & Hn & Hb & Ha & ->)]];
    try (apply get_Multiple in Hget; lia); try reflexivity; cbn [snd].
  - rewrite get_split with (r := ActiveCart.mk (Some (Orm.fresh_pk ActiveCart.id objects))
                                   (employee_of req) (cart_of (items_of req))
                                   (Timezone.timestamp now) (Timezone.timestamp now))
                           (after := []).
    + split; [reflexivity|]. eexists. split; [reflexivity|].
      split; [apply item_count_cart_of|reflexivity].
    + now apply of_employee_eq.
    + now apply get_DoesNotExist.
    + intros x [].
  - rewrite get_split with (r := ActiveCart.mk (Some k) (employee_of req)
                                   (cart_of (items_of req))
                                   (ActiveCart.created_at cart)
                                   (Timezone.timestamp now)).
    + split; [reflexivity|]. eexists. split; [reflexivity|].
      split; [apply item_count_cart_of|reflexivity].
    + now apply of_employee_eq.
    + exact Hb.
    + exact Ha.
Qed.

Lemma filter_filter_other name name' (objects : list ActiveCart.t) :
  name <> name' ->
  List.filter (of_employee name)
    (List.filter (fun cart => negb (of_employee name' cart)) objects)
  = List.filter (of_employee name) objects.
Proof.
  intros Hne. induction objects as [|x objects IH]; [reflexivity|].
  cbn [List.filter]. destruct (of_employee name' x) eqn:E; cbn [negb].
  - rewrite (of_employee_other name name' x Hne E). exact IH.
  - cbn [List.filter]. now rewrite IH.
Qed.

(** X2. Saving or clearing the cart of one employee leaves the carts of
    every other employee as they are. *)
Theorem active_cart_of_others_untouched (now : Timezone.datetime)
    (req : request) (objects : list ActiveCart.t) (name : string) :
  Table.keyed ActiveCart.id objects ->
  name <> employee_of req ->
  List.filter (of_employee name) (snd (save_active_cart now req objects))
  = List.filter (of_employee name) objects /\
  List.filter (of_employee name) (snd (clear_active_cart req objects))
  = List.filter (of_employee name) objects.
Proof.
  intros Hkey Hne. split.
  - destruct (save_active_cart_cases now req objects Hkey)
      as [[_ ->]|[[_ ->]|(before & cart & after & k & -> & Hk & Hn & _ & _ & ->)]];
      cbn [snd].
    + reflexivity.
    + rewrite List.filter_app. cbn [List.filter].
      rewrite (of_employee_other name (employee_of req)) by
        (auto; now apply of_employee_eq).
      apply app_nil_r.
    + rewrite !List.filter_app. cbn [List.filter].
      rewrite !(of_employee_other name (employee_of req)) by
        (auto; now apply of_employee_eq).
      reflexivity.
  - cbn [clear_active_cart snd]. now apply filter_filter_other.
Qed.

(** X3. One cart per employee is an invariant of the views: on a keyed
    table whose carts have pairwise different employee names,
    [save_active_cart] and [clear_active_cart] give such a table again. *)
Theorem active_cart_one_per_employee (now : Timezone.datetime)
    (req : request) (objects : list ActiveCart.t) :
  Table.keyed ActiveCart.id objects ->
  NoDup (map ActiveCart.employee_name objects) ->
  (Table.keyed ActiveCart.id (snd (save_active_cart now req objects)) /\
   NoDup (map ActiveCart.employee_name
              (snd (save_active_cart now req objects)))) /\
  (Table.keyed ActiveCart.id (snd (clear_active_cart req objects)) /\
   NoDup (map ActiveCart.employee_name
              (snd (clear_active_cart req objects)))).
Proof.
  intros Hkey Hnd. split; split.
  - now apply save_active_cart_keyed.
  - destruct (save_active_cart_cases now req objects Hkey)
      as [[_ ->]|[[Hget ->]|(before & cart & after & k & -> & Hk & Hn & _ & _ & ->)]];
      cbn [snd].
    + exact Hnd.
    + rewrite map_app. cbn [map ActiveCart.employee_name].
      apply NoDup_app. split; [exact Hnd|]. split; [|apply NoDup_singleton].
      intros name Hin Hin'. apply list_elem_of_In in Hin, Hin'.
      destruct Hin' as [<-|[]].
      apply in_map_iff in Hin as (cart & Hc & Hin).
      rewrite get_DoesNotExist in Hget. specialize (Hget cart Hin).
      apply of_employee_eq in Hc. congruence.
    + rewrite map_app in *. cbn [map ActiveCart.employee_name] in *.
      now rewrite <- Hn.
  - now apply keyed_filter.
  - cbn [clear_active_cart snd]. clear Hkey.
    induction objects as [|x objects IH]; [constructor|].
    cbn [map] in Hnd. apply NoDup_cons in Hnd as [Hx Hnd].
    cbn [List.filter]. destruct (negb _); [|now apply IH].
    cbn [map]. apply NoDup_cons. split; [|now apply IH].
    intros Hin. apply Hx. apply list_elem_of_In in Hin.
    apply list_elem_of_In. apply in_map_iff in Hin as (y & Hy & Hin).
    apply in_map_iff. exists y. split; [exact Hy|].
    apply filter_In in Hin. tauto.
Qed.

Lemma get_cleared name (objects : list ActiveCart.t) :
  QuerySet.get (of_employee name)
    (List.filter (fun cart => negb (of_employee name cart)) objects)
  = QuerySet.DoesNotExist.
Proof.
  apply get_DoesNotExist. intros x Hx. apply filter_In in Hx as [_ Hx].
  now apply negb_true_iff in Hx.
Qed.

(** X4. After [clear_active_cart] the employee has no cart, however many
    rows held the name: [load_active_cart] answers with the empty cart
    [{'items': []}], and a cart saved next is stored and loaded back. *)
Theorem active_cart_cleared_is_empty (now : Timezone.datetime)
    (req req' : request) (objects : list ActiveCart.t) :
  employee_of req' = employee_of req ->
  let cleared := snd (clear_active_cart req objects) in
  fst (clear_active_cart req objects) = Cleared /\
  (forall cart, In cart cleared ->
                ActiveCart.employee_name cart <> employee_of req) /\
  load_active_cart req' cleared = Loaded (cart_of (Json.Array [])) /\
  fst (save_active_cart now req' cleared) = Saved /\
  load_active_cart req (snd (save_active_cart now req' cleared))
  = Loaded (cart_of (items_of req')).
Proof.
  intros Hsame cleared. subst cleared. cbn [clear_active_cart fst snd].
  split; [reflexivity|]. split.
  { intros cart Hin Hname. apply filter_In in Hin as [_ Hin].
    apply negb_true_iff in Hin. apply of_employee_eq in Hname. congruence. }
  unfold load_active_cart, save_active_cart. rewrite Hsame, !get_cleared.
  split; [reflexivity|]. split; [reflexivity|].
  unfold ActiveCart.create, ActiveCart.save.
  rewrite Model_save_insert by reflexivity. cbn [snd].
  rewrite get_split with (r := ActiveCart.set_id _ _) (after := []).
  - reflexivity.
  - now apply of_employee_eq.
  - intros x Hx. apply filter_In in Hx as [_ Hx].
    now apply negb_true_iff in Hx.
  - intros x [].
Qed.

(** X5. The table does not keep the name unique, and the views fail
    exactly on a name that two rows hold: [save_active_cart] then fails
    without a write and [load_active_cart] fails too; in every other case
    both succeed. *)
Theorem active_cart_fails_on_duplicates (now : Timezone.datetime)
    (req : request) (objects : list ActiveCart.t) :
  let rows := List.filter (of_employee (employee_of req)) objects in
  (fst (save_active_cart now req objects) = Failure <-> (2 <= length rows)%nat) /\
  (load_active_cart req objects = Failure <-> (2 <= length rows)%nat) /\
  ((2 <= length rows)%nat -> snd (save_active_cart now req objects) = objects).
Proof.
  intros rows. subst rows. rewrite <- get_Multiple.
  unfold save_active_cart, load_active_cart.
  destruct (QuerySet.get _ objects); cbn [fst snd];
    repeat split; intros; try discriminate; reflexivity.
Qed.

End ActiveCartViews.

Section ParkedTicketViews.
Import Spec CartViews Parking.
Local Open Scope string_scope.
Local Open Scope list_scope.
Local Open Scope Z_scope.

(** ** The views of the parked tickets *)

(** The object that [park_ticket] creates. *)
Lemma park_ticket_Parked now req db ticket db' :
  park_ticket now req db = (Parked ticket, db') ->
  Json.truthy (items_of req) = true /\
  exists number,
    ticket = ParkedTicket.mk (Some (Orm.fresh_pk ParkedTicket.id (tickets db)))
               number (employee_of req) (default "" (notes req))
               (Timezone.timestamp now) (Some (Timezone.timestamp now + 86400)) /\
    ~ In number (map ParkedTicket.ticket_number (tickets db)) /\
    db' = {| tickets := tickets db ++ [ticket];
             cart_data := <[Orm.fresh_pk ParkedTicket.id (tickets db) :=
                              cart_of (items_of req)]> (cart_data db) |}.
Proof.
  unfold park_ticket. destruct (Json.truthy (items_of req)); cbn [negb];
    [|discriminate].
  destruct (ParkedTicket.save _ _ _) as [[t tickets']|] eqn:Hsave;
    [|discriminate].
  unfold ParkedTicket.save in Hsave.
  destruct (ParkedTicket.assign_number _ _ _) as [self1|] eqn:Ha;
    [|discriminate].
  cbn [mbind option_bind] in Hsave.
  assert (H1 : exists number,
             self1 = ParkedTicket.mk None number (employee_of req)
                       (default "" (notes req)) (Timezone.timestamp now) None).
  { unfold ParkedTicket.assign_number in Ha.
    cbn [ParkedTicket.ticket_number String.eqb] in Ha.
    destruct (greatest _) as [m|].
    - destruct (int_of_str _); [|discriminate]. cbn [mbind option_bind] in Ha.
      injection Ha as <-. eexists. reflexivity.
    - cbn [mbind option_bind] in Ha. injection Ha as <-. eexists. reflexivity. }
  destruct H1 as [number ->].
  cbn [ParkedTicket.expires_at ParkedTicket.set_expires_at ParkedTicket.id
       ParkedTicket.ticket_number ParkedTicket.employee_name
       ParkedTicket.notes ParkedTicket.created_at] in Hsave.
  apply (unique_insert_inv ParkedTicket.id ParkedTicket.set_id
           ParkedTicket.ticket_number) in Hsave as (Hnew & -> & ->);
    [|reflexivity].
  cbn [ParkedTicket.set_id ParkedTicket.id ParkedTicket.ticket_number
       ParkedTicket.employee_name ParkedTicket.notes ParkedTicket.created_at
       ParkedTicket.expires_at] in *.
  intros [= <- <-]. split; [reflexivity|]. exists number.
  unfold Timezone.plus_24_hours. change (24 * 3600) with 86400.
  split; [reflexivity|]. split; [exact Hnew|reflexivity].
Qed.


Lemma get_inserted (objects : list ParkedTicket.t) self :
  QuerySet.get
    (Orm.has_pk ParkedTicket.id (Orm.fresh_pk ParkedTicket.id objects))
    (objects ++ [ParkedTicket.set_id (Orm.fresh_pk ParkedTicket.id objects) self])
  = QuerySet.Found
      (ParkedTicket.set_id (Orm.fresh_pk ParkedTicket.id objects) self).
Proof.
  apply get_split.
  - apply has_pk_iff. reflexivity.
  - intros x Hx. now apply has_pk_fresh.
  - intros x [].
Qed.

(** X7. A parked cart comes back: on a well-formed database, the ticket
    that [park_ticket] returns is recovered by [recover_parked_ticket]
    under its id at any time up to its expiry, the response carries the
    cart [{'items': items}] that was parked, and the database is again
    what it was before the ticket was parked. *)
Theorem parked_ticket_recovered (now now' : Timezone.datetime)
    (req : request) (db db1 : database) (ticket : ParkedTicket.t) (k : Z) :
  well_formed db ->
  park_ticket now req db = (Parked ticket, db1) ->
  ParkedTicket.id ticket = Some k ->
  Timezone.timestamp now' <= Timezone.timestamp now + 86400 ->
  recover_parked_ticket now' k db1
  = (Recovered (cart_of (items_of req)), db).
Proof.
  intros (_ & _ & Hdom) Hpark Hk Hnow.
  apply park_ticket_Parked in Hpark as (_ & number & -> & _ & ->).
  cbn [ParkedTicket.id] in Hk. injection Hk as <-.
  unfold recover_parked_ticket. cbn [tickets cart_data].
  set (self := ParkedTicket.mk None number (employee_of req)
                 (default "" (notes req)) (Timezone.timestamp now)
                 (Some (Timezone.timestamp now + 86400))).
  change (ParkedTicket.mk (Some _) number _ _ _ _)
    with (ParkedTicket.set_id (Orm.fresh_pk ParkedTicket.id (tickets db)) self).
  rewrite get_inserted.
  unfold is_expired. cbn [ParkedTicket.expires_at ParkedTicket.set_id self
                          mbind option_bind].
  replace (_ <? _) with false by (symmetry; apply Z.ltb_ge; lia).
  rewrite lookup_insert_eq. cbn [default].
  rewrite (delete_inserted ParkedTicket.id ParkedTicket.set_id)
    by reflexivity.
  rewrite delete_insert_id.
  - destruct db; reflexivity.
  - destruct (cart_data db !! _) eqn:E; [|reflexivity].
    exfalso. apply (fresh_pk_new ParkedTicket.id (tickets db)).
    apply Hdom. now rewrite E.
Qed.

Lemma Model_delete_filter (objects : list ParkedTicket.t) ticket k :
  ParkedTicket.id ticket = Some k ->
  Orm.Model_delete ParkedTicket.id objects ticket
  = List.filter (fun r => negb (Orm.has_pk ParkedTicket.id k r)) objects.
Proof. intros H. unfold Orm.Model_delete. now rewrite H. Qed.

(** X8. The expiry decides the recovery, and the comparison is strict: a
    ticket of a keyed table is recovered (its cart returned, its row and no
    other deleted) at every time up to and including [expires_at]; after
    it the view answers that the ticket has expired and keeps the ticket. *)
Theorem recover_respects_expiry (now : Timezone.datetime) (db : database)
    (ticket : ParkedTicket.t) (k expires : Z) :
  Table.keyed ParkedTicket.id (tickets db) ->
  In ticket (tickets db) ->
  ParkedTicket.id ticket = Some k ->
  ParkedTicket.expires_at ticket = Some expires ->
  if expires <? Timezone.timestamp now then
    recover_parked_ticket now k db
    = (Expired (ParkedTicket.ticket_number ticket), db)
  else
    exists db',
      recover_parked_ticket now k db
      = (Recovered (default Json.Null (cart_data db !! k)), db') /\
      ~ In ticket (tickets db') /\
      (forall other, other <> ticket ->
                     (In other (tickets db') <-> In other (tickets db))).
Proof.
  intros Hkey Hin Hk He. unfold recover_parked_ticket.
  rewrite (get_by_pk ParkedTicket.id _ ticket k Hkey Hin Hk).
  unfold is_expired. rewrite He. cbn [mbind option_bind].
  destruct (expires <? Timezone.timestamp now); [reflexivity|].
  eexists. split; [reflexivity|]. cbn [tickets].
  rewrite (Model_delete_filter _ _ k Hk). split.
  - intros H. apply filter_In in H as [_ H].
    rewrite (proj2 (has_pk_iff ParkedTicket.id k ticket) Hk) in H.
    discriminate.
  - intros other Hne. rewrite filter_In. split; [tauto|].
    intros Ho. split; [exact Ho|]. apply negb_true_iff.
    destruct (keyed_split ParkedTicket.id _ ticket k Hkey Hin Hk)
      as (before & after & E & Hb & Ha).
    rewrite E in Ho. apply in_app_or in Ho as [Ho|[Ho|Ho]];
      [now apply Hb|congruence|now apply Ha].
Qed.

(** X9. A ticket is recovered once: after a recovery its id names no
    ticket, and [recover_parked_ticket] fails under an id that no row has
    (the caught 404), leaving the database as it is. *)
Theorem recover_only_once (now now' : Timezone.datetime) (db db' : database)
    (k : Z) (cart : Json.value) :
  ((forall ticket, In ticket (tickets db) -> ParkedTicket.id ticket <> Some k) ->
   recover_parked_ticket now k db = (Failure, db)) /\
  (recover_parked_ticket now k db = (Recovered cart, db') ->
   recover_parked_ticket now' k db' = (Failure, db')).
Proof.
  assert (Hmiss : forall now db,
            (forall ticket, In ticket (tickets db) ->
                            ParkedTicket.id ticket <> Some k) ->
            recover_parked_ticket now k db = (Failure, db)).
  { intros n d H. unfold recover_parked_ticket.
    replace (QuerySet.get _ _) with (@QuerySet.DoesNotExist ParkedTicket.t);
      [reflexivity|].
    symmetry. apply get_DoesNotExist. intros x Hx.
    destruct (Orm.has_pk ParkedTicket.id k x) eqn:E; [|reflexivity].
    apply has_pk_iff in E. now apply H in Hx. }
  split; [apply Hmiss|].
  unfold recover_parked_ticket at 1.
  destruct (QuerySet.get _ _) as [| |ticket] eqn:Hget; try discriminate.
  destruct (is_expired now ticket) as [[|]|]; try discriminate.
  intros [= _ <-]. apply Hmiss. cbn [tickets].
  apply get_Found in Hget as (_ & _ & _ & Hk & _).
  apply has_pk_iff in Hk. rewrite (Model_delete_filter _ _ k Hk).
  intros other Ho Hid. apply filter_In in Ho as [_ Ho].
  rewrite (proj2 (has_pk_iff ParkedTicket.id k other) Hid) in Ho.
  discriminate.
Qed.

(** *** The list of the tickets *)

Lemma insert_by_created_at_perm ticket sorted :
  Permutation (insert_by_created_at ticket sorted) (ticket :: sorted).
Proof.
  induction sorted as [|x rest IH]; cbn [insert_by_created_at]; [reflexivity|].
  destruct (_ <? _); [reflexivity|].
  rewrite IH. apply perm_swap.
Qed.

Lemma order_by_created_at_perm objects :
  Permutation (order_by_created_at objects) objects.
Proof.
  unfold order_by_created_at.
  induction objects as [|x rest IH]; cbn [fold_right]; [reflexivity|].
  rewrite insert_by_created_at_perm. now constructor.
Qed.

Lemma insert_by_created_at_sorted ticket sorted :
  StronglySorted newest_first sorted ->
  StronglySorted newest_first (insert_by_created_at ticket sorted).
Proof.
  induction sorted as [|x rest IH]; intros Hs; cbn [insert_by_created_at].
  - constructor; constructor.
  - inversion Hs as [|? ? Hrest Hx]; subst.
    destruct (_ <? _) eqn:E.
    + apply Z.ltb_lt in E. constructor; [exact Hs|].
      constructor; [unfold newest_first; lia|].
      rewrite Forall_forall in Hx. apply Forall_forall. intros y Hy.
      apply list_elem_of_In in Hy. specialize (Hx y).
      unfold newest_first in *.
      assert (ParkedTicket.created_at y <= ParkedTicket.created_at x)
        by (apply Hx; now apply list_elem_of_In).
      lia.
    + apply Z.ltb_ge in E. constructor; [now apply IH|].
      apply Forall_forall. intros y Hy. apply list_elem_of_In in Hy.
      apply (Permutation_in _ (insert_by_created_at_perm ticket rest)) in Hy.
      destruct Hy as [<-|Hy]; [exact E|].
      rewrite Forall_forall in Hx. apply Hx. now apply list_elem_of_In.
Qed.

Lemma order_by_created_at_sorted objects :
  StronglySorted newest_first (order_by_created_at objects).
Proof.
  unfold order_by_created_at.
  induction objects as [|x rest IH]; cbn [fold_right]; [constructor|].
  now apply insert_by_created_at_sorted.
Qed.

(** The entries of tickets whose items can be counted. *)
Lemma active_entries now db objects :
  (forall t, In t objects -> ParkedTicket.expires_at t <> None) ->
  (forall t, In t objects -> unexpired now t = true ->
             item_count db t <> None) ->
  exists entries,
    active now db objects = Some entries /\
    map fst entries = List.filter (unexpired now) objects /\
    (forall t count, In (t, count) entries -> item_count db t = Some count).
Proof.
  induction objects as [|x rest IH]; intros He Hc.
  - exists []. repeat split. intros t count [].
  - destruct IH as (entries & Ha & Hm & Hn).
    { intros t Ht. apply He. now right. }
    { intros t Ht. apply Hc. now right. }
    cbn [active List.filter]. unfold unexpired at 1.
    destruct (is_expired now x) as [[|]|] eqn:E; cbn [mbind option_bind].
    + exists entries. auto.
    + destruct (item_count db x) as [n|] eqn:En.
      * cbn [mbind option_bind]. rewrite Ha. cbn [mbind option_bind].
        exists ((x, n) :: entries). split; [reflexivity|].
        split; [cbn [map fst]; now rewrite Hm|].
        intros t count [[= <- <-]|Hin]; [exact En|now apply Hn].
      * exfalso. apply (Hc x); [now left| |exact En].
        unfold unexpired. now rewrite E.
    + exfalso. unfold is_expired in E.
      destruct (ParkedTicket.expires_at x) eqn:Ex; [discriminate|].
      now apply (He x); [left|].
Qed.

(** The loop fails on a ticket without an expiry and on a ticket that has
    not expired and whose items cannot be counted. *)
Lemma active_None now db objects ticket :
  In ticket objects ->
  ParkedTicket.expires_at ticket = None \/
  (unexpired now ticket = true /\ item_count db ticket = None) ->
  active now db objects = None.
Proof.
  induction objects as [|x rest IH]; intros Hin Hc; [destruct Hin|].
  cbn [active]. destruct Hin as [->|Hin].
  - destruct Hc as [He|[Hu Hn]].
    + unfold is_expired. now rewrite He.
    + unfold unexpired in Hu.
      destruct (is_expired now ticket) as [[|]|]; try discriminate.
      cbn [mbind option_bind]. now rewrite Hn.
  - specialize (IH Hin Hc).
    destruct (is_expired now x) as [[|]|]; cbn [mbind option_bind];
      [exact IH| |reflexivity].
    destruct (item_count db x); cbn [mbind option_bind]; [|reflexivity].
    now rewrite IH.
Qed.

Lemma filter_sorted {A} (R : A -> A -> Prop) (f : A -> bool) l :
  StronglySorted R l -> StronglySorted R (List.filter f l).
Proof.
  induction 1 as [|x l Hs IH Hx]; cbn [List.filter]; [constructor|].
  destruct (f x); [|exact IH]. constructor; [exact IH|].
  rewrite Forall_forall in Hx. apply Forall_forall. intros y Hy.
  apply Hx. apply list_elem_of_In in Hy. apply list_elem_of_In.
  apply filter_In in Hy. tauto.
Qed.

Lemma filter_perm {A} (f : A -> bool) l l' :
  Permutation l l' -> Permutation (List.filter f l) (List.filter f l').
Proof.
  induction 1 as [|x l l' _ IH|x y l|l l' l'' _ IH1 _ IH2]; cbn [List.filter].
  - constructor.
  - destruct (f x); [now constructor|exact IH].
  - destruct (f x), (f y); try reflexivity. apply perm_swap.
  - now transitivity (List.filter f l').
Qed.

(** X10. [parked_tickets_list] lists the tickets that have not expired at
    the time of the call, each as often as the table holds it and no other,
    newest first, each with the number of the items of its cart, and counts
    them; one ticket without an expiry, or one ticket that has not expired
    and whose items cannot be counted, makes the whole view fail. *)
Theorem parked_tickets_list_unexpired (now : Timezone.datetime)
    (db : database) :
  ((forall ticket, In ticket (tickets db) ->
                   ParkedTicket.expires_at ticket <> None) ->
   (forall ticket, In ticket (tickets db) -> unexpired now ticket = true ->
                   item_count db ticket <> None) ->
   exists entries,
     parked_tickets_list now db = Listed entries (length entries) /\
     Permutation (map fst entries)
                 (List.filter (unexpired now) (tickets db)) /\
     StronglySorted newest_first (map fst entries) /\
     (forall ticket count, In (ticket, count) entries ->
                           item_count db ticket = Some count) /\
     (forall ticket expires,
        ParkedTicket.expires_at ticket = Some expires ->
        (In ticket (map fst entries) <->
         In ticket (tickets db) /\ Timezone.timestamp now <= expires))) /\
  (forall ticket, In ticket (tickets db) ->
                  ParkedTicket.expires_at ticket = None \/
                  (unexpired now ticket = true /\
                   item_count db ticket = None) ->
                  parked_tickets_list now db = Failure).
Proof.
  split.
  - intros Hall Hcount. unfold parked_tickets_list.
    destruct (active_entries now db (order_by_created_at (tickets db)))
      as (entries & -> & Hm & Hn).
    { intros t Ht. apply Hall.
      now apply (Permutation_in _ (order_by_created_at_perm (tickets db))). }
    { intros t Ht. apply Hcount.
      now apply (Permutation_in _ (order_by_created_at_perm (tickets db))). }
    exists entries. split; [reflexivity|].
    assert (Hp : Permutation (map fst entries)
                   (List.filter (unexpired now) (tickets db)))
      by (rewrite Hm; apply filter_perm, order_by_created_at_perm).
    split; [exact Hp|].
    split; [rewrite Hm; apply filter_sorted, order_by_created_at_sorted|].
    split; [exact Hn|].
    intros ticket expires He. split.
    + intros Hin. apply (Permutation_in _ Hp) in Hin.
      apply filter_In in Hin as [Hin Hu]. split; [exact Hin|].
      unfold unexpired, is_expired in Hu. rewrite He in Hu.
      cbn [mbind option_bind] in Hu.
      destruct (expires <? _) eqn:E; [discriminate|]. now apply Z.ltb_ge in E.
    + intros [Hin Hle]. apply (Permutation_in _ (Permutation_sym Hp)).
      apply filter_In. split; [exact Hin|].
      unfold unexpired, is_expired. rewrite He. cbn [mbind option_bind].
      replace (_ <? _) with false; [reflexivity|].
      symmetry. apply Z.ltb_ge. exact Hle.
  - intros ticket Hin Hc. unfold parked_tickets_list.
    rewrite (active_None now db _ ticket); [reflexivity| |exact Hc].
    apply (Permutation_in _ (Permutation_sym (order_by_created_at_perm _))).
    exact Hin.
Qed.

(** X25. [park_ticket] takes any items that are truthy: a cart whose items
    have no length (a number, [true]) is parked, and from then on, until
    the ticket expires, [parked_tickets_list] fails for every ticket of
    the table. *)
Theorem parked_items_without_length_break_the_list
    (now now' : Timezone.datetime) (req : request) (db db' : database)
    (ticket : ParkedTicket.t) :
  park_ticket now req db = (Parked ticket, db') ->
  Json.len (items_of req) = None ->
  Timezone.timestamp now' <= Timezone.timestamp now + 86400 ->
  parked_tickets_list now' db' = Failure.
Proof.
  intros Hpark Hlen Hnow.
  apply park_ticket_Parked in Hpark as (_ & number & -> & _ & ->).
  unfold parked_tickets_list. cbn [tickets].
  match goal with
  | |- context [active _ ?d (order_by_created_at (_ ++ [?t]))] =>
      rewrite (active_None now' d _ t)
  end; [reflexivity| |right].
  - apply (Permutation_in _ (Permutation_sym (order_by_created_at_perm _))).
    apply in_or_app. right. now left.
  - split.
    + unfold unexpired, is_expired.
      cbn [ParkedTicket.expires_at mbind option_bind].
      replace (_ <? _) with false; [reflexivity|].
      symmetry. apply Z.ltb_ge. exact Hnow.
    + unfold item_count, cart_data_of.
      cbn [ParkedTicket.id cart_data mbind option_bind].
      rewrite lookup_insert_eq.
      cbn [default cart_of Json.get Json.lookup String.eqb Ascii.eqb
           Bool.eqb mbind option_bind].
      exact Hlen.
Qed.

Lemma park_ticket_unchanged now req db r db' :
  park_ticket now req db = (r, db') ->
  db' = db \/ exists ticket, r = Parked ticket.
Proof.
  unfold park_ticket. destruct (negb _); [intros [= <- <-]; now left|].
  destruct (ParkedTicket.save _ _ _) as [[t ts]|];
    [destruct (ParkedTicket.id t)|]; intros [= <- <-]; eauto.
Qed.

(** X11. The views keep the database well formed: after [park_ticket] and
    after [recover_parked_ticket], whatever their outcome, the rows are
    keyed, the ticket numbers are pairwise different and every stored cart
    belongs to a row. *)
Theorem parking_keeps_well_formed (now : Timezone.datetime) (req : request)
    (k : Z) (db : database) :
  well_formed db ->
  well_formed (snd (park_ticket now req db)) /\
  well_formed (snd (recover_parked_ticket now k db)).
Proof.
  intros Hwf. split.
  - destruct (park_ticket now req db) as [r db'] eqn:Hpark.
    destruct (park_ticket_unchanged _ _ _ _ _ Hpark) as [->|[ticket ->]];
      [exact Hwf|].
    apply park_ticket_Parked in Hpark as (_ & number & -> & Hnew & ->).
    destruct Hwf as (Hkey & Hnd & Hdom). cbn [snd].
    split; [|split]; cbn [tickets cart_data].
    + refine (keyed_snoc ParkedTicket.id _ _
                (Orm.fresh_pk ParkedTicket.id (tickets db)) Hkey _ _);
        [reflexivity|apply fresh_pk_new].
    + rewrite map_app. cbn [map ParkedTicket.ticket_number].
      apply NoDup_app. split; [exact Hnd|]. split; [|apply NoDup_singleton].
      intros n Hn Hn'. apply list_elem_of_In in Hn, Hn'.
      destruct Hn' as [<-|[]]. now apply Hnew.
    + intros k' Hk'. rewrite pks_app. apply in_or_app.
      destruct (Z.eq_dec k' (Orm.fresh_pk ParkedTicket.id (tickets db)))
        as [->|Hne].
      * right. now left.
      * left. apply Hdom. now rewrite lookup_insert_ne in Hk' by congruence.
  - unfold recover_parked_ticket.
    destruct (QuerySet.get _ _) as [| |ticket] eqn:Hget; try exact Hwf.
    destruct (is_expired now ticket) as [[|]|]; try exact Hwf.
    apply get_Found in Hget as (_ & _ & _ & Hk & _). apply has_pk_iff in Hk.
    destruct Hwf as (Hkey & Hnd & Hdom). cbn [snd].
    split; [|split]; cbn [tickets cart_data];
      rewrite ?(Model_delete_filter _ _ k Hk).
    + now apply keyed_filter.
    + clear -Hnd. induction (tickets db) as [|x l IH]; [constructor|].
      cbn [map] in Hnd. apply NoDup_cons in Hnd as [Hx Hnd].
      cbn [List.filter]. destruct (negb _); [|now apply IH].
      cbn [map]. apply NoDup_cons. split; [|now apply IH].
      intros Hin. apply Hx. apply list_elem_of_In in Hin.
      apply list_elem_of_In. apply in_map_iff in Hin as (y & Hy & Hin).
      apply in_map_iff. exists y. split; [exact Hy|].
      apply filter_In in Hin. tauto.
    + intros k' Hk'. destruct (Z.eq_dec k' k) as [->|Hne].
      * rewrite lookup_delete_eq in Hk'. destruct Hk' as [? [=]].
      * rewrite lookup_delete_ne in Hk' by congruence.
        apply Hdom in Hk'. apply pks_In in Hk' as (r & Hr & Hrk).
        apply pks_In. exists r. split; [|exact Hrk].
        apply filter_In. split; [exact Hr|]. apply negb_true_iff.
        destruct (Orm.has_pk ParkedTicket.id k r) eqn:E; [|reflexivity].
        apply has_pk_iff in E. congruence.
Qed.

End ParkedTicketViews.

Section SettingsViews.
Local Open Scope string_scope.
Local Open Scope list_scope.
Local Open Scope Z_scope.

(** ** The settings of the plugin *)

(** The two outcomes of [get_config] on a keyed table. *)
Lemma get_config_cases now objects :
  Table.keyed SalesConfig.id objects ->
  (exists before config after,
     objects = before ++ config :: after /\
     SalesConfig.id config = Some 1 /\
     (forall x, In x before -> Orm.has_pk SalesConfig.id 1 x = false) /\
     (forall x, In x after -> Orm.has_pk SalesConfig.id 1 x = false) /\
     SalesConfig.get_config now objects = Some (config, objects)) \/
  ((forall x, In x objects -> Orm.has_pk SalesConfig.id 1 x = false) /\
   SalesConfig.get_config now objects
   = Some (SalesConfig.new 1 now, objects ++ [SalesConfig.new 1 now])).
Proof.
  intros Hkey. unfold SalesConfig.get_config.
  destruct (QuerySet.get _ objects) as [| |config] eqn:Hget.
  - right. pose proof (proj1 (get_DoesNotExist _ _) Hget) as Hnone. clear Hget. rename Hnone into Hget. split; [exact Hget|].
    unfold Orm.Model_save. cbn [SalesConfig.new SalesConfig.id].
    replace (existsb _ objects) with false; [reflexivity|].
    symmetry. apply not_true_is_false. intros H.
    apply existsb_exists in H as (x & Hx & H). rewrite (Hget x Hx) in H.
    discriminate.
  - exfalso. apply get_Multiple in Hget.
    destruct (List.filter _ objects) as [|a [|b l]] eqn:Hf;
      cbn [length] in Hget; try lia.
    assert (Ha : In a objects /\ Orm.has_pk SalesConfig.id 1 a = true)
      by (apply filter_In; rewrite Hf; now left).
    destruct Ha as [Ha Hka]. apply has_pk_iff in Hka.
    pose proof (get_by_pk SalesConfig.id objects a 1 Hkey Ha Hka) as Hg.
    unfold QuerySet.get in Hg. rewrite Hf in Hg. discriminate.
  - left. apply get_Found in Hget as (before & after & -> & Hc & Hb & Ha).
    exists before, config, after. apply has_pk_iff in Hc. auto.
Qed.

(** X12. [get_config] keeps one row of settings under the key 1: on a
    keyed table it returns the row of key 1; when there is none it appends
    one with the defaults (cash, card, discounts and parked tickets
    allowed, transfer and the required customer off), and a second call
    returns the same row without a write. *)
Theorem get_config_singleton (now now' : Timezone.datetime)
    (objects : list SalesConfig.t) :
  Table.keyed SalesConfig.id objects ->
  exists config objects',
    SalesConfig.get_config now objects = Some (config, objects') /\
    SalesConfig.id config = Some 1 /\
    In config objects' /\
    Table.keyed SalesConfig.id objects' /\
    SalesConfig.get_config now' objects' = Some (config, objects') /\
    (In config objects /\ objects' = objects \/
     (forall x, In x objects -> SalesConfig.id x <> Some 1) /\
     config = SalesConfig.mk (Some 1) true true false false true true
                (Timezone.timestamp now) (Timezone.timestamp now) /\
     objects' = objects ++ [config]).
Proof.
  intros Hkey.
  destruct (get_config_cases now objects Hkey)
    as [(before & config & after & -> & Hid & Hb & Ha & ->)|[Hnone ->]].
  - exists config, (before ++ config :: after).
    assert (Hin : In config (before ++ config :: after))
      by (apply in_or_app; right; now left).
    split; [reflexivity|]. split; [exact Hid|]. split; [exact Hin|].
    split; [exact Hkey|]. split; [|left; auto].
    unfold SalesConfig.get_config.
    rewrite (get_split _ before config after); auto.
    now apply has_pk_iff.
  - exists (SalesConfig.new 1 now), (objects ++ [SalesConfig.new 1 now]).
    assert (Hnew : ~ In 1 (Orm.pks SalesConfig.id objects)).
    { intros Hin. apply pks_In in Hin as (r & Hr & Hk).
      apply has_pk_iff in Hk. rewrite (Hnone r Hr) in Hk. discriminate. }
    split; [reflexivity|]. split; [reflexivity|].
    split; [apply in_or_app; right; now left|].
    split; [now apply (keyed_snoc SalesConfig.id _ _ 1 Hkey)|].
    split.
    + unfold SalesConfig.get_config.
      rewrite (get_split _ objects (SalesConfig.new 1 now) []); auto.
      intros x [].
    + right. split; [|split; reflexivity].
      intros x Hx Hk. apply has_pk_iff in Hk. rewrite (Hnone x Hx) in Hk.
      discriminate.
Qed.

(** X13. [settings_save] overwrites all six flags: each one gets the value
    of the body, and a flag whose key is absent from the body is reset to
    its default whatever the table held; the row of key 1 is the only one
    written, and [get_config] reads the saved flags back. *)
Theorem settings_save_overwrites (now now' : Timezone.datetime)
    (data : Settings.request) (objects : list SalesConfig.t) :
  Table.keyed SalesConfig.id objects ->
  exists config objects',
    Settings.settings_save now data objects = (true, objects') /\
    Table.keyed SalesConfig.id objects' /\
    SalesConfig.get_config now' objects' = Some (config, objects') /\
    SalesConfig.allow_cash config = default true (Settings.allow_cash data) /\
    SalesConfig.allow_card config = default true (Settings.allow_card data) /\
    SalesConfig.allow_transfer config
    = default false (Settings.allow_transfer data) /\
    SalesConfig.require_customer config
    = default false (Settings.require_customer data) /\
    SalesConfig.allow_discounts config
    = default true (Settings.allow_discounts data) /\
    SalesConfig.enable_parked_tickets config
    = default true (Settings.enable_parked_tickets data) /\
    SalesConfig.updated_at config = Timezone.timestamp now /\
    (forall r, SalesConfig.id r <> Some 1 ->
               (In r objects' <-> In r objects)).
Proof.
  intros Hkey. unfold Settings.settings_save.
  destruct (get_config_cases now objects Hkey)
    as [(before & config & after & -> & Hid & Hb & Ha & ->)|[Hnone ->]].
  - unfold SalesConfig.save.
    cbn [SalesConfig.id SalesConfig.allow_cash SalesConfig.allow_card
         SalesConfig.allow_transfer SalesConfig.require_customer
         SalesConfig.allow_discounts SalesConfig.enable_parked_tickets
         SalesConfig.created_at SalesConfig.updated_at].
    set (self := SalesConfig.mk _ _ _ _ _ _ _ _ _).
    rewrite (Model_save_update SalesConfig.id SalesConfig.set_id _ before
               config after self 1 eq_refl Hid Hid Hb Ha).
    subst self. cbn [snd]. eexists. eexists. split; [reflexivity|].
    split; [refine (keyed_replace SalesConfig.id before config _ after 1 Hid _ Hkey);
            exact Hid|].
    split.
    { unfold SalesConfig.get_config. rewrite (get_split _ before _ after); auto.
      apply has_pk_iff. exact Hid. }
    repeat (split; [reflexivity|]).
    intros r Hr. rewrite !in_app_iff. cbn [In].
    split; (intros [H|[H|H]]; [now left| |now right; right]); subst r;
      cbn [SalesConfig.id] in Hr; congruence.
  - unfold SalesConfig.save.
    cbn [SalesConfig.id SalesConfig.new SalesConfig.allow_cash
         SalesConfig.allow_card SalesConfig.allow_transfer
         SalesConfig.require_customer SalesConfig.allow_discounts
         SalesConfig.enable_parked_tickets SalesConfig.created_at
         SalesConfig.updated_at].
    set (self := SalesConfig.mk _ _ _ _ _ _ _ _ _).
    rewrite (Model_save_update SalesConfig.id SalesConfig.set_id _ objects
               (SalesConfig.new 1 now) [] self 1 eq_refl eq_refl eq_refl Hnone)
      by (intros x []).
    subst self. cbn [snd]. eexists. eexists. split; [reflexivity|].
    assert (Hnew : ~ In 1 (Orm.pks SalesConfig.id objects)).
    { intros Hin. apply pks_In in Hin as (r & Hr & Hk).
      apply has_pk_iff in Hk. rewrite (Hnone r Hr) in Hk. discriminate. }
    split; [now apply (keyed_snoc SalesConfig.id _ _ 1 Hkey)|].
    split.
    { unfold SalesConfig.get_config. rewrite (get_split _ objects _ []); auto.
      intros x []. }
    repeat (split; [reflexivity|]).
    intros r Hr. rewrite !in_app_iff. cbn [In].
    split; [intros [H|[H|[]]]; [exact H|subst r; now destruct Hr]|now left].
Qed.

End SettingsViews.

Section NumbersPastLimit.
Import Spec.
Local Open Scope string_scope.
Local Open Scope list_scope.
Local Open Scope Z_scope.

(** ** The numbering past 9999 *)

Lemma format_04d_10000 : format_04d 10000 = "10000".
Proof. vm_compute. reflexivity. Qed.

Lemma format_04d_9999 : format_04d 9999 = "9999".
Proof. vm_compute. reflexivity. Qed.

(** With five digits the order of the strings is no longer the order of
    the numbers: 10000 sorts below 9999. *)
Lemma document_number_10000_lt prefix today :
  String.compare (document_number prefix today 10000)
                 (document_number prefix today 9999) = Lt.
Proof.
  rewrite !document_number_stem, compare_append_cancel.
  rewrite format_04d_10000, format_04d_9999. reflexivity.
Qed.

Lemma compare_lt_leb a b : String.compare a b = Lt -> String.leb a b = true.
Proof. intros H. apply string_ltb_leb. unfold String.ltb. now rewrite H. Qed.

Lemma greatest_is_9999 prefix today existing :
  issued_numbers prefix today 10000 existing ->
  In (document_number prefix today 9999) existing ->
  greatest (List.filter (String.prefix (prefix ++ "-" ++ today)) existing)
  = Some (document_number prefix today 9999).
Proof.
  intros Hiss Hin. apply greatest_with_prefix_query. cbn [greatest_with_prefix].
  split; [exact Hin|]. split; [apply document_number_prefix|].
  intros n Hn Hp. destruct (Hiss n Hn Hp) as (k & Hk & ->).
  destruct (Z.eq_dec k 10000) as [->|H1];
    [apply compare_lt_leb, document_number_10000_lt|].
  destruct (Z.eq_dec k 9999) as [->|H2]; [apply string_leb_refl|].
  apply compare_lt_leb, document_number_lt; lia.
Qed.

Section UniqueColumn.
Context {row : Type}.
Variable pk : row -> option Z.
Variable set_pk : Z -> row -> row.
Variable column : row -> string.
Hypothesis pk_set_pk : forall k r, pk (set_pk k r) = Some k.
Hypothesis column_set_pk : forall k r, column (set_pk k r) = column r.

(** An INSERT whose value of the unique column is in the table is
    refused. *)
Lemma unique_insert_refused objects self :
  pk self = None ->
  In (column self) (map column objects) ->
  Orm.Model_save_unique pk set_pk column objects self = None.
Proof.
  intros Hpk Hin. unfold Orm.Model_save_unique. rewrite Hpk.
  replace (existsb _ objects) with true; [reflexivity|].
  symmetry. apply existsb_exists. apply in_map_iff in Hin as (r & Hr & Hin).
  exists r. split; [exact Hin|]. cbn [andb]. now apply String.eqb_eq.
Qed.

Lemma NoDup_add_last {A} (l : list A) x : NoDup l -> ~ In x l -> NoDup (l ++ [x]).
Proof.
  intros Hnd Hx. apply NoDup_app. split; [exact Hnd|].
  split; [|apply NoDup_singleton].
  intros y Hy Hy'. apply list_elem_of_In in Hy, Hy'.
  destruct Hy' as [<-|[]]. now apply Hx.
Qed.

(** A write that the unique column lets through keeps the table keyed and
    the values of the column pairwise different. *)
Lemma Model_save_unique_keeps objects self self' objects' :
  Table.keyed pk objects ->
  NoDup (map column objects) ->
  Orm.Model_save_unique pk set_pk column objects self = Some (self', objects') ->
  Table.keyed pk objects' /\ NoDup (map column objects') /\
  In self' objects' /\ column self' = column self.
Proof.
  intros Hkey Hnd. unfold Orm.Model_save_unique.
  destruct (existsb _ objects) eqn:He; [discriminate|].
  assert (Hother : forall r, In r objects ->
            match pk self with
            | Some k => negb (Orm.has_pk pk k r)
            | None => true
            end = true -> column r <> column self).
  { intros r Hr Ho Hc.
    assert (existsb (fun r =>
              match pk self with
              | Some k => negb (Orm.has_pk pk k r)
              | None => true
              end && String.eqb (column r) (column self)) objects = true).
    { apply existsb_exists. exists r. split; [exact Hr|].
      rewrite Ho. cbn [andb]. now apply String.eqb_eq. }
    congruence. }
  clear He. intros [= H]. revert H. unfold Orm.Model_save.
  destruct (pk self) as [k|] eqn:Hpk.
  - destruct (existsb (Orm.has_pk pk k) objects) eqn:He.
    + intros [= <- <-]. apply existsb_exists in He as (r & Hr & Hk).
      apply has_pk_iff in Hk.
      destruct (keyed_split pk objects r k Hkey Hr Hk)
        as (before & after & -> & Hb & Ha).
      fold (Table.replace pk k self (before ++ r :: after)).
      rewrite (replace_split pk k self before r after Hk Hb Ha).
      split; [exact (keyed_replace pk before r self after k Hk Hpk Hkey)|].
      split; [|split; [apply in_or_app; right; now left|reflexivity]].
      rewrite map_app in *. cbn [map] in *.
      apply NoDup_app in Hnd as (Hn1 & Hdis & Hn2).
      apply NoDup_cons in Hn2 as [_ Hn2].
      apply NoDup_app. split; [exact Hn1|]. split.
      * intros c Hc Hc'. apply list_elem_of_In in Hc'.
        destruct Hc' as [<-|Hc'].
        -- apply list_elem_of_In, in_map_iff in Hc as (x & Hx & Hin).
           apply (Hother x); [apply in_or_app; now left| |exact Hx].
           now rewrite (Hb x Hin).
        -- apply (Hdis c Hc). apply list_elem_of_In. now right.
      * apply NoDup_cons. split; [|exact Hn2].
        intros Hc. apply list_elem_of_In, in_map_iff in Hc as (x & Hx & Hin).
        apply (Hother x); [apply in_or_app; right; now right| |exact Hx].
        now rewrite (Ha x Hin).
    + intros [= <- <-].
      assert (Hnone : forall r, In r objects -> Orm.has_pk pk k r = false).
      { intros r Hr. destruct (Orm.has_pk pk k r) eqn:E; [|reflexivity].
        assert (existsb (Orm.has_pk pk k) objects = true)
          by (apply existsb_exists; now exists r).
        congruence. }
      split.
      * apply (keyed_snoc pk objects self k Hkey Hpk).
        intros Hin. apply pks_In in Hin as (r & Hr & Hk).
        apply has_pk_iff in Hk. rewrite (Hnone r Hr) in Hk. discriminate.
      * split; [|split; [apply in_or_app; right; now left|reflexivity]].
        rewrite map_app. cbn [map]. apply NoDup_add_last; [exact Hnd|].
        intros Hc. apply in_map_iff in Hc as (x & Hx & Hin).
        apply (Hother x Hin); [|exact Hx]. now rewrite (Hnone x Hin).
  - intros [= <- <-]. split; [now apply keyed_insert|].
    split; [|split; [apply in_or_app; right; now left|apply column_set_pk]].
    rewrite map_app. cbn [map]. rewrite column_set_pk.
    apply NoDup_add_last; [exact Hnd|].
    intros Hc. apply in_map_iff in Hc as (x & Hx & Hin).
    now apply (Hother x Hin).
Qed.

End UniqueColumn.

Lemma Sale_assign_number_kept today objects self self' :
  Sale.assign_number today objects self = Some self' ->
  Sale.id self' = Sale.id self /\
  (Sale.sale_number self <> "" -> self' = self) /\
  (Sale.sale_number self = "" ->
   exists seq, Sale.sale_number self'
               = ("SALE-" ++ today ++ "-" ++ format_04d seq)%string).
Proof.
  unfold Sale.assign_number.
  destruct (String.eqb_spec (Sale.sale_number self) "") as [E|E].
  - destruct (greatest _) as [m|].
    + destruct (int_of_str _) as [n|]; [|discriminate].
      cbn [mbind option_bind]. intros [= <-].
      split; [reflexivity|]. split; [congruence|]. intros _. eexists. reflexivity.
    + cbn [mbind option_bind]. intros [= <-].
      split; [reflexivity|]. split; [congruence|]. intros _. eexists. reflexivity.
  - intros [= <-]. split; [reflexivity|]. split; [reflexivity|congruence].
Qed.

Lemma ParkedTicket_assign_number_kept today objects self self' :
  ParkedTicket.assign_number today objects self = Some self' ->
  ParkedTicket.id self' = ParkedTicket.id self /\
  (ParkedTicket.ticket_number self <> "" -> self' = self) /\
  (ParkedTicket.ticket_number self = "" ->
   exists seq, ParkedTicket.ticket_number self'
               = ("PARK-" ++ today ++ "-" ++ format_04d seq)%string).
Proof.
  unfold ParkedTicket.assign_number.
  destruct (String.eqb_spec (ParkedTicket.ticket_number self) "") as [E|E].
  - destruct (greatest _) as [m|].
    + destruct (int_of_str _) as [n|]; [|discriminate].
      cbn [mbind option_bind]. intros [= <-].
      split; [reflexivity|]. split; [congruence|]. intros _. eexists. reflexivity.
    + cbn [mbind option_bind]. intros [= <-].
      split; [reflexivity|]. split; [congruence|]. intros _. eexists. reflexivity.
  - intros [= <-]. split; [reflexivity|]. split; [reflexivity|congruence].
Qed.

(** X14. The numbers of a table stay pairwise different and a number, once
    given, stays: a [save] of a sale or of a parked ticket that succeeds
    on a keyed table with pairwise different numbers gives such a table
    again and holds the saved object; an object that has a number keeps it,
    and one without gets [SALE-<today>-<seq>] (or [PARK-...]). *)
Theorem save_keeps_numbers_unique (now : Timezone.datetime)
    (sales sales' : list Sale.t) (sale sale' : Sale.t)
    (tickets tickets' : list ParkedTicket.t) (ticket ticket' : ParkedTicket.t) :
  (Table.keyed Sale.id sales ->
   NoDup (map Sale.sale_number sales) ->
   Sale.save now sales sale = Some (sale', sales') ->
   Table.keyed Sale.id sales' /\
   NoDup (map Sale.sale_number sales') /\
   In sale' sales' /\
   (Sale.sale_number sale <> "" ->
    Sale.sale_number sale' = Sale.sale_number sale) /\
   (Sale.sale_number sale = "" ->
    exists seq, Sale.sale_number sale'
                = ("SALE-" ++ Timezone.strftime_Ymd now ++ "-"
                   ++ format_04d seq)%string)) /\
  (Table.keyed ParkedTicket.id tickets ->
   NoDup (map ParkedTicket.ticket_number tickets) ->
   ParkedTicket.save now tickets ticket = Some (ticket', tickets') ->
   Table.keyed ParkedTicket.id tickets' /\
   NoDup (map ParkedTicket.ticket_number tickets') /\
   In ticket' tickets' /\
   (ParkedTicket.ticket_number ticket <> "" ->
    ParkedTicket.ticket_number ticket' = ParkedTicket.ticket_number ticket) /\
   (ParkedTicket.ticket_number ticket = "" ->
    exists seq, ParkedTicket.ticket_number ticket'
                = ("PARK-" ++ Timezone.strftime_Ymd now ++ "-"
                   ++ format_04d seq)%string)).
Proof.
  split.
  - intros Hkey Hnd. unfold Sale.save.
    destruct (Sale.assign_number _ _ _) as [s1|] eqn:Ha; [|discriminate].
    cbn [mbind option_bind]. intros Hs.
    apply (Model_save_unique_keeps Sale.id Sale.set_id Sale.sale_number)
      in Hs as (K & N & I & C); try assumption; try reflexivity.
    apply Sale_assign_number_kept in Ha as (_ & Hkeep & Hnew).
    repeat (split; [assumption|]). split.
    + intros Hn. rewrite C, stamp_sale_number. now rewrite (Hkeep Hn).
    + intros Hn. rewrite C, stamp_sale_number. now apply Hnew.
  - intros Hkey Hnd. unfold ParkedTicket.save.
    destruct (ParkedTicket.assign_number _ _ _) as [s1|] eqn:Ha; [|discriminate].
    cbn [mbind option_bind]. intros Hs.
    apply (Model_save_unique_keeps ParkedTicket.id ParkedTicket.set_id
             ParkedTicket.ticket_number)
      in Hs as (K & N & I & C); try assumption; try reflexivity.
    apply ParkedTicket_assign_number_kept in Ha as (_ & Hkeep & Hnew).
    repeat (split; [assumption|]).
    assert (E : ParkedTicket.ticket_number ticket'
                = ParkedTicket.ticket_number s1).
    { rewrite C. now destruct (ParkedTicket.expires_at s1). }
    split.
    + intros Hn. rewrite E. now rewrite (Hkeep Hn).
    + intros Hn. rewrite E. now apply Hnew.
Qed.

Lemma SALE_10000 today :
  ("SALE-" ++ today ++ "-10000")%string = document_number "SALE" today 10000.
Proof. unfold document_number. now rewrite format_04d_10000. Qed.

Lemma SALE_9999 today :
  ("SALE-" ++ today ++ "-9999")%string = document_number "SALE" today 9999.
Proof. unfold document_number. now rewrite format_04d_9999. Qed.

Lemma PARK_10000 today :
  ("PARK-" ++ today ++ "-10000")%string = document_number "PARK" today 10000.
Proof. unfold document_number. now rewrite format_04d_10000. Qed.

Lemma PARK_9999 today :
  ("PARK-" ++ today ++ "-9999")%string = document_number "PARK" today 9999.
Proof. unfold document_number. now rewrite format_04d_9999. Qed.

Lemma next_seq_9999 prefix today :
  next_seq (Some (document_number prefix today 9999)) = Some 10000.
Proof.
  cbn [next_seq]. rewrite document_number_suffix by lia. reflexivity.
Qed.

(** X15. The suffix has four digits and the query sorts strings: once the
    number 9999 of a day is in the table, the next sale is numbered
    [SALE-<today>-10000]; that number sorts below 9999, so every later
    sale of the day computes 10000 again and its INSERT is refused by the
    unique column.  The tickets behave alike. *)
Theorem numbering_stops_after_10000 (now : Timezone.datetime)
    (sales : list Sale.t) (sale : Sale.t)
    (tickets : list ParkedTicket.t) (ticket : ParkedTicket.t) :
  let today := Timezone.strftime_Ymd now in
  (issued_numbers "SALE" today 10000 (map Sale.sale_number sales) ->
   In ("SALE-" ++ today ++ "-9999")%string (map Sale.sale_number sales) ->
   Sale.id sale = None -> Sale.sale_number sale = "" ->
   if existsb (String.eqb ("SALE-" ++ today ++ "-10000"))
              (map Sale.sale_number sales)
   then Sale.save now sales sale = None
   else exists sale',
       Sale.save now sales sale = Some (sale', sales ++ [sale']) /\
       Sale.sale_number sale' = ("SALE-" ++ today ++ "-10000")%string) /\
  (issued_numbers "PARK" today 10000
     (map ParkedTicket.ticket_number tickets) ->
   In ("PARK-" ++ today ++ "-9999")%string
      (map ParkedTicket.ticket_number tickets) ->
   ParkedTicket.id ticket = None -> ParkedTicket.ticket_number ticket = "" ->
   if existsb (String.eqb ("PARK-" ++ today ++ "-10000"))
              (map ParkedTicket.ticket_number tickets)
   then ParkedTicket.save now tickets ticket = None
   else exists ticket',
       ParkedTicket.save now tickets ticket
       = Some (ticket', tickets ++ [ticket']) /\
       ParkedTicket.ticket_number ticket'
       = ("PARK-" ++ today ++ "-10000")%string).
Proof.
  intros today. split.
  - rewrite SALE_9999, SALE_10000. intros Hiss Hin Hid Hnum.
    pose proof (query_greatest_with_prefix ("SALE-" ++ today)
                  (map Sale.sale_number sales)) as Hq.
    change ("SALE-" ++ today)%string with ("SALE" ++ "-" ++ today)%string in Hq.
    rewrite (greatest_is_9999 "SALE" today _ Hiss Hin) in Hq.
    unfold Sale.save. fold today.
    rewrite (Sale_assign_number today sales sale _ 10000 Hnum Hq
               (next_seq_9999 _ _)).
    cbn [mbind option_bind]. unfold Sale.write.
    rewrite stamp_insert by (destruct sale; exact Hid).
    destruct (existsb _ _) eqn:He.
    + apply (unique_insert_refused Sale.id Sale.set_id Sale.sale_number).
      * destruct sale; exact Hid.
      * apply existsb_exists in He as (n & Hn & He).
        apply String.eqb_eq in He. subst n. destruct sale; exact Hn.
    + eexists. split.
      * apply (unique_insert Sale.id Sale.set_id Sale.sale_number).
        -- destruct sale; exact Hid.
        -- intros Hn.
           assert (existsb (String.eqb (document_number "SALE" today 10000))
                     (map Sale.sale_number sales) = true).
           { apply existsb_exists. eexists. split; [|apply String.eqb_refl].
             destruct sale; exact Hn. }
           congruence.
      * destruct sale; reflexivity.
  - rewrite PARK_9999, PARK_10000. intros Hiss Hin Hid Hnum.
    pose proof (query_greatest_with_prefix ("PARK-" ++ today)
                  (map ParkedTicket.ticket_number tickets)) as Hq.
    change ("PARK-" ++ today)%string with ("PARK" ++ "-" ++ today)%string in Hq.
    rewrite (greatest_is_9999 "PARK" today _ Hiss Hin) in Hq.
    unfold ParkedTicket.save. fold today.
    rewrite (ParkedTicket_assign_number today tickets ticket _ 10000 Hnum Hq
               (next_seq_9999 _ _)).
    cbn [mbind option_bind].
    destruct (existsb _ _) eqn:He.
    + apply (unique_insert_refused ParkedTicket.id ParkedTicket.set_id
               ParkedTicket.ticket_number).
      * destruct ticket as [i n e o c [x|]]; exact Hid.
      * apply existsb_exists in He as (n & Hn & He).
        apply String.eqb_eq in He. subst n.
        destruct ticket as [i n e o c [x|]]; exact Hn.
    + eexists. split.
      * apply (unique_insert ParkedTicket.id ParkedTicket.set_id
                 ParkedTicket.ticket_number).
        -- destruct ticket as [i n e o c [x|]]; exact Hid.
        -- intros Hn.
           assert (existsb (String.eqb (document_number "PARK" today 10000))
                     (map ParkedTicket.ticket_number tickets) = true).
           { apply existsb_exists. eexists. split; [|apply String.eqb_refl].
             destruct ticket as [i n e o c [x|]]; exact Hn. }
           congruence.
      * destruct ticket as [i n e o c [x|]]; reflexivity.
Qed.

End NumbersPastLimit.

Section TotalsAgain.
Import Spec Contract.
Local Open Scope string_scope.
Local Open Scope list_scope.
Local Open Scope Z_scope.

(** ** More on [Sale.calculate_totals] *)

Lemma fix_nonneg a : 0 <= coefficient a -> 0 <= coefficient (_fix a).
Proof.
  intros H. unfold _fix.
  destruct (Z.leb_spec (ndigits (coefficient a)) prec) as [_|Hn]; [exact H|].
  pose proof (pow10_pos (ndigits (coefficient a) - prec) ltac:(lia)) as Hp.
  pose proof (rhe_nonneg (Z.abs (coefficient a)) _ (Z.abs_nonneg _) Hp) as Hr.
  destruct (_ =? _); cbn [coefficient]; apply Z.mul_nonneg_nonneg; try lia.
  apply Z.div_pos; lia.
Qed.

Lemma dsub_gt_nonneg a b : dgtb a b = true -> 0 <= coefficient (dsub a b).
Proof.
  unfold dgtb, dcompare, dsub, dadd, dneg. cbn [coefficient exponent].
  destruct (_ ?= _) eqn:E; try discriminate. intros _.
  apply Z.compare_gt_iff in E. apply fix_nonneg. cbn [coefficient]. lia.
Qed.

(** X16. The change of a sale is never negative, whatever the amounts:
    after [calculate_totals] it is [amount_paid - total] when the amount
    paid exceeds the total (a total below zero included) and [0.00]
    otherwise. *)
Theorem change_given_is_never_negative (now : Timezone.datetime)
    (sale_items : list SaleItem.t) (objects objects' : list Sale.t)
    (self self' : Sale.t) :
  Sale.calculate_totals now sale_items objects self = Some (self', objects') ->
  Sale.change_given self'
  = (if dgtb (Sale.amount_paid self) (Sale.total self')
     then dsub (Sale.amount_paid self) (Sale.total self')
     else Decimal_0_00) /\
  0 <= coefficient (Sale.change_given self').
Proof.
  unfold Sale.calculate_totals. intros Hs.
  apply Sale_save_amounts in Hs as (_ & _ & _ & Ht & Hc).
  rewrite Hc, Ht. unfold Sale.with_totals.
  cbn [Sale.set_totals Sale.change_given Sale.total].
  split; [reflexivity|].
  destruct (dgtb _ _) eqn:E; [now apply dsub_gt_nonneg|cbn; lia].
Qed.

(** *** The keys of the breakdown *)

Lemma add_to_rate_keys key n t entries :
  map fst (Sale.add_to_rate key n t entries)
  = if existsb (String.eqb key) (map fst entries)
    then map fst entries else map fst entries ++ [key].
Proof.
  induction entries as [|[k [b x]] rest IH]; [reflexivity|].
  cbn [Sale.add_to_rate map fst existsb].
  rewrite (String.eqb_sym key k).
  destruct (String.eqb k key); cbn [orb map fst]; [reflexivity|].
  rewrite IH. now destruct (existsb _ _).
Qed.

Lemma existsb_eqb_In key keys :
  existsb (String.eqb key) keys = true <-> In key keys.
Proof.
  rewrite existsb_exists. split.
  - intros (x & Hx & E). apply String.eqb_eq in E. now subst.
  - intros H. exists key. split; [exact H|apply String.eqb_refl].
Qed.

Lemma fold_add_item_keys items : forall acc,
  NoDup (map fst (Sale.by_rate acc)) ->
  let acc' := fold_left Sale.add_item items acc in
  NoDup (map fst (Sale.by_rate acc')) /\
  (forall key, In key (map fst (Sale.by_rate acc')) <->
               In key (map fst (Sale.by_rate acc)) \/ In key (rate_keys items)) /\
  (length (Sale.by_rate acc') <= length (Sale.by_rate acc) + length items)%nat.
Proof.
  induction items as [|item items IH]; intros acc Hnd; cbn [fold_left].
  - cbn zeta. split; [exact Hnd|]. split; [|lia].
    intros key. cbn [rate_keys map In]. tauto.
  - cbn zeta.
    assert (Hk : map fst (Sale.by_rate (Sale.add_item acc item))
                 = if existsb (String.eqb (str_Decimal (SaleItem.tax_rate item)))
                              (map fst (Sale.by_rate acc))
                   then map fst (Sale.by_rate acc)
                   else map fst (Sale.by_rate acc)
                        ++ [str_Decimal (SaleItem.tax_rate item)]).
    { unfold Sale.add_item. cbn [Sale.by_rate]. apply add_to_rate_keys. }
    assert (Hnd' : NoDup (map fst (Sale.by_rate (Sale.add_item acc item)))).
    { rewrite Hk. destruct (existsb _ _) eqn:E; [exact Hnd|].
      apply NoDup_add_last; [exact Hnd|]. intros Hin.
      apply existsb_eqb_In in Hin. congruence. }
    destruct (IH _ Hnd') as (N & M & L). cbn zeta in N, M, L.
    split; [exact N|]. split.
    + intros key. rewrite M, Hk. cbn [rate_keys map In].
      fold (rate_keys items).
      destruct (existsb _ _) eqn:E.
      * apply existsb_eqb_In in E. split; [tauto|].
        intros [H|[<-|H]]; tauto.
      * rewrite in_app_iff. cbn [In]. tauto.
    + assert (length (Sale.by_rate (Sale.add_item acc item))
              <= S (length (Sale.by_rate acc)))%nat.
      { rewrite <- !(length_map fst), Hk.
        destruct (existsb _ _); [lia|]. rewrite length_app. cbn [length]. lia. }
      cbn [length]. lia.
Qed.

(** X17. The stored tax breakdown has one entry per rate label: its keys
    are pairwise different, they are the labels [str(item.tax_rate)] of
    the lines of the sale and no other, and there are at most as many
    entries as lines. *)
Theorem tax_breakdown_has_one_entry_per_rate (now : Timezone.datetime)
    (sale_items : list SaleItem.t) (objects objects' : list Sale.t)
    (self self' : Sale.t) :
  Sale.calculate_totals now sale_items objects self = Some (self', objects') ->
  NoDup (map fst (Sale.tax_breakdown self')) /\
  (forall key,
     In key (map fst (Sale.tax_breakdown self')) <->
     exists item, In item (Sale.items self sale_items) /\
                  str_Decimal (SaleItem.tax_rate item) = key) /\
  (length (Sale.tax_breakdown self')
   <= length (Sale.items self sale_items))%nat.
Proof.
  unfold Sale.calculate_totals. intros Hs.
  apply Sale_save_amounts in Hs as (_ & _ & Hb & _ & _). rewrite Hb.
  destruct (with_totals_fields self sale_items) as (_ & _ & -> & _).
  destruct (fold_add_item_keys (Sale.items self sale_items)
              {| Sale.total_net := Decimal_0_00; Sale.total_tax := Decimal_0_00;
                 Sale.total_gross := Decimal_0_00; Sale.by_rate := [] |})
    as (N & M & L); [constructor|].
  cbn zeta in N, M, L. fold (Sale.sum_items (Sale.items self sale_items)) in N, M, L.
  assert (E : forall l : list (string * (Decimal * Decimal)),
            map fst (map (fun '(k, (b, t)) =>
                            (k, {| Sale.base := float_of_Decimal b;
                                   Sale.tax := float_of_Decimal t |})) l)
            = map fst l).
  { induction l as [|[k [b t]] l IH]; [reflexivity|]. cbn [map fst].
    now rewrite IH. }
  rewrite E, length_map. split; [exact N|]. split.
  - intros key. rewrite M. cbn [Sale.by_rate map In]. unfold rate_keys.
    rewrite in_map_iff. split.
    + intros [[]|(item & Hk & Hin)]. now exists item.
    + intros (item & Hin & Hk). right. now exists item.
  - cbn [Sale.by_rate length] in L. lia.
Qed.

(** *** Computing the totals again *)

Section SavedAgain.
Context {row : Type}.
Variable pk : row -> option Z.
Variable set_pk : Z -> row -> row.
Variable column : row -> string.

(** After a write of an object that has a key, a second write under the
    same key and with the same value of the unique column is an UPDATE of
    its row. *)
Lemma Model_save_unique_again objects self self' objects' other k :
  pk self = Some k -> pk other = Some k -> column other = column self ->
  Orm.Model_save_unique pk set_pk column objects self = Some (self', objects') ->
  self' = self /\
  existsb (Orm.has_pk pk k) objects' = true /\
  Orm.Model_save_unique pk set_pk column objects' other
  = Some (other, Table.replace pk k other objects').
Proof.
  intros Hpk Hpo Hc. unfold Orm.Model_save_unique. rewrite Hpk, Hpo, Hc.
  destruct (existsb _ objects) eqn:He; [discriminate|].
  intros [= H]. unfold Orm.Model_save in *. rewrite Hpk in H. rewrite Hpo.
  assert (Hno : forall r, In r objects ->
            negb (Orm.has_pk pk k r) && String.eqb (column r) (column self)
            = false).
  { intros r Hr. destruct (_ && _) eqn:E; [|reflexivity].
    assert (existsb (fun r => negb (Orm.has_pk pk k r)
                              && String.eqb (column r) (column self)) objects
            = true) by (apply existsb_exists; now exists r).
    congruence. }
  assert (Hself : Orm.has_pk pk k self = true) by now apply has_pk_iff.
  destruct (existsb (Orm.has_pk pk k) objects) eqn:Hex;
    injection H as <- <-; (split; [reflexivity|]).
  - assert (Hin : existsb (Orm.has_pk pk k)
                    (map (fun r => if Orm.has_pk pk k r then self else r)
                         objects) = true).
    { apply existsb_exists in Hex as (r & Hr & Hk).
      apply existsb_exists. exists self. split; [|exact Hself].
      apply in_map_iff. exists r. now rewrite Hk. }
    split; [exact Hin|]. rewrite Hin.
    replace (existsb _ (map _ objects)) with false; [reflexivity|].
    symmetry. apply not_true_is_false. intros H.
    apply existsb_exists in H as (r & Hr & H).
    apply in_map_iff in Hr as (x & Hx & Hr).
    destruct (Orm.has_pk pk k x) eqn:E; subst r.
    + rewrite Hself in H. discriminate.
    + rewrite (Hno x Hr) in H. discriminate.
  - assert (Hin : existsb (Orm.has_pk pk k) (objects ++ [self]) = true).
    { apply existsb_exists. exists self.
      split; [apply in_or_app; right; now left|exact Hself]. }
    split; [exact Hin|]. rewrite Hin.
    replace (existsb _ (objects ++ [self])) with false; [reflexivity|].
    symmetry. apply not_true_is_false. intros H.
    apply existsb_exists in H as (r & Hr & H).
    apply in_app_or in Hr as [Hr|[<-|[]]].
    + rewrite (Hno r Hr) in H. discriminate.
    + rewrite Hself in H. discriminate.
Qed.

End SavedAgain.

Lemma with_totals_again self sale_items :
  Sale.with_totals (Sale.with_totals self sale_items) sale_items
  = Sale.with_totals self sale_items.
Proof. destruct self. reflexivity. Qed.

Lemma with_totals_set_number self sale_items number :
  Sale.with_totals (Sale.set_sale_number number self) sale_items
  = Sale.set_sale_number number (Sale.with_totals self sale_items).
Proof. destruct self. reflexivity. Qed.

Lemma assigned_number_not_empty today objects self self' :
  Sale.assign_number today objects self = Some self' ->
  Sale.sale_number self' <> "".
Proof.
  intros H. apply Sale_assign_number_kept in H as (_ & Hkeep & Hnew).
  destruct (String.eqb_spec (Sale.sale_number self) "") as [E|E].
  - destruct (Hnew E) as [seq ->]. discriminate.
  - now rewrite (Hkeep E).
Qed.

Lemma with_totals_stamp now objects self sale_items :
  Sale.with_totals (Sale.stamp now objects self) sale_items
  = Sale.stamp now objects (Sale.with_totals self sale_items).
Proof.
  destruct self as [[k|] n s a t b d g p m c u r w x y]; unfold Sale.stamp;
    cbn [Sale.id Sale.with_totals Sale.set_totals];
    [destruct (negb _)|]; reflexivity.
Qed.

(** X18. Computing the totals of a stored sale twice changes nothing but
    the time of the update: when [calculate_totals] has succeeded for a
    sale that has a key, a second call on the sale it returned, on the
    same lines and at a later time, succeeds, and what it returns and
    writes in place of the row is that sale with the time of the second
    call as [updated_at]; the number, the amounts, the breakdown and every
    other field are as the first call left them. *)
Theorem calculate_totals_again (now now' : Timezone.datetime)
    (sale_items : list SaleItem.t) (objects objects' : list Sale.t)
    (self self' : Sale.t) (k : Z) :
  Sale.id self = Some k ->
  Sale.calculate_totals now sale_items objects self = Some (self', objects') ->
  Sale.calculate_totals now' sale_items objects' self'
  = Some (Sale.set_updated_at (Timezone.timestamp now') self',
          Table.replace Sale.id k
            (Sale.set_updated_at (Timezone.timestamp now') self') objects').
Proof.
  intros Hid. unfold Sale.calculate_totals, Sale.save.
  destruct (Sale.assign_number _ objects _) as [x1|] eqn:Ha; [|discriminate].
  cbn [mbind option_bind]. unfold Sale.write at 1. intros Hs.
  pose proof (assigned_number_not_empty _ _ _ _ Ha) as Hne.
  destruct (Sale_assign_number_kept _ _ _ _ Ha) as (Hid1 & Hkeep & Hnew).
  assert (Hk1 : Sale.id x1 = Some k).
  { rewrite Hid1. destruct self; exact Hid. }
  assert (Hw : Sale.with_totals x1 sale_items = x1).
  { unfold Sale.assign_number in Ha.
    destruct (String.eqb (Sale.sale_number _) ""); [|].
    - destruct (greatest _) as [m|].
      + destruct (int_of_str _); [|discriminate]. cbn [mbind option_bind] in Ha.
        injection Ha as <-.
        now rewrite with_totals_set_number, with_totals_again.
      + cbn [mbind option_bind] in Ha. injection Ha as <-.
        now rewrite with_totals_set_number, with_totals_again.
    - injection Ha as <-. apply with_totals_again. }
  assert (Hw2 : Sale.with_totals (Sale.stamp now objects x1) sale_items
                = Sale.stamp now objects x1)
    by now rewrite with_totals_stamp, Hw.
  assert (Hn2 : Sale.sale_number (Sale.stamp now objects x1) <> "")
    by now rewrite stamp_sale_number.
  assert (Hk2 : Sale.id (Sale.stamp now objects x1) = Some k)
    by now rewrite stamp_id.
  set (x2 := Sale.stamp now objects x1) in *.
  destruct (Model_save_unique_again Sale.id Sale.set_id Sale.sale_number
              objects x2 self' objects'
              (Sale.set_updated_at (Timezone.timestamp now') x2) k
              Hk2 Hk2 eq_refl Hs) as (-> & Hin & Hagain).
  rewrite Hw2. unfold Sale.assign_number.
  destruct (String.eqb_spec (Sale.sale_number x2) "") as [E|_];
    [contradiction|].
  cbn [mbind option_bind]. unfold Sale.write.
  replace (Sale.stamp now' objects' x2)
    with (Sale.set_updated_at (Timezone.timestamp now') x2);
    [exact Hagain|].
  unfold Sale.stamp. now rewrite Hk2, Hin.
Qed.

End TotalsAgain.

Section CompleteSale.
Import Spec Contract.
Local Open Scope string_scope.
Local Open Scope list_scope.
Local Open Scope Z_scope.

(** ** [complete_sale] as a whole *)











End CompleteSale.

Section ExpectedCash.
Import Spec Contract.
Local Open Scope string_scope.
Local Open Scope list_scope.
Local Open Scope Z_scope.

(** ** The expected cash and one more record *)

Lemma sum_cents_app a b : sum_cents (a ++ b) = sum_cents a + sum_cents b.
Proof.
  unfold sum_cents. rewrite map_app, fold_right_app.
  induction (map coefficient a) as [|x l IH]; cbn [fold_right]; lia.
Qed.

Lemma movements_snoc self cash_movements m type :
  CashRegister.movements self (cash_movements ++ [m]) type
  = CashRegister.movements self cash_movements type
    ++ CashRegister.movements self [m] type.
Proof.
  unfold CashRegister.movements. now rewrite List.filter_app, map_app.
Qed.

Lemma attributed_snoc counted self all_sales s :
  attributed_cash_sales counted self (all_sales ++ [s])
  = attributed_cash_sales counted self all_sales
    ++ attributed_cash_sales counted self [s].
Proof.
  unfold attributed_cash_sales. now rewrite List.filter_app, map_app.
Qed.

Lemma expected_cents_movement self cash_movements all_sales m k :
  CashRegister.id self = Some k ->
  expected_cents (fun _ => true) (cash_movements ++ [m]) all_sales self
  = expected_cents (fun _ => true) cash_movements all_sales self
    + movement_share k m.
Proof.
  intros Hk. unfold expected_cents. rewrite !movements_snoc, !sum_cents_app.
  unfold CashRegister.movements at 2 4, movement_share. rewrite Hk.
  cbn [List.filter].
  destruct (CashMovement.cash_register m =? k); cbn [andb map];
    [|unfold sum_cents; cbn; lia].
  destruct (String.eqb_spec (CashMovement.type m) "in") as [E|E].
  - rewrite E. cbn [String.eqb Ascii.eqb Bool.eqb andb map].
    unfold sum_cents. cbn. lia.
  - destruct (String.eqb_spec (CashMovement.type m) "out") as [E'|E'];
      unfold sum_cents; cbn; lia.
Qed.

Lemma expected_cents_sale self cash_movements all_sales s k :
  CashRegister.id self = Some k ->
  expected_cents (fun _ => true) cash_movements (all_sales ++ [s]) self
  = expected_cents (fun _ => true) cash_movements all_sales self
    + sale_share k s.
Proof.
  intros Hk. unfold expected_cents. rewrite attributed_snoc, sum_cents_app.
  unfold attributed_cash_sales at 2, sale_share. rewrite Hk.
  cbn [List.filter].
  destruct (Sale.cash_register s) as [k'|]; [|unfold sum_cents; cbn; lia].
  rewrite andb_true_r.
  destruct (_ && _); unfold sum_cents; cbn; lia.
Qed.

(** X21. Every record moves the expected cash of a register by its own
    amount: one more movement of the register adds its amount when its
    type is [in] and subtracts it when it is [out]; one more sale adds its
    total when it is cash-paid and attributed to the register; a movement
    of another type or register, and a sale that is not cash-paid or
    belongs elsewhere, leave the expected cash as it is. *)
Theorem expected_amount_moves_by_each_record
    (cash_movements : list CashMovement.t) (all_sales : list Sale.t)
    (self : CashRegister.t) (k : Z) (m : CashMovement.t) (s : Sale.t) :
  CashRegister.id self = Some k ->
  stored 10 (CashRegister.initial_amount self) ->
  Forall (fun m => stored 10 (CashMovement.amount m)) (cash_movements ++ [m]) ->
  Forall (fun s => stored 10 (Sale.total s)) (all_sales ++ [s]) ->
  Z.of_nat (length cash_movements) < many ->
  Z.of_nat (length all_sales) < many ->
  let expected :=
    snd (CashRegister.calculate_expected_amount cash_movements all_sales self) in
  exponent expected = -2 /\
  snd (CashRegister.calculate_expected_amount (cash_movements ++ [m])
         all_sales self)
  = mkDecimal (coefficient expected + movement_share k m) (-2) /\
  snd (CashRegister.calculate_expected_amount cash_movements
         (all_sales ++ [s]) self)
  = mkDecimal (coefficient expected + sale_share k s) (-2).
Proof.
  intros Hk Hi Hm Hs Hlm Hls expected. subst expected.
  assert (Hm0 : Forall (fun m => stored 10 (CashMovement.amount m)) cash_movements)
    by (apply Forall_app in Hm; tauto).
  assert (Hs0 : Forall (fun s => stored 10 (Sale.total s)) all_sales)
    by (apply Forall_app in Hs; tauto).
  destruct (expected_amount_cents cash_movements all_sales self Hi Hm0 Hs0)
    as [-> _]; [lia|lia|].
  destruct (expected_amount_cents (cash_movements ++ [m]) all_sales self Hi Hm Hs0)
    as [-> _]; [rewrite length_app; cbn [length]; lia|lia|].
  destruct (expected_amount_cents cash_movements (all_sales ++ [s]) self Hi Hm0 Hs)
    as [-> _]; [lia|rewrite length_app; cbn [length]; lia|].
  cbn [coefficient exponent].
  rewrite (expected_cents_movement _ _ _ _ k Hk),
          (expected_cents_sale _ _ _ _ k Hk).
  auto.
Qed.

End ExpectedCash.

Section FreeLines.
Import Spec Contract.
Local Open Scope Z_scope.

(** ** Lines that cost nothing *)

Lemma dmul_zero_r a b :
  coefficient b = 0 -> dmul a b = mkDecimal 0 (exponent a + exponent b).
Proof. intros H. unfold dmul. rewrite H, Z.mul_0_r. apply fix_zero. Qed.

Lemma dmul_zero_l a b :
  coefficient a = 0 -> dmul a b = mkDecimal 0 (exponent a + exponent b).
Proof. intros H. unfold dmul. rewrite H, Z.mul_0_l. apply fix_zero. Qed.

Lemma quantize_zero a q :
  coefficient a = 0 -> quantize a q = Some (mkDecimal 0 (exponent q)).
Proof. intros H. unfold quantize. now rewrite H. Qed.

Lemma ddiv_zero a b :
  coefficient a = 0 -> coefficient b <> 0 ->
  ddiv a b = Some (mkDecimal 0 (exponent a - exponent b)).
Proof.
  intros Ha Hb. unfold ddiv. apply Z.eqb_neq in Hb. rewrite Hb, Ha.
  cbn [Z.eqb]. now rewrite fix_zero.
Qed.

(** [1 - p] for [p = 1]. *)
Lemma one_minus_one c e :
  0 <= c -> -4 <= e -> c * 10 ^ (e + 4) = 10000 ->
  coefficient (dsub Decimal_1 (mkDecimal c e)) = 0.
Proof.
  intros Hc He Hv.
  assert (Hm : mag_le (mkDecimal c e) 0).
  { apply percent_mag; try assumption. rewrite Hv. cbn. lia. }
  rewrite one_minus by assumption. cbn [coefficient].
  change 10000 with (10 ^ 4) in Hv.
  destruct (Z_le_gt_dec 0 e) as [H0|H0].
  - replace (Z.min 0 e) with 0 by lia.
    rewrite pow10_split in Hv by lia.
    replace (e - 0) with e by lia. cbn [Z.opp Z.pow Z.pow_pos Pos.iter Z.mul].
    pose proof (pow10_pos e H0). nia.
  - replace (Z.min 0 e) with e by lia.
    replace (e - e) with 0 by lia. rewrite Z.mul_1_r.
    assert (H4 : 10 ^ 4 = 10 ^ (- e) * 10 ^ (e + 4)).
    { rewrite <- pow10_split by lia. f_equal. lia. }
    pose proof (pow10_pos (e + 4) ltac:(lia)).
    pose proof (pow10_pos (- e) ltac:(lia)). nia.
Qed.

Lemma quantize_zero_difference :
  quantize (dsub (mkDecimal 0 (-2)) (mkDecimal 0 (-2))) Decimal_0_01
  = Some (mkDecimal 0 (-2)).
Proof. reflexivity. Qed.

Lemma quantize_zero_sum :
  quantize (dadd (mkDecimal 0 (-2)) (mkDecimal 0 (-2))) Decimal_0_01
  = Some (mkDecimal 0 (-2)).
Proof. reflexivity. Qed.

Lemma Model_save_line objects x :
  SaleItem.net_amount
    (fst (Orm.Model_save SaleItem.id SaleItem.set_id objects x))
  = SaleItem.net_amount x /\
  SaleItem.tax_amount
    (fst (Orm.Model_save SaleItem.id SaleItem.set_id objects x))
  = SaleItem.tax_amount x /\
  SaleItem.line_total
    (fst (Orm.Model_save SaleItem.id SaleItem.set_id objects x))
  = SaleItem.line_total x.
Proof. exact (Model_save_amounts objects x). Qed.

(** X22. A line that is given away costs nothing: with a discount of
    100 %, whatever the quantity, and with a quantity of zero, whatever the
    discount, [SaleItem.save] stores a net amount, a tax amount and a line
    total of [0.00], with prices that include tax or not. *)
Theorem free_line_amounts_are_zero (tax_included : bool)
    (objects : list SaleItem.t) (self : SaleItem.t) :
  DecimalField 10 2 (SaleItem.unit_price self) ->
  0 <= coefficient (SaleItem.unit_price self) ->
  DecimalField 5 2 (SaleItem.discount_percent self) ->
  0 <= cents (SaleItem.discount_percent self) <= 10000 ->
  DecimalField 5 2 (SaleItem.tax_rate self) ->
  0 <= coefficient (SaleItem.tax_rate self) ->
  cents (SaleItem.discount_percent self) = 10000 \/
  coefficient (SaleItem.quantity self) = 0 ->
  exists self' objects',
    SaleItem.save tax_included objects self = Some (self', objects') /\
    SaleItem.net_amount self' = mkDecimal 0 (-2) /\
    SaleItem.tax_amount self' = mkDecimal 0 (-2) /\
    SaleItem.line_total self' = mkDecimal 0 (-2).
Proof.
  intros Hu Hu0 Hd Hd100 Hr Hr0 Hfree.
  assert (Hd0 : 0 <= coefficient (SaleItem.discount_percent self)).
  { unfold cents in Hd100. destruct Hd as [He _].
    pose proof (pow10_pos (exponent (SaleItem.discount_percent self) + 2)
                  ltac:(lia)) as Hp.
    destruct Hd100 as [Hd100 _]. rewrite Z.mul_comm in Hd100.
    apply (mul_nonneg_cancel _ _ _ Hp (Z.mul_comm _ _)) in Hd100. exact Hd100. }
  destruct (percent_spec 5 _ ltac:(lia) Hd Hd0) as (c & e & Hdd & Hc & He & Hcv).
  destruct (percent_spec 5 _ ltac:(lia) Hr Hr0)
    as (c2 & e2 & Hrr & Hc2 & He2 & Hcv2).
  assert (Hmd : mag_le (mkDecimal c e) 0).
  { apply percent_mag; try assumption. rewrite Hcv. simpl. lia. }
  assert (Hmr : mag_le (mkDecimal c2 e2) 1).
  { apply percent_mag; try assumption. rewrite Hcv2.
    destruct Hr as [Hre Hrc]. unfold cents.
    rewrite Z.abs_eq in Hrc by lia. simpl (1 + 4). lia. }
  pose proof (DecimalField_mag _ _ _ Hu) as Hmu. change (10 - 2) with 8 in Hmu.
  pose proof (discounted_price_forms (SaleItem.unit_price self) c e
                (DecimalField_small _ _ _ Hu) Hc He Hmd) as Hforms.
  set (price := dmul (SaleItem.unit_price self)
                     (dsub Decimal_1 (mkDecimal c e))) in *.
  assert (Hmp : mag_le price 9).
  { unfold price. change 9 with (8 + 1). apply mag_le_dmul; [exact Hmu|].
    change 1 with (0 + 1). apply mag_le_dsub; [|exact Hmd].
    unfold mag_le. cbn. lia. }
  pose proof (ge_one_one_plus c2 e2 Hc2 He2 Hmr) as Hge.
  destruct (ddiv_mag price (dadd Decimal_1 (mkDecimal c2 e2)) 9 Hmp Hge)
    as (net_unit & Hnu & _).
  assert (Hzero : coefficient (dmul price (SaleItem.quantity self)) = 0 /\
                  coefficient (dmul net_unit (SaleItem.quantity self)) = 0).
  { destruct Hfree as [H100|Hq0].
    - assert (Hp0 : coefficient price = 0).
      { unfold price. rewrite dmul_zero_r; [reflexivity|].
        apply one_minus_one; try assumption. now rewrite Hcv. }
      rewrite (ddiv_zero price _ Hp0 (proj1 Hge)) in Hnu.
      injection Hnu as <-.
      split; [rewrite dmul_zero_l by exact Hp0|rewrite dmul_zero_l by reflexivity];
        reflexivity.
    - split; rewrite dmul_zero_r by exact Hq0; reflexivity. }
  destruct Hzero as [Hz1 Hz2].
  unfold SaleItem.save. rewrite Hdd. cbn [mbind option_bind].
  rewrite Hforms. fold price. rewrite Hrr.
  destruct tax_included; cbn [mbind option_bind].
  - rewrite Hnu. cbn [mbind option_bind].
    rewrite (quantize_zero _ _ Hz2), (quantize_zero _ _ Hz1).
    cbn [mbind option_bind Decimal_0_01 exponent].
    rewrite quantize_zero_difference.
    cbn [mbind option_bind].
    eexists _, _. split; [f_equal; apply surjective_pairing|].
    apply Model_save_line.
  - rewrite (quantize_zero _ _ Hz1).
    cbn [mbind option_bind Decimal_0_01 exponent].
    rewrite (dmul_zero_l (mkDecimal 0 (-2))) by reflexivity.
    rewrite quantize_zero by reflexivity.
    cbn [mbind option_bind Decimal_0_01 exponent].
    rewrite quantize_zero_sum.
    cbn [mbind option_bind].
    eexists _, _. split; [f_equal; apply surjective_pairing|].
    apply Model_save_line.
Qed.

End FreeLines.

Section RoundingOrder.
Import Spec Contract.
Local Open Scope Z_scope.

(** ** Rounding keeps the order *)




(** ** The order of the values *)

Lemma scaled_shift M M' a :
  M' <= M -> M <= exponent a ->
  scaled M' a = scaled M a * 10 ^ (M - M').
Proof.
  intros H1 H2. unfold scaled.
  replace (exponent a - M') with ((exponent a - M) + (M - M')) by lia.
  rewrite pow10_split by lia. ring.
Qed.

Lemma dle_scaled M a b :
  M <= exponent a -> M <= exponent b ->
  (dle a b <-> scaled M a <= scaled M b).
Proof.
  intros Ha Hb. unfold dle.
  set (m := Z.min (exponent a) (exponent b)).
  rewrite (scaled_shift m M a), (scaled_shift m M b) by (unfold m; lia).
  pose proof (pow10_pos (m - M) ltac:(unfold m; lia)). split; nia.
Qed.


Lemma dle_trans a b c : dle a b -> dle b c -> dle a c.
Proof.
  set (M := Z.min (exponent a) (Z.min (exponent b) (exponent c))).
  intros H1 H2.
  apply (dle_scaled M) in H1; [|unfold M; lia|unfold M; lia].
  apply (dle_scaled M) in H2; [|unfold M; lia|unfold M; lia].
  apply (dle_scaled M); [unfold M; lia|unfold M; lia|lia].
Qed.

Lemma dle_cents c1 c2 :
  dle (mkDecimal c1 (-2)) (mkDecimal c2 (-2)) <-> c1 <= c2.
Proof.
  unfold dle, scaled. cbn [coefficient exponent].
  change (Z.min (-2) (-2)) with (-2). change (-2 - -2) with 0.
  rewrite Z.pow_0_r. lia.
Qed.


(** ** [quantize] keeps the order *)




(** ** Rounding to the precision stays below a value that fits it *)



(** ** A quotient by a divisor of at least one stays below the dividend *)


(** ** The sign of the stored amounts *)







End RoundingOrder.

Section ZeroRate.
Import Spec Contract.
Local Open Scope Z_scope.

(** ** Lines without tax *)






End ZeroRate.

Section ExactLineAmounts.
Import Spec Contract.
Local Open Scope Z_scope.

(** ** The distance of a rounded quotient from the quotient *)




(** ** The quotient of [__truediv__] and the exact quotient *)




(** ** The amounts of a line in hundredths *)






(** ** The exact formula in hundredths *)


(** The integer nearest to a fraction is the half-even rounding of the
    division. *)
Lemma nearest_make n p : nearest (n # p) = round_half_even n (Zpos p).
Proof.
  unfold nearest, round_half_even. cbn [Qfloor].
  pose proof (Z.div_mod n (Zpos p) ltac:(lia)) as Hdm.
  pose proof (Z.mod_pos_bound n (Zpos p) ltac:(lia)) as Hr.
  set (f := n / Zpos p) in *. set (r := n mod Zpos p) in *.
  unfold Qcompare, Qminus, Qplus, Qopp, inject_Z. cbn [Qnum Qden].
  rewrite Pos.mul_1_r, !Z.mul_1_r, Z.mul_1_l.
  destruct (Z.compare_spec ((n + - f * Zpos p) * 2) (Zpos p));
    destruct (Z.ltb_spec (2 * r) (Zpos p));
    destruct (Z.ltb_spec (Zpos p) (2 * r)); try lia; reflexivity.
Qed.



(** The rounding is to the nearest integer, and to the even one of two
    that are equally near. *)
Lemma rhe_nearest_even n d :
  0 < d ->
  2 * Z.abs (n - round_half_even n d * d) <= d /\
  (2 * Z.abs (n - round_half_even n d * d) = d ->
   Z.even (round_half_even n d) = true).
Proof.
  intros Hd. unfold round_half_even.
  pose proof (Z.div_mod n d ltac:(lia)) as Hdm.
  pose proof (Z.mod_pos_bound n d Hd) as Hr.
  set (q := n / d) in *. set (r := n mod d) in *.
  destruct (Z.ltb_spec (2 * r) d); [split; nia|].
  destruct (Z.ltb_spec d (2 * r)); [split; nia|].
  destruct (Z.even q) eqn:E; [split; [nia|auto]|].
  split; [nia|]. intros _. rewrite Z.even_add, E. reflexivity.
Qed.

Lemma nearest_spec (y : Q) :
  (Qabs (y - inject_Z (nearest y)) <= 1 # 2)%Q /\
  ((Qabs (y - inject_Z (nearest y)) == 1 # 2)%Q ->
   Z.even (nearest y) = true).
Proof.
  destruct y as [n p]. rewrite nearest_make.
  destruct (rhe_nearest_even n (Zpos p) ltac:(lia)) as [H1 H2].
  set (r := round_half_even n (Zpos p)) in *.
  unfold Qle, Qeq, Qabs, Qminus, Qplus, Qopp, inject_Z. cbn [Qnum Qden].
  rewrite Pos.mul_1_r, !Z.mul_1_r, !Z.mul_1_l.
  replace (n + - r * Z.pos p) with (n - r * Z.pos p) by lia.
  split; [lia|]. intros E. apply H2. lia.
Qed.



(** ** The amounts of a saved line and the formula of the contract *)




End ExactLineAmounts.

Section FurtherInstances.
Import Spec Contract.
Local Open Scope string_scope.
Local Open Scope list_scope.
Local Open Scope Z_scope.

(** ** The further theorems at concrete inputs *)

Ltac keyed_table :=
  split;
  [repeat constructor; discriminate
  |apply NoDup_ListNoDup; vm_compute; repeat constructor; cbn;
   intuition discriminate].

Ltac distinct_names :=
  apply NoDup_ListNoDup; vm_compute; repeat constructor; cbn;
  intuition discriminate.

Lemma sample_carts_keyed :
  Table.keyed ActiveCart.id [sample_cart_ana; sample_cart_bob].
Proof. keyed_table. Qed.

Lemma X1_witness_cart_of_ana :
  CartViews.load_active_cart (sample_cart_request "ana")
    (snd (CartViews.save_active_cart sample_now (sample_cart_request "ana")
            [sample_cart_ana; sample_cart_bob]))
  = CartViews.Loaded
      (CartViews.cart_of (Json.Array [Json.Str "bun"; Json.Str "pen"])).
Proof.
  refine (proj1 (proj2 (proj2 (active_cart_saved_then_loaded sample_now
            (sample_cart_request "ana") (sample_cart_request "ana")
            [sample_cart_ana; sample_cart_bob] _ _ _)))).
  - keyed_table.
  - vm_compute. lia.
  - reflexivity.
Defined.

Lemma X2_witness_cart_of_bob :
  List.filter (CartViews.of_employee "bob")
    (snd (CartViews.save_active_cart sample_now (sample_cart_request "ana")
            [sample_cart_ana; sample_cart_bob]))
  = [sample_cart_bob].
Proof.
  refine (proj1 (active_cart_of_others_untouched sample_now
            (sample_cart_request "ana") [sample_cart_ana; sample_cart_bob]
            "bob" _ _)).
  - keyed_table.
  - discriminate.
Defined.

Lemma X3_witness_two_employees :
  NoDup (map ActiveCart.employee_name
           (snd (CartViews.save_active_cart sample_now
                   (sample_cart_request "eve")
                   [sample_cart_ana; sample_cart_bob]))).
Proof.
  refine (proj2 (proj1 (active_cart_one_per_employee sample_now
            (sample_cart_request "eve") [sample_cart_ana; sample_cart_bob]
            _ _))).
  - keyed_table.
  - distinct_names.
Defined.

Lemma X4_witness_cleared_cart :
  CartViews.load_active_cart (sample_cart_request "ana")
    (snd (CartViews.clear_active_cart (sample_cart_request "ana")
            [sample_cart_ana; sample_cart_bob; sample_cart_ana]))
  = CartViews.Loaded (CartViews.cart_of (Json.Array [])).
Proof.
  refine (proj1 (proj2 (proj2 (active_cart_cleared_is_empty sample_now
            (sample_cart_request "ana") (sample_cart_request "ana")
            [sample_cart_ana; sample_cart_bob; sample_cart_ana] _)))).
  reflexivity.
Defined.

Lemma X5_witness_two_carts_of_ana :
  snd (CartViews.save_active_cart sample_now (sample_cart_request "ana")
         [sample_cart_ana; sample_cart_bob; sample_cart_ana])
  = [sample_cart_ana; sample_cart_bob; sample_cart_ana].
Proof.
  refine (proj2 (proj2 (active_cart_fails_on_duplicates sample_now
            (sample_cart_request "ana")
            [sample_cart_ana; sample_cart_bob; sample_cart_ana])) _).
  vm_compute. lia.
Defined.


Lemma sample_parking_well_formed : Parking.well_formed sample_parking.
Proof.
  split; [keyed_table|]. split; [distinct_names|].
  intros k [v Hv]. cbn [sample_parking Parking.cart_data Parking.tickets] in *.
  destruct (Z.eq_dec k 1) as [->|H1]; [now left|].
  destruct (Z.eq_dec k 2) as [->|H2]; [right; now left|].
  rewrite !lookup_insert_ne in Hv by congruence.
  rewrite lookup_empty in Hv. discriminate.
Qed.

Lemma X7_witness_park_and_recover :
  Parking.recover_parked_ticket (sample_later 86400) 3
    (snd (Parking.park_ticket sample_now (sample_cart_request "ana")
            sample_parking))
  = (Parking.Recovered
       (CartViews.cart_of (Json.Array [Json.Str "bun"; Json.Str "pen"])),
     sample_parking).
Proof.
  refine (parked_ticket_recovered sample_now (sample_later 86400)
            (sample_cart_request "ana") sample_parking _
            (ParkedTicket.mk (Some 3) "PARK-20250102-0003" "ana" "" 0
               (Some 86400)) 3 sample_parking_well_formed _ _ _).
  - vm_compute. reflexivity.
  - reflexivity.
  - vm_compute. discriminate.
Defined.

Lemma X8_witness_expired_ticket :
  Parking.recover_parked_ticket (sample_later 86501) 1 sample_parking
  = (Parking.Expired "PARK-20250102-0001", sample_parking).
Proof.
  refine (recover_respects_expiry (sample_later 86501) sample_parking
            (sample_ticket 1 100 86500 "PARK-20250102-0001") 1 86500
            _ _ _ _).
  - keyed_table.
  - now left.
  - reflexivity.
  - reflexivity.
Defined.

Lemma X9_witness_second_recovery :
  Parking.recover_parked_ticket (sample_later 500) 2
    (snd (Parking.recover_parked_ticket (sample_later 300) 2 sample_parking))
  = (Parking.Failure,
     snd (Parking.recover_parked_ticket (sample_later 300) 2 sample_parking)).
Proof.
  refine (proj2 (recover_only_once (sample_later 300) (sample_later 500)
                   sample_parking _ 2
                   (CartViews.cart_of (Json.Array [Json.Str "bun"]))) _).
  vm_compute. reflexivity.
Defined.

Lemma X10_witness_one_ticket_left :
  exists entries,
    Parking.parked_tickets_list (sample_later 86550) sample_parking
    = Parking.Listed entries (length entries) /\
    Permutation (map fst entries)
      [sample_ticket 2 200 86600 "PARK-20250102-0002"].
Proof.
  destruct (proj1 (parked_tickets_list_unexpired (sample_later 86550)
                     sample_parking)) as (l & H1 & H2 & _).
  - intros ticket [<-|[<-|[]]]; discriminate.
  - intros ticket [<-|[<-|[]]] _; vm_compute; discriminate.
  - exists l. split; [exact H1|exact H2].
Defined.

Lemma X11_witness_after_parking :
  Parking.well_formed
    (snd (Parking.park_ticket sample_now (sample_cart_request "ana")
            sample_parking)).
Proof.
  exact (proj1 (parking_keeps_well_formed sample_now
                  (sample_cart_request "ana") 1 sample_parking
                  sample_parking_well_formed)).
Defined.

Lemma X12_witness_first_config :
  exists config objects',
    SalesConfig.get_config sample_now [] = Some (config, objects') /\
    SalesConfig.get_config (sample_later 9) objects'
    = Some (config, objects').
Proof.
  destruct (get_config_singleton sample_now (sample_later 9) [])
    as (config & objects' & H1 & _ & _ & _ & H5 & _).
  - split; constructor.
  - exists config, objects'. split; [exact H1|exact H5].
Defined.

Lemma X13_witness_absent_keys_reset :
  exists config objects',
    Settings.settings_save sample_now sample_settings [sample_config]
    = (true, objects') /\
    SalesConfig.get_config (sample_later 9) objects'
    = Some (config, objects') /\
    SalesConfig.allow_cash config = false /\
    SalesConfig.allow_transfer config = false /\
    SalesConfig.allow_discounts config = true.
Proof.
  destruct (settings_save_overwrites sample_now (sample_later 9)
              sample_settings [sample_config])
    as (config & objects' & H1 & _ & H3 & H4 & _ & H6 & _ & H8 & _).
  - keyed_table.
  - exists config, objects'. repeat split; assumption.
Defined.

Lemma X14_witness_second_sale :
  exists sale' sales',
    Sale.save sample_now [sample_sale_7] Numbering.new_sale
    = Some (sale', sales') /\
    NoDup (map Sale.sale_number sales').
Proof.
  destruct (Sale.save sample_now [sample_sale_7] Numbering.new_sale)
    as [[sale' sales']|] eqn:E; [|vm_compute in E; discriminate].
  exists sale', sales'. split; [reflexivity|].
  refine (proj1 (proj2 (proj1 (save_keeps_numbers_unique sample_now
            [sample_sale_7] sales' Numbering.new_sale sale'
            [] [] (ParkedTicket.mk None "" "ana" "" 0 None)
            (ParkedTicket.mk None "" "ana" "" 0 None)) _ _ E))).
  - keyed_table.
  - distinct_names.
Defined.

Lemma X15_witness_day_is_full :
  Sale.save sample_now
    [sample_numbered_sale 1 "SALE-20250102-9999";
     sample_numbered_sale 2 "SALE-20250102-10000"] Numbering.new_sale
  = None.
Proof.
  refine (proj1 (numbering_stops_after_10000 sample_now
            [sample_numbered_sale 1 "SALE-20250102-9999";
             sample_numbered_sale 2 "SALE-20250102-10000"]
            Numbering.new_sale [] (ParkedTicket.mk None "" "ana" "" 0 None))
          _ _ _ _).
  - intros n [<-|[<-|[]]] _; [exists 9999|exists 10000];
      (split; [lia|vm_compute; reflexivity]).
  - now left.
  - reflexivity.
  - reflexivity.
Defined.

Lemma X16_witness_paid_less :
  exists self',
    0 <= coefficient (Sale.change_given self') /\
    Sale.total self' = mkDecimal 34 (-2).
Proof.
  eexists. split.
  - refine (proj2 (change_given_is_never_negative sample_now sample_items
                     [sample_sale 0] _ (sample_sale 0) _ _)).
    vm_compute. reflexivity.
  - reflexivity.
Defined.

Lemma X17_witness_two_labels :
  exists self',
    NoDup (map fst (Sale.tax_breakdown self')) /\
    map fst (Sale.tax_breakdown self') = ["21.00"; "10.00"].
Proof.
  eexists. split.
  - refine (proj1 (tax_breakdown_has_one_entry_per_rate sample_now sample_items
                     [sample_sale 0] _ (sample_sale 0) _ _)).
    vm_compute. reflexivity.
  - reflexivity.
Defined.

Lemma X18_witness_totals_twice :
  exists self' objects',
    Sale.calculate_totals sample_now sample_items [sample_sale 0]
                          (sample_sale 0) = Some (self', objects') /\
    Sale.calculate_totals (sample_later 9) sample_items objects' self'
    = Some (Sale.set_updated_at 9 self',
            Table.replace Sale.id 1 (Sale.set_updated_at 9 self') objects').
Proof.
  destruct (Sale.calculate_totals sample_now sample_items [sample_sale 0]
              (sample_sale 0)) as [[self' objects']|] eqn:E;
    [|vm_compute in E; discriminate].
  exists self', objects'. split; [reflexivity|].
  exact (calculate_totals_again sample_now (sample_later 9) sample_items
           [sample_sale 0] objects' (sample_sale 0) self' 1 eq_refl E).
Defined.



Lemma X21_witness_float_added :
  snd (CashRegister.calculate_expected_amount
         ([] ++ [CashMovement.mk (Some 1) 1 "in" (mkDecimal 5000 (-2))
                   "float" "John"]) [] sample_register)
  = mkDecimal 15000 (-2).
Proof.
  refine (proj1 (proj2 (expected_amount_moves_by_each_record [] []
            sample_register 1
            (CashMovement.mk (Some 1) 1 "in" (mkDecimal 5000 (-2))
               "float" "John")
            (sample_sale 0) _ _ _ _ _ _))).
  - reflexivity.
  - split; [reflexivity|]. cbn. lia.
  - repeat constructor; cbn; lia.
  - repeat constructor; cbn; lia.
  - cbn. unfold many. lia.
  - cbn. unfold many. lia.
Defined.

Lemma X22_witness_gift :
  exists self' objects',
    SaleItem.save true [] (sample_line 1210 300 10000 2100)
    = Some (self', objects') /\
    SaleItem.line_total self' = mkDecimal 0 (-2).
Proof.
  destruct (free_line_amounts_are_zero true [] (sample_line 1210 300 10000 2100))
    as (self' & objects' & H1 & _ & _ & H4);
    try (unfold DecimalField, cents; cbn; lia).
  exists self', objects'. split; [exact H1|exact H4].
Defined.




Lemma X25_witness_number_as_items :
  Parking.parked_tickets_list (sample_later 500)
    (snd (Parking.park_ticket sample_now
            {| CartViews.items := Some (Json.Number (Views.JInt 5));
               CartViews.employee_name := Some "ana"%string;
               CartViews.notes := None |}
            sample_parking))
  = Parking.Failure.
Proof.
  refine (parked_items_without_length_break_the_list sample_now
            (sample_later 500)
            {| CartViews.items := Some (Json.Number (Views.JInt 5));
               CartViews.employee_name := Some "ana"%string;
               CartViews.notes := None |}
            sample_parking _
            (ParkedTicket.mk (Some 3) "PARK-20250102-0003" "ana" "" 0
               (Some 86400)) _ _ _).
  - vm_compute. reflexivity.
  - reflexivity.
  - vm_compute. discriminate.
Defined.

End FurtherInstances.
